(** * Cover generator: crop engine, scene model, overlay drags, compositor

    A shallow embedding of the TypeScript sources
      - components/ImageCropper.tsx   (module [ImageCropper])
      - components/CoverCanvas.tsx    (module [CoverCanvas])
      - components/StickerOverlay.tsx (module [StickerOverlay])
      - components/LayoutEditorOverlay.tsx (module [LayoutEditorOverlay])
      - components/ImageUploader.tsx  (module [ImageUploader])
      - services/layoutService.ts     (module [LayoutService])
      - services/veoService.ts        (module [VeoService])
      - App.tsx                       (modules [App] and [Page])

    JavaScript numbers are modelled as exact rationals ([Q]); equalities
    between computed numbers are therefore stated with [==] ([Qeq]).
    Hooks ([useState], [useRef]) become fields of explicit state records
    and every handler becomes a function from state to state. What runs
    later is an event of its own: the continuation of a handler after
    an [await] (module [Page]) and the [onload] handler of an image
    (module [CoverCanvas]); the calls and images still pending are part
    of the state. *)

From Stdlib Require Import QArith Qminmax ZArith List String Ascii Bool Lqa.
From Stdlib Require Import DecimalString DecimalZ DecimalPos FinFun.
Import ListNotations.

Local Open Scope Q_scope.

(** ** Numbers *)

Definition number := Q.

(** [a > b] on JS numbers, as a boolean test. *)
Definition Qgtb (a b : Q) : bool := negb (Qle_bool a b).

(** ** types.ts *)

Inductive AppState :=
| IDLE | UPLOADING | CROPPING | ANALYZING | PREVIEW
| GENERATING_VIDEO | COMPLETED | ERROR.

Inductive AspectRatio := LANDSCAPE | PORTRAIT | SQUARE | VERTICAL.

Inductive FontStyle := fs_bold | fs_serif | fs_handwritten | fs_modern.

Inductive Position := pos_top | pos_bottom | pos_center | pos_split.

Definition FontStyle_str (f : FontStyle) : string :=
  match f with
  | fs_bold => "bold" | fs_serif => "serif"
  | fs_handwritten => "handwritten" | fs_modern => "modern"
  end.

Definition Position_str (p : Position) : string :=
  match p with
  | pos_top => "top" | pos_bottom => "bottom"
  | pos_center => "center" | pos_split => "split"
  end.

(** Optional fields (declared with a question mark in types.ts) are
    [option]s; [None] is [undefined]. *)
Module LayoutConfig.
Record t := mk {
  subtitle : string;
  textColor : string;
  shadowColor : string;
  fontStyle : FontStyle;
  position : Position;
  veoPrompt : string;
  x : option number;
  y : option number;
  subtitleX : option number;
  subtitleY : option number;
  scale : option number;
  titleBackgroundColor : option string;
  subtitleTextColor : option string;
  subtitleBackgroundColor : option string;
  filter : option string;
  fontFamily : option string
}.

(** [Partial<LayoutConfig>]: a field that is [None] is absent. *)
Record partial := mkPartial {
  p_subtitle : option string;
  p_textColor : option string;
  p_shadowColor : option string;
  p_fontStyle : option FontStyle;
  p_position : option Position;
  p_veoPrompt : option string;
  p_x : option number;
  p_y : option number;
  p_subtitleX : option number;
  p_subtitleY : option number;
  p_scale : option number;
  p_titleBackgroundColor : option string;
  p_subtitleTextColor : option string;
  p_subtitleBackgroundColor : option string;
  p_filter : option string;
  p_fontFamily : option string
}.

Definition over {A} (new : option A) (old : A) : A :=
  match new with Some v => v | None => old end.

Definition over_opt {A} (new old : option A) : option A :=
  match new with Some v => Some v | None => old end.

(** The object spread [{ ...config, ...changes }]. *)
Definition spread (c : t) (ch : partial) : t :=
  {| subtitle := over (p_subtitle ch) (subtitle c);
     textColor := over (p_textColor ch) (textColor c);
     shadowColor := over (p_shadowColor ch) (shadowColor c);
     fontStyle := over (p_fontStyle ch) (fontStyle c);
     position := over (p_position ch) (position c);
     veoPrompt := over (p_veoPrompt ch) (veoPrompt c);
     x := over_opt (p_x ch) (x c);
     y := over_opt (p_y ch) (y c);
     subtitleX := over_opt (p_subtitleX ch) (subtitleX c);
     subtitleY := over_opt (p_subtitleY ch) (subtitleY c);
     scale := over_opt (p_scale ch) (scale c);
     titleBackgroundColor := over_opt (p_titleBackgroundColor ch) (titleBackgroundColor c);
     subtitleTextColor := over_opt (p_subtitleTextColor ch) (subtitleTextColor c);
     subtitleBackgroundColor :=
       over_opt (p_subtitleBackgroundColor ch) (subtitleBackgroundColor c);
     filter := over_opt (p_filter ch) (filter c);
     fontFamily := over_opt (p_fontFamily ch) (fontFamily c) |}.
End LayoutConfig.

Inductive StickerType := emoji | text.

Module Sticker.
Record t := mk {
  id : string;
  type : StickerType;
  content : string;
  x : number;
  y : number;
  scale : number;
  rotation : number
}.

(** [Partial<Sticker>] *)
Record partial := mkPartial {
  p_id : option string;
  p_type : option StickerType;
  p_content : option string;
  p_x : option number;
  p_y : option number;
  p_scale : option number;
  p_rotation : option number
}.

Definition over {A} (new : option A) (old : A) : A :=
  match new with Some v => v | None => old end.

(** The object spread [{ ...s, ...changes }]. *)
Definition spread (s : t) (ch : partial) : t :=
  {| id := over (p_id ch) (id s);
     type := over (p_type ch) (type s);
     content := over (p_content ch) (content s);
     x := over (p_x ch) (x s);
     y := over (p_y ch) (y s);
     scale := over (p_scale ch) (scale s);
     rotation := over (p_rotation ch) (rotation s) |}.
End Sticker.

(** The double-quote character that occurs inside the CSS font-family
    literals of the sources. *)
Definition dq : string := String (ascii_of_nat 34) EmptyString.

Local Open Scope string_scope.

Definition font_YaHei : string := dq ++ "Microsoft YaHei" ++ dq ++ ", sans-serif".
Definition font_NotoSans : string := dq ++ "Noto Sans SC" ++ dq ++ ", sans-serif".
Definition font_NotoSerif : string := dq ++ "Noto Serif SC" ++ dq ++ ", serif".
Definition font_MaShanZheng : string := dq ++ "Ma Shan Zheng" ++ dq ++ ", cursive".
Definition font_ZCOOL : string := dq ++ "ZCOOL QingKe HuangYou" ++ dq ++ ", sans-serif".

(** [FONT_OPTIONS]: the [value] fields, in order. *)
Definition FONT_OPTIONS : list string :=
  [font_YaHei; font_NotoSans; font_NotoSerif; font_MaShanZheng; font_ZCOOL].

(** JavaScript truthiness of an optional string: [undefined] and the
    empty string are falsy. *)
Definition truthy (o : option string) : bool :=
  match o with
  | None => false
  | Some s => negb (s =? "")
  end.

(** [o || d] on an optional string. *)
Definition or_else (o : option string) (d : string) : string :=
  match o with
  | Some s => if s =? "" then d else s
  | None => d
  end.

(** [s.includes(t)]: [t] occurs in [s] as a contiguous substring. *)
Fixpoint includes (s t : string) : bool :=
  String.prefix t s ||
  match s with
  | EmptyString => false
  | String _ s' => includes s' t
  end.

Local Close Scope string_scope.

(** ** components/ImageCropper.tsx *)

Module ImageCropper.

Definition RATIO_MULTIPLIERS (a : AspectRatio) : number :=
  match a with
  | VERTICAL => 3 / 4
  | SQUARE => 1 / 1
  | PORTRAIT => 9 / 16
  | LANDSCAPE => 16 / 9
  end.

Record Point := mkPoint { px : number; py : number }.
Record ImageDimensions :=
  mkImageDimensions { iwidth : number; iheight : number; loaded : bool }.
Record Size := mkSize { width : number; height : number }.

(** The component state: one field per [useState]. *)
Record State := mkState {
  scale : number;
  position : Point;
  isDragging : bool;
  dragStart : Point;
  imageDimensions : ImageDimensions;
  containerDimensions : Size
}.

Definition initial : State :=
  {| scale := 1;
     position := mkPoint 0 0;
     isDragging := false;
     dragStart := mkPoint 0 0;
     imageDimensions := mkImageDimensions 0 0 false;
     containerDimensions := mkSize 0 0 |}.

(** The reset effect, run when [imageUrl] or [aspectRatio] changes:
    [setPosition({x: 0, y: 0}); setScale(1)]. *)
Definition reset (st : State) : State :=
  {| scale := 1;
     position := mkPoint 0 0;
     isDragging := isDragging st;
     dragStart := dragStart st;
     imageDimensions := imageDimensions st;
     containerDimensions := containerDimensions st |}.

(** [updateSize], with the bounding rectangle of the container. *)
Definition updateSize (w h : number) (st : State) : State :=
  {| scale := scale st;
     position := position st;
     isDragging := isDragging st;
     dragStart := dragStart st;
     imageDimensions := imageDimensions st;
     containerDimensions := mkSize w h |}.

Definition onImageLoad (naturalWidth naturalHeight : number) (st : State) : State :=
  {| scale := scale st;
     position := position st;
     isDragging := isDragging st;
     dragStart := dragStart st;
     imageDimensions := mkImageDimensions naturalWidth naturalHeight true;
     containerDimensions := containerDimensions st |}.

Definition handlePointerDown (clientX clientY : number) (st : State) : State :=
  {| scale := scale st;
     position := position st;
     isDragging := true;
     dragStart := mkPoint (clientX - px (position st)) (clientY - py (position st));
     imageDimensions := imageDimensions st;
     containerDimensions := containerDimensions st |}.

Definition handlePointerMove (clientX clientY : number) (st : State) : State :=
  if negb (isDragging st) then st
  else
    {| scale := scale st;
       position := mkPoint (clientX - px (dragStart st)) (clientY - py (dragStart st));
       isDragging := isDragging st;
       dragStart := dragStart st;
       imageDimensions := imageDimensions st;
       containerDimensions := containerDimensions st |}.

Definition handlePointerUp (st : State) : State :=
  {| scale := scale st;
     position := position st;
     isDragging := false;
     dragStart := dragStart st;
     imageDimensions := imageDimensions st;
     containerDimensions := containerDimensions st |}.

(** [setScale(parseFloat(e.target.value))] *)
Definition setScale (v : number) (st : State) : State :=
  {| scale := v;
     position := position st;
     isDragging := isDragging st;
     dragStart := dragStart st;
     imageDimensions := imageDimensions st;
     containerDimensions := containerDimensions st |}.

(** The zoom control is [<input type=range min=0.5 max=3 step=0.01>]:
    the values its change event can carry. *)
Definition slider_min : number := 5 # 10.
Definition slider_max : number := 3.
Definition slider_value (v : number) : bool :=
  Qle_bool slider_min v && Qle_bool v slider_max.

Definition isImageWider (st : State) : bool :=
  if negb (loaded (imageDimensions st))
     || Qeq_bool (height (containerDimensions st)) 0
  then true
  else
    let imgRatio := iwidth (imageDimensions st) / iheight (imageDimensions st) in
    let contRatio := width (containerDimensions st) / height (containerDimensions st) in
    Qgtb imgRatio contRatio.

(** *** handleSave *)

(** Step 2, the base rendered size [(rw, rh)]. *)
Definition baseRenderedSize (cw ch nw nh : number) : number * number :=
  let imgRatio := nw / nh in
  let containerRatio := cw / ch in
  if Qgtb imgRatio containerRatio
  then (ch * imgRatio, ch)
  else (cw, cw / imgRatio).

(** Step 3, the closure [mapDomToSource] with the variables it captures. *)
Definition mapDomToSource (cw ch nw nh : number) (position : Point) (scale : number)
           (dx dy : number) : Point :=
  let rw := fst (baseRenderedSize cw ch nw nh) in
  let cx_dom := cw / 2 in
  let cy_dom := ch / 2 in
  let vx := dx - (cx_dom + px position) in
  let vy := dy - (cy_dom + py position) in
  let vx_unscaled := vx / scale in
  let vy_unscaled := vy / scale in
  let scaleX := nw / rw in
  let sx_offset := vx_unscaled * scaleX in
  let sy_offset := vy_unscaled * scaleX in
  mkPoint (nw / 2 + sx_offset) (nh / 2 + sy_offset).

(** What [handleSave] hands to the canvas: the source rectangle of
    [drawImage] and the output size. *)
Record SaveResult := mkSaveResult {
  src_x : number; src_y : number; src_w : number; src_h : number;
  outputWidth : number; outputHeight : number
}.

(** [refs] is false when one of the canvas, container, image refs or the
    2d context is missing; [(cw, ch)] is the bounding rectangle of the
    container read at save time. *)
Definition handleSave (refs : bool) (aspectRatio : AspectRatio)
           (cw ch : number) (st : State) : option SaveResult :=
  if negb refs || negb (loaded (imageDimensions st)) then None
  else
    let nw := iwidth (imageDimensions st) in
    let nh := iheight (imageDimensions st) in
    let topLeft := mapDomToSource cw ch nw nh (position st) (scale st) 0 0 in
    let bottomRight := mapDomToSource cw ch nw nh (position st) (scale st) cw ch in
    let targetRatio := RATIO_MULTIPLIERS aspectRatio in
    let outputWidth := 1080 in
    let outputHeight := outputWidth / targetRatio in
    Some {| src_x := px topLeft;
            src_y := py topLeft;
            src_w := px bottomRight - px topLeft;
            src_h := py bottomRight - py topLeft;
            outputWidth := outputWidth;
            outputHeight := outputHeight |}.

(** *** The cropper as a transition system *)

Inductive Event :=
| EvReset
| EvResize (w h : number)
| EvImageLoad (naturalWidth naturalHeight : number)
| EvPointerDown (clientX clientY : number)
| EvPointerMove (clientX clientY : number)
| EvPointerUp
| EvSlider (v : number).

(** Events the DOM can deliver: the slider only reports values of its
    range; a decoded image has positive natural dimensions. *)
Definition deliverable (e : Event) : bool :=
  match e with
  | EvSlider v => slider_value v
  | EvImageLoad nw nh => Qgtb nw 0 && Qgtb nh 0
  | _ => true
  end.

Definition step (st : State) (e : Event) : State :=
  match e with
  | EvReset => reset st
  | EvResize w h => updateSize w h st
  | EvImageLoad nw nh => onImageLoad nw nh st
  | EvPointerDown cx cy => handlePointerDown cx cy st
  | EvPointerMove cx cy => handlePointerMove cx cy st
  | EvPointerUp => handlePointerUp st
  | EvSlider v => setScale v st
  end.

Definition run (es : list Event) : State := fold_left step es initial.

Inductive reachable : State -> Prop :=
| reach_initial : reachable initial
| reach_step st e :
    reachable st -> deliverable e = true -> reachable (step st e).

(** The crop window shows no gap when the source rectangle of the save
    lies inside the natural bounds of the image. *)
Definition covers (r : SaveResult) (nw nh : number) : Prop :=
  0 <= src_x r /\ 0 <= src_y r /\
  src_x r + src_w r <= nw /\ src_y r + src_h r <= nh.

Definition coversb (r : SaveResult) (nw nh : number) : bool :=
  Qle_bool 0 (src_x r) && Qle_bool 0 (src_y r) &&
  Qle_bool (src_x r + src_w r) nw && Qle_bool (src_y r + src_h r) nh.

End ImageCropper.

(** ** The 2d canvas the compositor draws on *)

Module Canvas2D.

(** [fillStyle] and [strokeStyle]: a CSS colour or a gradient object. *)
Inductive Style :=
| Color (c : string)
| LinearGradient (x0 y0 x1 y1 : number) (stops : list (number * string)).

(** The [font] shorthand the sources assign: an optional weight, a size
    in pixels and a family list. *)
Record Font := mkFont {
  weight : option string;
  size : number;
  family : string
}.

(** [rotate] is always called with [deg * Math.PI / 180]; the angle is
    kept in degrees. *)
Inductive Transform :=
| Translate (x y : number)
| Scale (x y : number)
| RotateDeg (deg : number).

Inductive PathSeg :=
| MoveTo (x y : number)
| LineTo (x y : number)
| QuadraticCurveTo (cpx cpy x y : number)
| ClosePath.

(** The drawing state that [save] pushes and [restore] pops. *)
Record DrawState := mkDrawState {
  fillStyle : Style;
  strokeStyle : Style;
  font : Font;
  textAlign : string;
  textBaseline : string;
  lineJoin : string;
  miterLimit : number;
  lineWidth : number;
  filter : string;
  imageSmoothingEnabled : bool;
  transform : list Transform
}.

(** The state of a context right after its canvas is created or
    resized. *)
Definition default_state : DrawState :=
  {| fillStyle := Color "#000000";
     strokeStyle := Color "#000000";
     font := mkFont None 10 "sans-serif";
     textAlign := "start";
     textBaseline := "alphabetic";
     lineJoin := "miter";
     miterLimit := 10;
     lineWidth := 1;
     filter := "none";
     imageSmoothingEnabled := true;
     transform := [] |}.

(** What has been painted, oldest first; each operation records the
    drawing state it was issued under. *)
Inductive Paint :=
| DrawImage (src : string) (dx dy dw dh : number) (s : DrawState)
| FillRect (x y w h : number) (s : DrawState)
| Fill (path : list PathSeg) (s : DrawState)
| StrokeText (t : string) (x y : number) (s : DrawState)
| FillText (t : string) (x y : number) (s : DrawState).

Record Canvas := mkCanvas {
  width : number;
  height : number;
  state : DrawState;
  path : list PathSeg;
  saved : list DrawState;
  painted : list Paint
}.

(** Assigning [canvas.width] and [canvas.height] clears the bitmap and
    resets the context. *)
Definition resize (w h : number) (c : Canvas) : Canvas :=
  {| width := w; height := h; state := default_state;
     path := []; saved := []; painted := [] |}.

(** A state monad over the canvas for the drawing code. *)
Definition M (A : Type) : Type := Canvas -> A * Canvas.

Definition ret {A} (a : A) : M A := fun c => (a, c).

Definition bind {A B} (m : M A) (k : A -> M B) : M B :=
  fun c => let (a, c') := m c in k a c'.

Definition exec {A} (m : M A) (c : Canvas) : Canvas := snd (m c).

Definition modify (f : DrawState -> DrawState) : M unit :=
  fun c => (tt, {| width := width c; height := height c; state := f (state c);
                   path := path c; saved := saved c; painted := painted c |}).

Definition paint (p : DrawState -> Paint) : M unit :=
  fun c => (tt, {| width := width c; height := height c; state := state c;
                   path := path c; saved := saved c;
                   painted := painted c ++ [p (state c)] |}).

Definition with_path (f : list PathSeg -> list PathSeg) : M unit :=
  fun c => (tt, {| width := width c; height := height c; state := state c;
                   path := f (path c); saved := saved c; painted := painted c |}).

Definition save : M unit :=
  fun c => (tt, {| width := width c; height := height c; state := state c;
                   path := path c; saved := state c :: saved c;
                   painted := painted c |}).

Definition restore : M unit :=
  fun c =>
    match saved c with
    | [] => (tt, c)
    | s :: rest =>
        (tt, {| width := width c; height := height c; state := s;
                path := path c; saved := rest; painted := painted c |})
    end.

Definition with_fillStyle (v : Style) (s : DrawState) : DrawState :=
  mkDrawState v (strokeStyle s) (font s) (textAlign s)
              (textBaseline s) (lineJoin s) (miterLimit s) (lineWidth s)
              (filter s) (imageSmoothingEnabled s) (transform s).

Definition set_fillStyle (v : Style) : M unit := modify (with_fillStyle v).

Definition with_strokeStyle (v : Style) (s : DrawState) : DrawState :=
  mkDrawState (fillStyle s) v (font s) (textAlign s)
              (textBaseline s) (lineJoin s) (miterLimit s) (lineWidth s)
              (filter s) (imageSmoothingEnabled s) (transform s).

Definition set_strokeStyle (v : Style) : M unit := modify (with_strokeStyle v).

Definition with_font (v : Font) (s : DrawState) : DrawState :=
  mkDrawState (fillStyle s) (strokeStyle s) v (textAlign s)
              (textBaseline s) (lineJoin s) (miterLimit s) (lineWidth s)
              (filter s) (imageSmoothingEnabled s) (transform s).

Definition set_font (v : Font) : M unit := modify (with_font v).

Definition with_textAlign (v : string) (s : DrawState) : DrawState :=
  mkDrawState (fillStyle s) (strokeStyle s) (font s) v
              (textBaseline s) (lineJoin s) (miterLimit s) (lineWidth s)
              (filter s) (imageSmoothingEnabled s) (transform s).

Definition set_textAlign (v : string) : M unit := modify (with_textAlign v).

Definition with_textBaseline (v : string) (s : DrawState) : DrawState :=
  mkDrawState (fillStyle s) (strokeStyle s) (font s) (textAlign s)
              v (lineJoin s) (miterLimit s) (lineWidth s)
              (filter s) (imageSmoothingEnabled s) (transform s).

Definition set_textBaseline (v : string) : M unit := modify (with_textBaseline v).

Definition with_lineJoin (v : string) (s : DrawState) : DrawState :=
  mkDrawState (fillStyle s) (strokeStyle s) (font s) (textAlign s)
              (textBaseline s) v (miterLimit s) (lineWidth s)
              (filter s) (imageSmoothingEnabled s) (transform s).

Definition set_lineJoin (v : string) : M unit := modify (with_lineJoin v).

Definition with_miterLimit (v : number) (s : DrawState) : DrawState :=
  mkDrawState (fillStyle s) (strokeStyle s) (font s) (textAlign s)
              (textBaseline s) (lineJoin s) v (lineWidth s)
              (filter s) (imageSmoothingEnabled s) (transform s).

Definition set_miterLimit (v : number) : M unit := modify (with_miterLimit v).

Definition with_lineWidth (v : number) (s : DrawState) : DrawState :=
  mkDrawState (fillStyle s) (strokeStyle s) (font s) (textAlign s)
              (textBaseline s) (lineJoin s) (miterLimit s) v
              (filter s) (imageSmoothingEnabled s) (transform s).

Definition set_lineWidth (v : number) : M unit := modify (with_lineWidth v).

Definition with_filter (v : string) (s : DrawState) : DrawState :=
  mkDrawState (fillStyle s) (strokeStyle s) (font s) (textAlign s)
              (textBaseline s) (lineJoin s) (miterLimit s) (lineWidth s)
              v (imageSmoothingEnabled s) (transform s).

Definition set_filter (v : string) : M unit := modify (with_filter v).

Definition with_transform (ts : list Transform) (s : DrawState) : DrawState :=
  mkDrawState (fillStyle s) (strokeStyle s) (font s) (textAlign s)
              (textBaseline s) (lineJoin s) (miterLimit s) (lineWidth s)
              (filter s) (imageSmoothingEnabled s) (transform s ++ ts).

Definition push_transform (t : Transform) : M unit := modify (with_transform [t]).

Definition translate (x y : number) : M unit := push_transform (Translate x y).
Definition scale (x y : number) : M unit := push_transform (Scale x y).
Definition rotateDeg (deg : number) : M unit := push_transform (RotateDeg deg).

Definition drawImage (src : string) (dx dy dw dh : number) : M unit :=
  paint (DrawImage src dx dy dw dh).
Definition fillRect (x y w h : number) : M unit := paint (FillRect x y w h).
Definition strokeText (t : string) (x y : number) : M unit := paint (StrokeText t x y).
Definition fillText (t : string) (x y : number) : M unit := paint (FillText t x y).

Definition beginPath : M unit := with_path (fun _ => []).
Definition moveTo (x y : number) : M unit := with_path (fun p => p ++ [MoveTo x y]).
Definition lineTo (x y : number) : M unit := with_path (fun p => p ++ [LineTo x y]).
Definition quadraticCurveTo (cpx cpy x y : number) : M unit :=
  with_path (fun p => p ++ [QuadraticCurveTo cpx cpy x y]).
Definition closePath : M unit := with_path (fun p => p ++ [ClosePath]).
Definition fill : M unit := fun c => paint (Fill (path c)) c.

Definition get_font : M Font := fun c => (font (state c), c).

(** [arr.forEach(f)] *)
Fixpoint forEach {A} (l : list A) (f : A -> M unit) : M unit :=
  match l with
  | [] => ret tt
  | a :: rest => bind (f a) (fun _ => forEach rest f)
  end.

Definition when (b : bool) (m : M unit) : M unit := if b then m else ret tt.

(** The name of the call behind a paint, and the fill styles of the
    filled paths, for reading a painted list. *)
Definition call (p : Paint) : string :=
  match p with
  | DrawImage _ _ _ _ _ _ => "drawImage"
  | FillRect _ _ _ _ _ => "fillRect"
  | Fill _ _ => "fill"
  | StrokeText _ _ _ _ => "strokeText"
  | FillText _ _ _ _ => "fillText"
  end.

Fixpoint fills (ps : list Paint) : list Style :=
  match ps with
  | [] => []
  | Fill _ s :: rest => fillStyle s :: fills rest
  | _ :: rest => fills rest
  end.

(** The canvas with more painted on it and nothing else changed. *)
Definition add_paints (ps : list Paint) (c : Canvas) : Canvas :=
  mkCanvas (width c) (height c) (state c) (path c) (saved c) (painted c ++ ps).

(** A computation that leaves the size of the canvas as it is. *)
Definition keeps_size {A} (m : M A) : Prop :=
  forall c, width (snd (m c)) = width c /\ height (snd (m c)) = height c.

End Canvas2D.

Declare Scope canvas_scope.
Delimit Scope canvas_scope with canvas.
Notation "x <- m ;; k" := (Canvas2D.bind m (fun x => k))
  (at level 61, m at next level, right associativity) : canvas_scope.
Notation "m ;; k" := (Canvas2D.bind m (fun _ => k))
  (at level 61, right associativity) : canvas_scope.

(** ** components/CoverCanvas.tsx *)

Module CoverCanvas.

Module C := Canvas2D.
Local Open Scope canvas_scope.
Local Open Scope string_scope.
Local Open Scope Q_scope.

Record Props := mkProps {
  imageBase64 : string;
  title : string;
  layoutConfig : option LayoutConfig.t;
  width : number;
  height : number;
  stickers : option (list Sticker.t);
  filter : option string
}.

Definition FontStyle_eqb (a b : FontStyle) : bool :=
  match a, b with
  | fs_bold, fs_bold | fs_serif, fs_serif
  | fs_handwritten, fs_handwritten | fs_modern, fs_modern => true
  | _, _ => false
  end.

Definition Position_eqb (a b : Position) : bool :=
  match a, b with
  | pos_top, pos_top | pos_bottom, pos_bottom
  | pos_center, pos_center | pos_split, pos_split => true
  | _, _ => false
  end.

Definition is_undefined {A} (o : option A) : bool :=
  match o with None => true | Some _ => false end.

Section Platform.

(** [ctx.measureText(t).width] under the font in force: text shaping
    belongs to the browser. *)
Variable text_width : C.Font -> string -> number.

(** The PNG encoder behind [toDataURL] and [toBlob]: a function of
    the bitmap, that is of its size and of what was painted. *)
Variable encodePNG : number -> number -> list C.Paint -> string.

Definition measureText (t : string) : C.M number :=
  f <- C.get_font ;; C.ret (text_width f t).

Definition roundRect (x y width height radius : number) : C.M unit :=
  C.beginPath ;;
  C.moveTo (x + radius) y ;;
  C.lineTo (x + width - radius) y ;;
  C.quadraticCurveTo (x + width) y (x + width) (y + radius) ;;
  C.lineTo (x + width) (y + height - radius) ;;
  C.quadraticCurveTo (x + width) (y + height) (x + width - radius) (y + height) ;;
  C.lineTo (x + radius) (y + height) ;;
  C.quadraticCurveTo x (y + height) x (y + height - radius) ;;
  C.lineTo x (y + radius) ;;
  C.quadraticCurveTo x y (x + radius) y ;;
  C.closePath.

(** *** The values [drawLayoutText] computes before it draws *)

Definition baseSize (config : LayoutConfig.t) (width height : number) : number :=
  let scale := match LayoutConfig.scale config with Some s => s | None => 1 end in
  let minDim := Qmin width height in
  minDim * 0.13 * scale.

Definition subtitleSize (config : LayoutConfig.t) (width height : number) : number :=
  baseSize config width height * 0.45.

(** [(fontName, fontWeight)] after the font settings are determined. *)
Definition fontSettings (config : LayoutConfig.t) : string * string :=
  let fontFamily := LayoutConfig.fontFamily config in
  let fontStyle := LayoutConfig.fontStyle config in
  let fontName := or_else fontFamily font_YaHei in
  if includes fontName "Ma Shan Zheng" || includes fontName "ZCOOL"
  then (fontName, "normal")
  else if FontStyle_eqb fontStyle fs_serif && negb (truthy fontFamily)
  then (font_NotoSerif, "bold")
  else if FontStyle_eqb fontStyle fs_modern && negb (truthy fontFamily)
  then (font_NotoSans, "700")
  else (fontName, "900").

Definition titlePosition (config : LayoutConfig.t) (width height : number)
  : number * number :=
  match LayoutConfig.x config, LayoutConfig.y config with
  | Some x, Some y => ((x / 100) * width, (y / 100) * height)
  | _, _ =>
      let safeAreaTop := height * 0.15 in
      let safeAreaBottom := height * 0.15 in
      let baseSize := baseSize config width height in
      (width / 2,
       match LayoutConfig.position config with
       | pos_top => safeAreaTop + baseSize / 2
       | pos_bottom => height - safeAreaBottom - baseSize * 0.8
       | pos_split => height * 0.15
       | pos_center => height / 2
       end)
  end.

Definition subtitlePosition (config : LayoutConfig.t) (width height : number)
  : number * number :=
  let '(titleX, titleY) := titlePosition config width height in
  match LayoutConfig.subtitleX config, LayoutConfig.subtitleY config with
  | Some subtitleX, Some subtitleY =>
      ((subtitleX / 100) * width, (subtitleY / 100) * height)
  | _, _ =>
      if Position_eqb (LayoutConfig.position config) pos_split
         && is_undefined (LayoutConfig.x config)
      then (titleX, height * 0.85)
      else (titleX, titleY + baseSize config width height * 1.2)
  end.

Definition subBgFinal (config : LayoutConfig.t) : string :=
  or_else (LayoutConfig.subtitleBackgroundColor config)
          (if LayoutConfig.textColor config =? "#FFFFFF"
           then LayoutConfig.shadowColor config else "#FFFFFF").

Definition subTextFinal (config : LayoutConfig.t) : string :=
  or_else (LayoutConfig.subtitleTextColor config)
          (if LayoutConfig.textColor config =? "#FFFFFF"
           then "#FFFFFF" else LayoutConfig.shadowColor config).

(** *** drawLayoutText *)

Definition drawTitle (config : LayoutConfig.t) (title : string)
           (width height : number) : C.M unit :=
  let baseSize := baseSize config width height in
  let '(fontName, fontWeight) := fontSettings config in
  let '(titleX, titleY) := titlePosition config width height in
  C.set_textAlign "center" ;;
  C.set_textBaseline "middle" ;;
  C.set_font (C.mkFont (Some fontWeight) baseSize fontName) ;;
  titleMetrics <- measureText title ;;
  C.when (truthy (LayoutConfig.titleBackgroundColor config)
          && negb (or_else (LayoutConfig.titleBackgroundColor config) ""
                   =? "transparent")%string)
    (let paddingX := baseSize * 0.6 in
     let bgWidth := titleMetrics + paddingX * 2 in
     let bgHeight := baseSize * 1.6 in
     C.set_fillStyle (C.Color (or_else (LayoutConfig.titleBackgroundColor config) "")) ;;
     roundRect (titleX - bgWidth / 2) (titleY - bgHeight / 2) bgWidth bgHeight 16 ;;
     C.fill) ;;
  C.set_lineJoin "round" ;;
  C.set_miterLimit 2 ;;
  C.set_lineWidth (baseSize * 0.08) ;;
  C.set_strokeStyle (C.Color (LayoutConfig.shadowColor config)) ;;
  C.strokeText title titleX titleY ;;
  C.set_fillStyle (C.Color (LayoutConfig.textColor config)) ;;
  C.fillText title titleX titleY.

Definition drawSubtitle (config : LayoutConfig.t) (width height : number)
  : C.M unit :=
  let subtitle := LayoutConfig.subtitle config in
  let subtitleSize := subtitleSize config width height in
  let '(fontName, fontWeight) := fontSettings config in
  let '(subX, subY) := subtitlePosition config width height in
  C.set_font (C.mkFont (Some fontWeight) subtitleSize fontName) ;;
  subtitleMetrics <- measureText subtitle ;;
  let pillPadding := subtitleSize * 0.4 in
  let pillWidth := subtitleMetrics + pillPadding * 2 in
  let pillHeight := subtitleSize * 1.6 in
  C.set_fillStyle (C.Color "rgba(0,0,0,0.3)") ;;
  roundRect (subX - pillWidth / 2 + 4) (subY - pillHeight / 2 + 4)
            pillWidth pillHeight (pillHeight / 2) ;;
  C.fill ;;
  C.when (negb (subBgFinal config =? "transparent")%string)
    (C.set_fillStyle (C.Color (subBgFinal config)) ;;
     roundRect (subX - pillWidth / 2) (subY - pillHeight / 2)
               pillWidth pillHeight (pillHeight / 2) ;;
     C.fill) ;;
  C.set_fillStyle (C.Color (subTextFinal config)) ;;
  C.fillText subtitle subX subY.

Definition drawLayoutText (config : LayoutConfig.t) (title : string)
           (width height : number) : C.M unit :=
  drawTitle config title width height ;;
  drawSubtitle config width height.

(** The path a call of [roundRect] leaves in the context. *)
Definition roundRectPath (x y width height radius : number) : list C.PathSeg :=
  [C.MoveTo (x + radius) y;
   C.LineTo (x + width - radius) y;
   C.QuadraticCurveTo (x + width) y (x + width) (y + radius);
   C.LineTo (x + width) (y + height - radius);
   C.QuadraticCurveTo (x + width) (y + height) (x + width - radius) (y + height);
   C.LineTo (x + radius) (y + height);
   C.QuadraticCurveTo x (y + height) x (y + height - radius);
   C.LineTo x (y + radius);
   C.QuadraticCurveTo x y (x + radius) y;
   C.ClosePath].

(** The font, the pill and the anchor of the subtitle, named as in
    [drawLayoutText]. *)
Definition subtitleFont (config : LayoutConfig.t) (width height : number) : C.Font :=
  C.mkFont (Some (snd (fontSettings config))) (subtitleSize config width height)
           (fst (fontSettings config)).

Definition pillWidth (config : LayoutConfig.t) (width height : number) : number :=
  text_width (subtitleFont config width height) (LayoutConfig.subtitle config)
  + subtitleSize config width height * 0.4 * 2.

Definition pillHeight (config : LayoutConfig.t) (width height : number) : number :=
  subtitleSize config width height * 1.6.

Definition subX (config : LayoutConfig.t) (width height : number) : number :=
  fst (subtitlePosition config width height).

Definition subY (config : LayoutConfig.t) (width height : number) : number :=
  snd (subtitlePosition config width height).

(** *** The render effect *)

Definition drawSticker (width height : number) (sticker : Sticker.t) : C.M unit :=
  C.save ;;
  let x := (Sticker.x sticker / 100) * width in
  let y := (Sticker.y sticker / 100) * height in
  C.translate x y ;;
  C.scale (Sticker.scale sticker) (Sticker.scale sticker) ;;
  C.rotateDeg (Sticker.rotation sticker) ;;
  C.when (match Sticker.type sticker with emoji => true | text => false end)
    (C.set_font (C.mkFont None (width * 0.15) "serif") ;;
     C.set_textAlign "center" ;;
     C.set_textBaseline "middle" ;;
     C.fillText (Sticker.content sticker) 0 0) ;;
  C.restore.

(** What one sticker adds to the bitmap, drawn from the state [base]. *)
Definition stickerPaints (width height : number) (base : C.DrawState)
           (sticker : Sticker.t) : list C.Paint :=
  match Sticker.type sticker with
  | emoji =>
      [C.FillText (Sticker.content sticker) 0 0
         (C.with_textBaseline "middle"
            (C.with_textAlign "center"
               (C.with_font (C.mkFont None (width * 0.15) "serif")
                  (C.with_transform
                     [C.Translate ((Sticker.x sticker / 100) * width)
                                         ((Sticker.y sticker / 100) * height);
                      C.Scale (Sticker.scale sticker) (Sticker.scale sticker);
                      C.RotateDeg (Sticker.rotation sticker)]
                     base))))]
  | text => []
  end.

(** The body of [img.onload]. *)
Definition onload (p : Props) : C.M unit :=
  let width := width p in
  let height := height p in
  let filter := match filter p with Some f => f | None => "none" end in
  let stickers := match stickers p with Some l => l | None => [] end in
  C.save ;;
  C.when (negb (filter =? "")%string && negb (filter =? "none")%string)
    (C.set_filter filter) ;;
  C.drawImage ("data:image/png;base64," ++ imageBase64 p) 0 0 width height ;;
  C.restore ;;
  let gradient :=
    C.LinearGradient 0 height 0 (height * 0.7)
      [(0, "rgba(0,0,0,0.1)"); (1, "rgba(0,0,0,0)")] in
  C.set_fillStyle gradient ;;
  C.fillRect 0 (height / 2) width (height / 2) ;;
  C.set_fillStyle (C.Color "rgba(0, 0, 0, 0.01)") ;;
  C.fillRect 0 0 width height ;;
  match layoutConfig p with
  | Some config => drawLayoutText config (title p) width height
  | None => C.ret tt
  end ;;
  C.forEach stickers (drawSticker width height).

(** *** The mounted component

    The effect does not draw: it sizes the canvas, which clears it, and
    starts loading the image; the drawing is done by the [onload]
    handler when the image has loaded. The effect returns no cleanup, so
    an image started by an earlier run of the effect still calls its
    handler, with the props of that run, whenever it has loaded. *)

(** The canvas element the ref points to ([None]: the ref is empty),
    whether [getContext('2d')] gives a context, and the props of the
    runs of the effect whose images have not loaded yet, oldest first. *)
Record Mounted := mkMounted {
  canvas : option C.Canvas;
  context2d : bool;
  loading : list Props
}.

Definition drop_nth {A} (i : nat) (l : list A) : list A :=
  (firstn i l ++ skipn (S i) l)%list.

(** One run of the effect with the props [p]. *)
Definition effect (p : Props) (m : Mounted) : Mounted :=
  match canvas m with
  | None => m
  | Some c =>
      if negb (context2d m) then m
      else mkMounted (Some (C.resize (width p) (height p) c)) (context2d m)
                     (loading m ++ [p])%list
  end.

(** The [i]-th of the images that are loading has loaded: its handler
    draws on the canvas as it is by now. *)
Definition load (i : nat) (m : Mounted) : Mounted :=
  match nth_error (loading m) i, canvas m with
  | Some p, Some c =>
      mkMounted (Some (C.exec (onload p) c)) (context2d m) (drop_nth i (loading m))
  | _, _ => m
  end.

(** The [i]-th of the images that are loading fails to load: no handler
    is set for that, and nothing is drawn. *)
Definition loadError (i : nat) (m : Mounted) : Mounted :=
  match nth_error (loading m) i with
  | Some _ => mkMounted (canvas m) (context2d m) (drop_nth i (loading m))
  | None => m
  end.

Inductive Event :=
| Effect (p : Props)
| Load (i : nat)
| LoadError (i : nat).

Definition step (m : Mounted) (e : Event) : Mounted :=
  match e with
  | Effect p => effect p m
  | Load i => load i m
  | LoadError i => loadError i m
  end.

Definition run (es : list Event) (m : Mounted) : Mounted := fold_left step es m.

(** An undisturbed render: one run of the effect on the canvas the ref
    points to, with a context and with nothing loading, followed by the
    load of its image, with no other run of the effect and no other load
    in between. *)
Definition render (p : Props) (canvasRef : option C.Canvas) : option C.Canvas :=
  canvas (run [Effect p; Load 0] (mkMounted canvasRef true [])).

(** [getCanvasImage], the export read by download and by the
    animation request. *)
Definition getCanvasImage (canvasRef : option C.Canvas) : string :=
  match canvasRef with
  | Some canvas => encodePNG (C.width canvas) (C.height canvas) (C.painted canvas)
  | None => ""
  end.

End Platform.

End CoverCanvas.

(** A pointer event, as far as the handlers read it. *)
Record PointerEvent := mkPointerEvent { clientX : number; clientY : number }.

(** [getBoundingClientRect()] of a container, as far as it is read. *)
Record DOMRect := mkDOMRect { rect_width : number; rect_height : number }.

(** ** components/StickerOverlay.tsx *)

Module StickerOverlay.

Record Drag := mkDrag {
  id : string;
  startX : number;
  startY : number;
  initX : number;
  initY : number
}.

(** [dragRef.current] *)
Definition DragRef := option Drag.

(** A call of one of the two callbacks the component receives. *)
Inductive Call :=
| onUpdateSticker (id : string) (changes : Sticker.partial)
| onRemoveSticker (id : string).

Definition position_changes (x y : number) : Sticker.partial :=
  Sticker.mkPartial None None None (Some x) (Some y) None None.

Definition scale_changes (s : number) : Sticker.partial :=
  Sticker.mkPartial None None None None None (Some s) None.

Definition handlePointerDown (e : PointerEvent) (sticker : Sticker.t) : DragRef :=
  Some {| id := Sticker.id sticker;
          startX := clientX e;
          startY := clientY e;
          initX := Sticker.x sticker;
          initY := Sticker.y sticker |}.

(** [containerRef] is [None] when the container is not mounted. The
    handler leaves [dragRef] as it is and may call [onUpdateSticker]. *)
Definition handlePointerMove (dragRef : DragRef) (containerRef : option DOMRect)
           (e : PointerEvent) : option Call :=
  match dragRef, containerRef with
  | Some d, Some rect =>
      let deltaXPixels := clientX e - startX d in
      let deltaYPixels := clientY e - startY d in
      let deltaXPercent := (deltaXPixels / rect_width rect) * 100 in
      let deltaYPercent := (deltaYPixels / rect_height rect) * 100 in
      Some (onUpdateSticker (id d)
              (position_changes (initX d + deltaXPercent) (initY d + deltaYPercent)))
  | _, _ => None
  end.

Definition handlePointerUp (dragRef : DragRef) : DragRef := None.

(** The two scale buttons of a sticker. *)
Definition minusButton (sticker : Sticker.t) : Call :=
  onUpdateSticker (Sticker.id sticker)
    (scale_changes (Qmax 0.2 (Sticker.scale sticker - 0.1))).

Definition plusButton (sticker : Sticker.t) : Call :=
  onUpdateSticker (Sticker.id sticker)
    (scale_changes (Qmin 5 (Sticker.scale sticker + 0.1))).

Definition deleteButton (sticker : Sticker.t) : Call :=
  onRemoveSticker (Sticker.id sticker).

End StickerOverlay.

(** ** components/LayoutEditorOverlay.tsx *)

Module LayoutEditorOverlay.

Inductive DragType := title | subtitle.

Record Drag := mkDrag {
  type : DragType;
  startX : number;
  startY : number;
  initX : number;
  initY : number
}.

Definition DragRef := option Drag.

Definition nullish {A} (o : option A) (d : A) : A :=
  match o with Some v => v | None => d end.

Definition titleX (layoutConfig : LayoutConfig.t) : number :=
  nullish (LayoutConfig.x layoutConfig) 50.
Definition titleY (layoutConfig : LayoutConfig.t) : number :=
  nullish (LayoutConfig.y layoutConfig) 50.
Definition titleScale (layoutConfig : LayoutConfig.t) : number :=
  nullish (LayoutConfig.scale layoutConfig) 1.
Definition subX (layoutConfig : LayoutConfig.t) : number :=
  nullish (LayoutConfig.subtitleX layoutConfig) (titleX layoutConfig).
Definition subY (layoutConfig : LayoutConfig.t) : number :=
  nullish (LayoutConfig.subtitleY layoutConfig) (titleY layoutConfig + 15).

Definition handlePointerDown (layoutConfig : LayoutConfig.t) (e : PointerEvent)
           (type : DragType) : DragRef :=
  let initX := match type with title => titleX layoutConfig | subtitle => subX layoutConfig end in
  let initY := match type with title => titleY layoutConfig | subtitle => subY layoutConfig end in
  Some {| type := type;
          startX := clientX e;
          startY := clientY e;
          initX := initX;
          initY := initY |}.

Definition title_changes (x y : number) : LayoutConfig.partial :=
  LayoutConfig.mkPartial None None None None None None (Some x) (Some y)
                         None None None None None None None None.

Definition subtitle_changes (x y : number) : LayoutConfig.partial :=
  LayoutConfig.mkPartial None None None None None None None None
                         (Some x) (Some y) None None None None None None.

(** The handler may call [onUpdateLayout]; the result is the argument
    of that call. *)
Definition handlePointerMove (dragRef : DragRef) (containerRef : option DOMRect)
           (e : PointerEvent) : option LayoutConfig.partial :=
  match dragRef, containerRef with
  | Some d, Some rect =>
      let deltaXPixels := clientX e - startX d in
      let deltaYPixels := clientY e - startY d in
      let deltaXPercent := (deltaXPixels / rect_width rect) * 100 in
      let deltaYPercent := (deltaYPixels / rect_height rect) * 100 in
      match type d with
      | title =>
          Some (title_changes (initX d + deltaXPercent) (initY d + deltaYPercent))
      | subtitle =>
          Some (subtitle_changes (initX d + deltaXPercent) (initY d + deltaYPercent))
      end
  | _, _ => None
  end.

Definition handlePointerUp (dragRef : DragRef) : DragRef := None.

End LayoutEditorOverlay.

(** ** The AI Studio host page *)

Module AIStudio.

(** How an awaited call to the host page or to the client library ends:
    it resolves with a value, or it rejects (throws) an error whose
    [message] may be missing. *)
Inductive Call (A : Type) :=
| Resolves (a : A)
| Rejects (message : option string).

Arguments Resolves {A} a.
Arguments Rejects {A} message.

(** [window.aistudio], when the page runs inside the host. A service
    calls [openSelectKey] from [ensureApiKey] and once more from its
    [catch] block; the two calls may end differently. *)
Record t := mk {
  hasSelectedApiKey : Call bool;
  openSelectKey : Call unit;
  openSelectKeyAgain : Call unit
}.

End AIStudio.

(** ** services/layoutService.ts *)

Module LayoutService.

Local Open Scope string_scope.

(** The object the layout model answers with, after [JSON.parse]. *)
Record Json := mkJson {
  j_subtitle : string;
  j_textColor : string;
  j_shadowColor : string;
  j_position : Position;
  j_fontStyle : FontStyle;
  j_titleBackgroundColor : option string;
  j_veoPrompt : string
}.

(** What happens inside the [try] block: the request and the parse
    succeed, or something is thrown; [message] is [error.message]. *)
Inductive Outcome :=
| Answered (json : Json)
| Thrown (message : option string).

(** The page the service runs in: [window.aistudio], if it exists, and
    how the constructor call [new GoogleGenAI] of [getClient] ends. *)
Record Host := mkHost {
  aistudio : option AIStudio.t;
  client : AIStudio.Call unit
}.

Inductive Effect := openSelectKey | consoleError.

(** The call returns a config or rejects with an error. *)
Inductive Result :=
| Returned (config : LayoutConfig.t)
| Threw (message : option string).

(** [ensureApiKey]: the calls it makes and, if one of them rejects, the
    error it rejects with. *)
Definition ensureApiKey (h : Host) : list Effect * option (option string) :=
  match aistudio h with
  | None => ([], None)
  | Some studio =>
      match AIStudio.hasSelectedApiKey studio with
      | AIStudio.Rejects e => ([], Some e)
      | AIStudio.Resolves hasKey =>
          if negb hasKey
          then
            match AIStudio.openSelectKey studio with
            | AIStudio.Resolves _ => ([openSelectKey], None)
            | AIStudio.Rejects e => ([openSelectKey], Some e)
            end
          else ([], None)
      end
  end.

Definition fontFamilyOf (fontStyle : FontStyle) : string :=
  match fontStyle with
  | fs_serif => font_NotoSerif
  | fs_handwritten => font_MaShanZheng
  | fs_bold => font_ZCOOL
  | fs_modern => font_NotoSans
  end.

(** [{ ...json, fontFamily }] *)
Definition withFontFamily (json : Json) : LayoutConfig.t :=
  {| LayoutConfig.subtitle := j_subtitle json;
     LayoutConfig.textColor := j_textColor json;
     LayoutConfig.shadowColor := j_shadowColor json;
     LayoutConfig.fontStyle := j_fontStyle json;
     LayoutConfig.position := j_position json;
     LayoutConfig.veoPrompt := j_veoPrompt json;
     LayoutConfig.x := None;
     LayoutConfig.y := None;
     LayoutConfig.subtitleX := None;
     LayoutConfig.subtitleY := None;
     LayoutConfig.scale := None;
     LayoutConfig.titleBackgroundColor := j_titleBackgroundColor json;
     LayoutConfig.subtitleTextColor := None;
     LayoutConfig.subtitleBackgroundColor := None;
     LayoutConfig.filter := None;
     LayoutConfig.fontFamily := Some (fontFamilyOf (j_fontStyle json)) |}.

(** The test of the [catch] block for key-related errors. *)
Definition isApiKeyError (message : option string) : bool :=
  match message with
  | None => false
  | Some m =>
      negb (m =? "")
      && (includes m "Requested entity was not found"
          || includes m "API key not valid"
          || includes m "403")
  end.

Definition fallback : LayoutConfig.t :=
  {| LayoutConfig.subtitle := "爆款封面";
     LayoutConfig.textColor := "#FFFFFF";
     LayoutConfig.shadowColor := "#000000";
     LayoutConfig.fontStyle := fs_bold;
     LayoutConfig.position := pos_bottom;
     LayoutConfig.veoPrompt := "Cinematic slow motion, keep text static.";
     LayoutConfig.x := None;
     LayoutConfig.y := None;
     LayoutConfig.subtitleX := None;
     LayoutConfig.subtitleY := None;
     LayoutConfig.scale := None;
     LayoutConfig.titleBackgroundColor := None;
     LayoutConfig.subtitleTextColor := None;
     LayoutConfig.subtitleBackgroundColor := None;
     LayoutConfig.filter := None;
     LayoutConfig.fontFamily := Some font_YaHei |}.

Definition keyRequired : string := "API Key required. Please select a key.".

(** The [catch] block for an error with the given message. *)
Definition catchBlock (h : Host) (message : option string) : list Effect * Result :=
  if isApiKeyError message
  then
    match aistudio h with
    | Some studio =>
        ([consoleError; openSelectKey],
         match AIStudio.openSelectKeyAgain studio with
         | AIStudio.Resolves _ => Threw (Some keyRequired)
         | AIStudio.Rejects e => Threw e
         end)
    | None => ([consoleError], Returned fallback)
    end
  else ([consoleError], Returned fallback).

(** The effects performed, in order, and how the call ends.
    [ensureApiKey] and [getClient] run before the [try] block: what
    they throw is not caught. *)
Definition generateLayoutConfig (h : Host) (o : Outcome) : list Effect * Result :=
  match ensureApiKey h with
  | (pre, Some e) => (pre, Threw e)
  | (pre, None) =>
      match client h with
      | AIStudio.Rejects e => (pre, Threw e)
      | AIStudio.Resolves _ =>
          match o with
          | Answered json => (pre, Returned (withFontFamily json))
          | Thrown message =>
              let '(es, r) := catchBlock h message in ((pre ++ es)%list, r)
          end
      end
  end.

(** The six fields the response schema requires, as strings. *)
Definition requiredFields (c : LayoutConfig.t) : list string :=
  [LayoutConfig.subtitle c; LayoutConfig.textColor c; LayoutConfig.shadowColor c;
   Position_str (LayoutConfig.position c); FontStyle_str (LayoutConfig.fontStyle c);
   LayoutConfig.veoPrompt c].

End LayoutService.


(** ** App.tsx *)

Module App.

Local Open Scope string_scope.

Inductive Tab := template | text_tab.

(** The component state: one field per [useState]. *)
Record State := mkState {
  appState : AppState;
  rawImage : string;
  croppedImage : string;
  theme : string;
  stickers : list Sticker.t;
  activeFilter : string;
  aspectRatio : AspectRatio;
  layoutConfig : option LayoutConfig.t;
  statusMessage : string;
  videoUrl : string;
  activeTab : Tab
}.

Definition initial : State :=
  {| appState := IDLE; rawImage := ""; croppedImage := ""; theme := "";
     stickers := []; activeFilter := "none"; aspectRatio := VERTICAL;
     layoutConfig := None; statusMessage := ""; videoUrl := "";
     activeTab := template |}.

(** [RATIO_CONFIG]: the [(w, h)] of the preview canvas. *)
Definition RATIO_CONFIG (a : AspectRatio) : number * number :=
  match a with
  | VERTICAL => (750, 1000)
  | SQUARE => (1080, 1080)
  | PORTRAIT => (720, 1280)
  | LANDSCAPE => (1280, 720)
  end%Q.

(** What [handleGenerateLayout] stores for a config the service
    returned, with the filter active when the handler was called. *)
Definition seededLayout (config : LayoutConfig.t) (activeFilter : string)
  : LayoutConfig.t :=
  let '(initY, initSubY) :=
    match LayoutConfig.position config with
    | pos_top => (20, 30)
    | pos_bottom => (80, 90)
    | pos_split => (15, 85)
    | pos_center => (50, 65)
    end%Q in
  let white := LayoutConfig.textColor config =? "#FFFFFF" in
  {| LayoutConfig.subtitle := LayoutConfig.subtitle config;
     LayoutConfig.textColor := LayoutConfig.textColor config;
     LayoutConfig.shadowColor := LayoutConfig.shadowColor config;
     LayoutConfig.fontStyle := LayoutConfig.fontStyle config;
     LayoutConfig.position := LayoutConfig.position config;
     LayoutConfig.veoPrompt := LayoutConfig.veoPrompt config;
     LayoutConfig.x := Some 50%Q;
     LayoutConfig.y := Some initY;
     LayoutConfig.subtitleX := Some 50%Q;
     LayoutConfig.subtitleY := Some initSubY;
     LayoutConfig.scale := Some 1%Q;
     LayoutConfig.titleBackgroundColor :=
       Some (or_else (LayoutConfig.titleBackgroundColor config) "transparent");
     LayoutConfig.subtitleTextColor :=
       Some (if white then "#FFFFFF" else LayoutConfig.shadowColor config);
     LayoutConfig.subtitleBackgroundColor :=
       Some (if white then LayoutConfig.shadowColor config else "#FFFFFF");
     LayoutConfig.filter := Some activeFilter;
     LayoutConfig.fontFamily := LayoutConfig.fontFamily config |}.

(** [handleGenerateLayout] run from its call to its end with no other
    event handled in between; [service] is how the awaited call to
    [layoutService.generateLayoutConfig] ends. The transition system of
    the page below takes the handler in its two parts. *)
Definition handleGenerateLayout (service : LayoutService.Result) (st : State) : State :=
  if theme st =? "" then st
  else
    match service with
    | LayoutService.Returned config =>
        {| appState := PREVIEW;
           rawImage := rawImage st; croppedImage := croppedImage st;
           theme := theme st; stickers := stickers st;
           activeFilter := activeFilter st; aspectRatio := aspectRatio st;
           layoutConfig := Some (seededLayout config (activeFilter st));
           statusMessage := statusMessage st; videoUrl := videoUrl st;
           activeTab := template |}
    | LayoutService.Threw _ =>
        {| appState := ERROR;
           rawImage := rawImage st; croppedImage := croppedImage st;
           theme := theme st; stickers := stickers st;
           activeFilter := activeFilter st; aspectRatio := aspectRatio st;
           layoutConfig := layoutConfig st;
           statusMessage := "无法生成布局"; videoUrl := videoUrl st;
           activeTab := template |}
    end.

Definition handleUpdateLayout (changes : LayoutConfig.partial) (st : State) : State :=
  match layoutConfig st with
  | Some c =>
      {| appState := appState st;
         rawImage := rawImage st; croppedImage := croppedImage st;
         theme := theme st; stickers := stickers st;
         activeFilter := activeFilter st; aspectRatio := aspectRatio st;
         layoutConfig := Some (LayoutConfig.spread c changes);
         statusMessage := statusMessage st; videoUrl := videoUrl st;
         activeTab := activeTab st |}
  | None => st
  end.

Definition setStickers (f : list Sticker.t -> list Sticker.t) (st : State) : State :=
  {| appState := appState st;
     rawImage := rawImage st; croppedImage := croppedImage st;
     theme := theme st; stickers := f (stickers st);
     activeFilter := activeFilter st; aspectRatio := aspectRatio st;
     layoutConfig := layoutConfig st;
     statusMessage := statusMessage st; videoUrl := videoUrl st;
     activeTab := activeTab st |}.

(** [n.toString()] for an integer [n]: its decimal numeral. *)
Definition toString (n : Z) : string := NilZero.string_of_int (Z.to_int n).

Definition newSticker (content : string) (now : Z) : Sticker.t :=
  {| Sticker.id := toString now;
     Sticker.type := emoji;
     Sticker.content := content;
     Sticker.x := 50;
     Sticker.y := 50;
     Sticker.scale := 1;
     Sticker.rotation := 0 |}.

(** [handleAddSticker]; [now] is the value [Date.now()] returns. *)
Definition handleAddSticker (content : string) (now : Z) (st : State) : State :=
  let st' :=
    match appState st with
    | COMPLETED =>
        {| appState := PREVIEW;
           rawImage := rawImage st; croppedImage := croppedImage st;
           theme := theme st; stickers := stickers st;
           activeFilter := activeFilter st; aspectRatio := aspectRatio st;
           layoutConfig := layoutConfig st;
           statusMessage := statusMessage st; videoUrl := "";
           activeTab := activeTab st |}
    | _ => st
    end in
  setStickers (fun _ => (stickers st ++ [newSticker content now])%list) st'.

Definition handleUpdateSticker (id : string) (changes : Sticker.partial) (st : State)
  : State :=
  setStickers
    (map (fun s => if Sticker.id s =? id then Sticker.spread s changes else s)) st.

Definition handleRemoveSticker (id : string) (st : State) : State :=
  setStickers (filter (fun s => negb (Sticker.id s =? id))) st.

(** The sticker overlay is mounted with these two handlers as its
    callbacks. *)
Definition stickerCall (c : StickerOverlay.Call) (st : State) : State :=
  match c with
  | StickerOverlay.onUpdateSticker id changes => handleUpdateSticker id changes st
  | StickerOverlay.onRemoveSticker id => handleRemoveSticker id st
  end.

(** A pointer move over the sticker overlay, as the page sees it. *)
Definition stickerPointerMove (dragRef : StickerOverlay.DragRef)
           (containerRef : option DOMRect) (e : PointerEvent) (st : State) : State :=
  match StickerOverlay.handlePointerMove dragRef containerRef e with
  | Some c => stickerCall c st
  | None => st
  end.

(** A pointer move over the layout editor overlay. *)
Definition layoutPointerMove (dragRef : LayoutEditorOverlay.DragRef)
           (containerRef : option DOMRect) (e : PointerEvent) (st : State) : State :=
  match LayoutEditorOverlay.handlePointerMove dragRef containerRef e with
  | Some changes => handleUpdateLayout changes st
  | None => st
  end.

(** What [handleUpdateSticker] does to one sticker when the sticker with
    id [id0] is moved to [(a, b)]. *)
Definition moved (id0 : string) (a b : number) (s : Sticker.t) : Sticker.t :=
  if Sticker.id s =? id0
  then Sticker.spread s (StickerOverlay.position_changes a b)
  else s.

(** A drag of a sticker: pointer-down on [sticker], then the moves, each
    with the bounding rectangle of the overlay at that moment. The page
    re-renders between events; [dragRef] survives the renders. *)
Definition stickerDrag (down : PointerEvent) (sticker : Sticker.t)
           (moves : list (PointerEvent * DOMRect)) (st : State) : State :=
  let dragRef := StickerOverlay.handlePointerDown down sticker in
  fold_left (fun s m => stickerPointerMove dragRef (Some (snd m)) (fst m) s) moves st.

(** A drag of the title or of the subtitle; the overlay is mounted with
    the layout config of the page. *)
Definition layoutDrag (type : LayoutEditorOverlay.DragType) (down : PointerEvent)
           (moves : list (PointerEvent * DOMRect)) (st : State) : State :=
  match layoutConfig st with
  | None => st
  | Some c =>
      let dragRef := LayoutEditorOverlay.handlePointerDown c down type in
      fold_left (fun s m => layoutPointerMove dragRef (Some (snd m)) (fst m) s) moves st
  end.

(** A sequence of add-sticker actions, each with its content and the
    clock reading it sees. *)
Definition addStickers (adds : list (string * Z)) (st : State) : State :=
  fold_left (fun s a => handleAddSticker (fst a) (snd a) s) adds st.

End App.


(** ** Notions the specification names that the sources do not define *)

Module Spec.

(** The source crop that cover-fit implies for a centred image at scale
    1: the full height and a width of container aspect when the image is
    the wider one, the full width otherwise. *)
Definition coverFitCrop (cw ch nw nh : number) : number * number :=
  if Qgtb (nw / nh) (cw / ch)
  then (nh * (cw / ch), nh)
  else (nw, nw / (cw / ch)).

(** The minimum cover scale: the least zoom at which the base rendered
    image, scaled about the centre of the container, still spans it. *)
Definition minCoverScale (cw ch nw nh : number) : number :=
  let '(rw, rh) := ImageCropper.baseRenderedSize cw ch nw nh in
  Qmax (cw / rw) (ch / rh).

(** The position of a dragged element: its position at pointer-down plus
    the pixel delta over the container size, times 100. *)
Definition dragged (init start current size : number) : number :=
  init + ((current - start) / size) * 100.

End Spec.

(** ** Concrete inputs used by the examples below *)

Module Examples.

Local Open Scope string_scope.

(** A 2000 x 1000 image in a 400 x 400 crop window, zoom slider at its
    minimum. *)
Definition zoomed_out_events : list ImageCropper.Event :=
  [ImageCropper.EvImageLoad 2000 1000;
   ImageCropper.EvResize 400 400;
   ImageCropper.EvSlider (1 / 2)].

Definition zoomed_out : ImageCropper.State := ImageCropper.run zoomed_out_events.

Definition loaded_2000x1000 : ImageCropper.State :=
  ImageCropper.run [ImageCropper.EvImageLoad 2000 1000].

Definition new_badge : Sticker.t := App.newSticker "NEW" 1700000000000.

Definition text_sticker : Sticker.t :=
  Sticker.mk "1700000000000" text "NEW" 50 50 1 0.

Definition with_new_badge : App.State :=
  App.handleAddSticker "NEW" 1700000000000 App.initial.

Definition titled : App.State :=
  App.mkState UPLOADING "" "" "OOTD" [] "none" VERTICAL None "" "" App.template.

(** A text width that only looks at the size of the font and the
    length of the text. *)
Definition mono_width (f : Canvas2D.Font) (t : string) : number :=
  Canvas2D.size f * inject_Z (Z.of_nat (String.length t)).

(** The layout seeded from the fallback config, and the same with the
    subtitle background switched off in the colour panel. *)
Definition seeded : LayoutConfig.t := App.seededLayout LayoutService.fallback "none".

Definition seeded_transparent : LayoutConfig.t :=
  LayoutConfig.spread seeded
    (LayoutConfig.mkPartial None None None None None None None None None None None
                            None None (Some "transparent") None None).

Definition preview_props : CoverCanvas.Props :=
  CoverCanvas.mkProps "iVBORw0KGgo=" "OOTD" (Some seeded_transparent) 750 1000
                      (Some [new_badge]) (Some "none").

Definition blank : Canvas2D.Canvas :=
  Canvas2D.mkCanvas 300 150 Canvas2D.default_state [] [] [].



End Examples.

(** ** components/ImageUploader.tsx *)

(** [s.split(sep)] for a separator of one character: the pieces between
    the separators, at least one. *)
Fixpoint split (sep : ascii) (s : string) : list string :=
  match s with
  | EmptyString => [EmptyString]
  | String c s' =>
      if Ascii.eqb c sep then EmptyString :: split sep s'
      else match split sep s' with
           | piece :: rest => String c piece :: rest
           | [] => [String c EmptyString]
           end
  end.

Definition comma : ascii := ascii_of_nat 44.

(** [s.split(',')[1]]; [None] is [undefined]. *)
Definition afterComma (s : string) : option string := nth_error (split comma s) 1.

(** [s] has no occurrence of [c]. *)
Fixpoint lacks (c : ascii) (s : string) : bool :=
  match s with
  | EmptyString => true
  | String d s' => negb (Ascii.eqb d c) && lacks c s'
  end.

Module ImageUploader.

Local Open Scope string_scope.

(** A [File], as far as [handleFile] reads it; [size] in bytes. *)
Record File := mkFile { type : string; size : Z }.

Definition wrongType : string := "请上传有效的图片文件 (JPEG 或 PNG)".
Definition tooLarge : string := "文件过大，请上传 10MB 以内的图片".

(** What [handleFile] does with a file: it sets the inline error and
    returns, or it clears the error and starts reading the file. *)
Inductive Outcome :=
| Rejected (error : string)
| Reading.

Definition handleFile (file : File) : Outcome :=
  if negb (String.prefix "image/" (type file)) then Rejected wrongType
  else if (size file >? 10 * 1024 * 1024)%Z then Rejected tooLarge
  else Reading.

(** The arguments of [onImageSelected]. *)
Record Selected := mkSelected {
  base64 : option string;
  mimeType : string;
  previewUrl : string
}.

(** [reader.onload], with the data URL the reader produced. *)
Definition onload (file : File) (result : string) : Selected :=
  {| base64 := afterComma result;
     mimeType := type file;
     previewUrl := result |}.

(** The data URL [readAsDataURL] produces for a payload. *)
Definition dataURL (mime payload : string) : string :=
  "data:" ++ mime ++ ";base64," ++ payload.

End ImageUploader.

(** ** services/veoService.ts *)

Module VeoService.

Local Open Scope string_scope.

(** The ratio sent to the video model. *)
Definition targetAspectRatio (a : AspectRatio) : string :=
  match a with
  | LANDSCAPE => "16:9"
  | _ => "9:16"
  end.

(** An operation object the service hands back. *)
Record Operation := mkOperation {
  done : bool;
  uri : option string
}.

(** A call to the service returns an operation or throws; [message] is
    [error.message]. *)
Inductive Reply :=
| Op (o : Operation)
| Fails (message : option string).

(** The download of the finished video: [fetch] throws, or answers with
    [ok] and [statusText]. For an answer whose body is read, [blobUrl]
    is what [URL.createObjectURL] returns for it; [BodyFails] is an
    answer with [ok] whose [blob()] rejects. *)
Inductive Download :=
| FetchFails (message : option string)
| Response (ok : bool) (statusText : string) (blobUrl : string)
| BodyFails (message : option string).

(** How the outside world behaves during one call: [window.aistudio],
    if it exists, the constructor call [new GoogleGenAI] of
    [getClient], the answer to [generateVideos], the answers to the
    successive [getVideosOperation] calls, and the download. *)
Record World := mkWorld {
  aistudio : option AIStudio.t;
  client : AIStudio.Call unit;
  started : Reply;
  polls : list Reply;
  download : Download
}.

Inductive Effect :=
| consoleWarn
| consoleError
| openSelectKey
| onStatusUpdate (msg : string)
| wait5000
| getVideosOperation
| fetch.

(** [Waiting]: the operation is not done and the listed answers are
    used up, so the loop is still polling. *)
Inductive Result :=
| Returned (url : string)
| Threw (message : option string)
| Waiting.

(** [ensureApiKey]: the calls it makes and, if one of them rejects, the
    error it rejects with. *)
Definition ensureApiKey (w : World) : list Effect * option (option string) :=
  match aistudio w with
  | None => ([consoleWarn], None)
  | Some studio =>
      match AIStudio.hasSelectedApiKey studio with
      | AIStudio.Rejects e => ([], Some e)
      | AIStudio.Resolves hasKey =>
          if negb hasKey
          then
            match AIStudio.openSelectKey studio with
            | AIStudio.Resolves _ => ([openSelectKey], None)
            | AIStudio.Rejects e => ([openSelectKey], Some e)
            end
          else ([], None)
      end
  end.

(** The status messages of the polling loop, by attempt number. *)
Definition milestone (attempts : nat) : list Effect :=
  match attempts with
  | 1%nat => [onStatusUpdate "正在分析画面布局..."]
  | 3%nat => [onStatusUpdate "正在合成视频帧..."]
  | 6%nat => [onStatusUpdate "即将完成..."]
  | _ => []
  end.

(** The polling loop, entered with [operation] after [attempts]
    polls. It ends with the finished operation, with what a poll threw,
    or still waiting. *)
Fixpoint poll (operation : Operation) (attempts : nat) (answers : list Reply)
  : list Effect * (Operation + option string + unit) :=
  if done operation then ([], inl (inl operation))
  else
    match answers with
    | [] => ([], inr tt)
    | answer :: rest =>
        let attempts := S attempts in
        let now := ([wait5000] ++ milestone attempts ++ [getVideosOperation])%list in
        match answer with
        | Fails message => (now, inl (inr message))
        | Op operation' =>
            let '(later, r) := poll operation' attempts rest in
            ((now ++ later)%list, r)
        end
    end.

Definition noUri : string := "No video URI returned from Veo.".
Definition keyFailed : string :=
  "API Key validation failed. Please select your key again and retry.".

(** The [catch] block: what is done and what is thrown for an error
    with the given message. *)
Definition catchBlock (w : World) (message : option string) : list Effect * Result :=
  if truthy message
     && includes (match message with Some m => m | None => "" end)
                 "Requested entity was not found"
  then
    match aistudio w with
    | Some studio =>
        ([consoleError; openSelectKey],
         match AIStudio.openSelectKeyAgain studio with
         | AIStudio.Resolves _ => Threw (Some keyFailed)
         | AIStudio.Rejects e => Threw e
         end)
    | None => ([consoleError], Threw message)
    end
  else ([consoleError], Threw message).

(** What follows the loop once the operation is done. *)
Definition finish (w : World) (operation : Operation) : list Effect * Result :=
  if negb (truthy (uri operation))
  then
    let '(es, r) := catchBlock w (Some noUri) in
    ((onStatusUpdate "下载完成" :: es)%list, r)
  else
      match download w with
      | FetchFails message =>
          let '(es, r) := catchBlock w message in
          ((onStatusUpdate "下载完成" :: fetch :: es)%list, r)
      | Response ok statusText blobUrl =>
          if ok then ([onStatusUpdate "下载完成"; fetch], Returned blobUrl)
          else
            let '(es, r) := catchBlock w (Some ("Failed to download video: " ++ statusText)) in
            ((onStatusUpdate "下载完成" :: fetch :: es)%list, r)
      | BodyFails message =>
          let '(es, r) := catchBlock w message in
          ((onStatusUpdate "下载完成" :: fetch :: es)%list, r)
      end.

(** What follows [getClient], after the effects [before]: the first
    status message and the [try] block. *)
Definition tryBlock (w : World) (before : list Effect) : list Effect * Result :=
  let pre := (before ++ [onStatusUpdate "正在初始化 Veo 模型..."])%list in
  match started w with
  | Fails message =>
      let '(es, r) := catchBlock w message in ((pre ++ es)%list, r)
  | Op operation =>
      let pre := (pre ++ [onStatusUpdate "正在生成动态封面..."])%list in
      match poll operation 0 (polls w) with
      | (es, inr tt) => ((pre ++ es)%list, Waiting)
      | (es, inl (inr message)) =>
          let '(es', r) := catchBlock w message in ((pre ++ es ++ es')%list, r)
      | (es, inl (inl operation')) =>
          let '(es', r) := finish w operation' in ((pre ++ es ++ es')%list, r)
      end
  end.

(** [ensureApiKey] and [getClient] run before the [try] block: what
    they throw is neither caught nor logged. *)
Definition generateVideo (w : World) : list Effect * Result :=
  match ensureApiKey w with
  | (before, Some e) => (before, Threw e)
  | (before, None) =>
      match client w with
      | AIStudio.Rejects e => (before, Threw e)
      | AIStudio.Resolves _ => tryBlock w before
      end
  end.

(** The status messages among the effects, in order. *)
Fixpoint statuses (es : list Effect) : list string :=
  match es with
  | [] => []
  | onStatusUpdate msg :: rest => msg :: statuses rest
  | _ :: rest => statuses rest
  end.

Fixpoint count_polls (es : list Effect) : nat :=
  match es with
  | [] => 0
  | getVideosOperation :: rest => S (count_polls rest)
  | _ :: rest => count_polls rest
  end.

End VeoService.

(** ** App.tsx: the remaining handlers and the wiring of the page *)

Module Page.

Local Open Scope string_scope.

Definition set_appState (v : AppState) (st : App.State) : App.State :=
  App.mkState v (App.rawImage st) (App.croppedImage st) (App.theme st)
              (App.stickers st) (App.activeFilter st) (App.aspectRatio st)
              (App.layoutConfig st) (App.statusMessage st) (App.videoUrl st)
              (App.activeTab st).

Definition set_rawImage (v : string) (st : App.State) : App.State :=
  App.mkState (App.appState st) v (App.croppedImage st) (App.theme st)
              (App.stickers st) (App.activeFilter st) (App.aspectRatio st)
              (App.layoutConfig st) (App.statusMessage st) (App.videoUrl st)
              (App.activeTab st).

Definition set_croppedImage (v : string) (st : App.State) : App.State :=
  App.mkState (App.appState st) (App.rawImage st) v (App.theme st)
              (App.stickers st) (App.activeFilter st) (App.aspectRatio st)
              (App.layoutConfig st) (App.statusMessage st) (App.videoUrl st)
              (App.activeTab st).

Definition set_theme (v : string) (st : App.State) : App.State :=
  App.mkState (App.appState st) (App.rawImage st) (App.croppedImage st) v
              (App.stickers st) (App.activeFilter st) (App.aspectRatio st)
              (App.layoutConfig st) (App.statusMessage st) (App.videoUrl st)
              (App.activeTab st).

Definition set_activeFilter (v : string) (st : App.State) : App.State :=
  App.mkState (App.appState st) (App.rawImage st) (App.croppedImage st) (App.theme st)
              (App.stickers st) v (App.aspectRatio st)
              (App.layoutConfig st) (App.statusMessage st) (App.videoUrl st)
              (App.activeTab st).

Definition set_aspectRatio (v : AspectRatio) (st : App.State) : App.State :=
  App.mkState (App.appState st) (App.rawImage st) (App.croppedImage st) (App.theme st)
              (App.stickers st) (App.activeFilter st) v
              (App.layoutConfig st) (App.statusMessage st) (App.videoUrl st)
              (App.activeTab st).

Definition set_layoutConfig (v : option LayoutConfig.t) (st : App.State) : App.State :=
  App.mkState (App.appState st) (App.rawImage st) (App.croppedImage st) (App.theme st)
              (App.stickers st) (App.activeFilter st) (App.aspectRatio st)
              v (App.statusMessage st) (App.videoUrl st)
              (App.activeTab st).

Definition set_statusMessage (v : string) (st : App.State) : App.State :=
  App.mkState (App.appState st) (App.rawImage st) (App.croppedImage st) (App.theme st)
              (App.stickers st) (App.activeFilter st) (App.aspectRatio st)
              (App.layoutConfig st) v (App.videoUrl st)
              (App.activeTab st).

Definition set_videoUrl (v : string) (st : App.State) : App.State :=
  App.mkState (App.appState st) (App.rawImage st) (App.croppedImage st) (App.theme st)
              (App.stickers st) (App.activeFilter st) (App.aspectRatio st)
              (App.layoutConfig st) (App.statusMessage st) v
              (App.activeTab st).

Definition set_activeTab (v : App.Tab) (st : App.State) : App.State :=
  App.mkState (App.appState st) (App.rawImage st) (App.croppedImage st) (App.theme st)
              (App.stickers st) (App.activeFilter st) (App.aspectRatio st)
              (App.layoutConfig st) (App.statusMessage st) (App.videoUrl st)
              v.

Definition handleImageSelected (base64 : option string) (mime preview : string)
           (st : App.State) : App.State :=
  set_appState CROPPING (set_rawImage preview st).

Definition handleCropConfirm (base64 : string) (st : App.State) : App.State :=
  set_appState UPLOADING (set_croppedImage base64 st).

Definition handleReCrop (st : App.State) : App.State :=
  if App.rawImage st =? "" then st else set_appState CROPPING st.

(** The [onCancel] handed to the cropper. *)
Definition cropCancel (st : App.State) : App.State :=
  if App.rawImage st =? "" then set_appState IDLE st else set_appState UPLOADING st.

(** A click on one of the four ratio buttons. *)
Definition ratioButton (ratio : AspectRatio) (st : App.State) : App.State :=
  set_appState CROPPING (set_aspectRatio ratio st).

Definition filter_changes (f : string) : LayoutConfig.partial :=
  LayoutConfig.mkPartial None None None None None None None None None None None
                         None None None (Some f) None.

Definition handleFilterChange (filterValue : string) (st : App.State) : App.State :=
  let st' := set_activeFilter filterValue st in
  match App.layoutConfig st with
  | Some c => set_layoutConfig (Some (LayoutConfig.spread c (filter_changes filterValue))) st'
  | None => st'
  end.

Definition videoFailed : string := "视频生成失败，请重试。".

(** [handleGenerateVideo] run from its call on with no other event
    handled in between; [canvasRef] tells whether the canvas handle is
    there, [progress] are the messages the service reported through
    [setStatusMessage] and [service] is how the awaited call ends
    ([None]: it has not ended). The transition system of the page below
    takes the handler in its parts. *)
Definition handleGenerateVideo (canvasRef : bool) (progress : list string)
           (service : option (string + unit)) (st : App.State) : App.State :=
  if negb canvasRef then st
  else
    match App.layoutConfig st with
    | None => st
    | Some _ =>
        let st1 := set_appState GENERATING_VIDEO st in
        let st2 := fold_left (fun s m => set_statusMessage m s) progress st1 in
        match service with
        | None => st2
        | Some (inl uri) => set_appState COMPLETED (set_videoUrl uri st2)
        | Some (inr _) => set_statusMessage videoFailed (set_appState ERROR st2)
        end
    end.

Definition reset (st : App.State) : App.State :=
  set_activeFilter "none"
    (set_videoUrl ""
       (App.setStickers (fun _ => [])
          (set_layoutConfig None
             (set_theme ""
                (set_croppedImage ""
                   (set_rawImage ""
                      (set_appState IDLE st))))))).

(** *** The two asynchronous handlers, in their parts

    [handleGenerateLayout] and [handleGenerateVideo] suspend at an
    [await]; the page stays live in between. Each is given here by what
    it does before the [await] and by what it does when the awaited
    call ends. The continuation runs the state setters on the state the
    page has by then; it reads only what the handler closed over when it
    was called, which for [handleGenerateLayout] is [activeFilter]. *)

Definition layoutStart (st : App.State) : App.State :=
  set_activeTab App.template (set_appState ANALYZING st).

Definition layoutDone (activeFilter : string) (service : LayoutService.Result)
           (st : App.State) : App.State :=
  match service with
  | LayoutService.Returned config =>
      set_appState PREVIEW
        (set_layoutConfig (Some (App.seededLayout config activeFilter)) st)
  | LayoutService.Threw _ =>
      set_appState ERROR (set_statusMessage "无法生成布局" st)
  end.

Definition videoStart (st : App.State) : App.State :=
  set_appState GENERATING_VIDEO st.

Definition videoDone (service : string + unit) (st : App.State) : App.State :=
  match service with
  | inl uri => set_appState COMPLETED (set_videoUrl uri st)
  | inr _ => set_statusMessage videoFailed (set_appState ERROR st)
  end.

(** The config passed to the canvas when the page has none. *)
Definition placeholder : LayoutConfig.t :=
  LayoutConfig.mk "" "transparent" "transparent" fs_bold pos_center ""
                  None None None None None None None None None None.

(** The props the page renders [CoverCanvas] with. *)
Definition coverCanvasProps (st : App.State) : CoverCanvas.Props :=
  {| CoverCanvas.imageBase64 := App.croppedImage st;
     CoverCanvas.title := App.theme st;
     CoverCanvas.layoutConfig :=
       Some (match App.layoutConfig st with Some c => c | None => placeholder end);
     CoverCanvas.width := fst (App.RATIO_CONFIG (App.aspectRatio st));
     CoverCanvas.height := snd (App.RATIO_CONFIG (App.aspectRatio st));
     CoverCanvas.stickers := Some (App.stickers st);
     CoverCanvas.filter :=
       Some (or_else (match App.layoutConfig st with
                      | Some c => LayoutConfig.filter c
                      | None => None
                      end)
                     (App.activeFilter st)) |}.

(** The panel of the text tab: each control calls [handleUpdateLayout]
    with one field. *)
Definition fontFamily_changes (v : string) : LayoutConfig.partial :=
  LayoutConfig.mkPartial None None None None None None None None None None None
                         None None None None (Some v).

Definition scale_changes (v : number) : LayoutConfig.partial :=
  LayoutConfig.mkPartial None None None None None None None None None None (Some v)
                         None None None None None.

Definition textColor_changes (v : string) : LayoutConfig.partial :=
  LayoutConfig.mkPartial None (Some v) None None None None None None None None None
                         None None None None None.

Definition titleBackgroundColor_changes (v : string) : LayoutConfig.partial :=
  LayoutConfig.mkPartial None None None None None None None None None None None
                         (Some v) None None None None.

Definition subtitle_changes (v : string) : LayoutConfig.partial :=
  LayoutConfig.mkPartial (Some v) None None None None None None None None None None
                         None None None None None.

Definition subtitleTextColor_changes (v : string) : LayoutConfig.partial :=
  LayoutConfig.mkPartial None None None None None None None None None None None
                         None (Some v) None None None.

Definition subtitleBackgroundColor_changes (v : string) : LayoutConfig.partial :=
  LayoutConfig.mkPartial None None None None None None None None None None None
                         None None (Some v) None None.

(** *** The page as a transition system *)

(** What the user and the services can make happen. A sticker is
    addressed by its place in the rendered list; the handlers of the
    sticker overlay are bound to the sticker rendered there. The end of
    an awaited layout call comes with the [activeFilter] the handler
    that made the call closed over. *)
Inductive Event :=
| EvImageSelected (base64 : option string) (mime preview : string)
| EvCropConfirm (base64 : string)
| EvReCrop
| EvCropCancel
| EvRatio (ratio : AspectRatio)
| EvTheme (v : string)
| EvTab (v : App.Tab)
| EvFilter (v : string)
| EvGenerateLayout
| EvLayoutDone (activeFilter : string) (service : LayoutService.Result)
| EvFont (v : string)
| EvScale (v : number)
| EvTextColor (v : string)
| EvTitleBackground (v : string)
| EvSubtitle (v : string)
| EvSubtitleTextColor (v : string)
| EvSubtitleBackground (v : string)
| EvLayoutDrag (type : LayoutEditorOverlay.DragType) (down : PointerEvent)
               (moves : list (PointerEvent * DOMRect))
| EvAddSticker (content : string) (now : Z)
| EvStickerDrag (i : nat) (down : PointerEvent) (moves : list (PointerEvent * DOMRect))
| EvStickerPlus (i : nat)
| EvStickerMinus (i : nat)
| EvStickerDelete (i : nat)
| EvGenerateVideo (canvasRef : bool)
| EvVideoStatus (msg : string)
| EvVideoDone (service : string + unit)
| EvReset
| EvRetry.

Definition onSticker (i : nat) (f : Sticker.t -> App.State -> App.State)
           (st : App.State) : App.State :=
  match nth_error (App.stickers st) i with
  | Some sticker => f sticker st
  | None => st
  end.

(** Whether a click on the layout button, or on the retry button, makes
    a layout call, and whether a click on the video button makes a video
    call. *)
Definition callsLayout (st : App.State) : bool := negb (App.theme st =? "").

Definition retryCallsLayout (st : App.State) : bool :=
  negb (App.rawImage st =? "") && negb (App.theme st =? "").

Definition callsVideo (canvasRef : bool) (st : App.State) : bool :=
  canvasRef && match App.layoutConfig st with Some _ => true | None => false end.

(** What the code that runs for an event does to the state of the page:
    a handler up to its first [await], or the continuation of a handler
    after one. *)
Definition step (st : App.State) (e : Event) : App.State :=
  match e with
  | EvImageSelected base64 mime preview => handleImageSelected base64 mime preview st
  | EvCropConfirm base64 => handleCropConfirm base64 st
  | EvReCrop => handleReCrop st
  | EvCropCancel => cropCancel st
  | EvRatio ratio => ratioButton ratio st
  | EvTheme v => set_theme v st
  | EvTab v => set_activeTab v st
  | EvFilter v => handleFilterChange v st
  | EvGenerateLayout => if callsLayout st then layoutStart st else st
  | EvLayoutDone activeFilter service => layoutDone activeFilter service st
  | EvFont v => App.handleUpdateLayout (fontFamily_changes v) st
  | EvScale v => App.handleUpdateLayout (scale_changes v) st
  | EvTextColor v => App.handleUpdateLayout (textColor_changes v) st
  | EvTitleBackground v => App.handleUpdateLayout (titleBackgroundColor_changes v) st
  | EvSubtitle v => App.handleUpdateLayout (subtitle_changes v) st
  | EvSubtitleTextColor v => App.handleUpdateLayout (subtitleTextColor_changes v) st
  | EvSubtitleBackground v => App.handleUpdateLayout (subtitleBackgroundColor_changes v) st
  | EvLayoutDrag type down moves => App.layoutDrag type down moves st
  | EvAddSticker content now => App.handleAddSticker content now st
  | EvStickerDrag i down moves =>
      onSticker i (fun sticker => App.stickerDrag down sticker moves) st
  | EvStickerPlus i =>
      onSticker i (fun sticker => App.stickerCall (StickerOverlay.plusButton sticker)) st
  | EvStickerMinus i =>
      onSticker i (fun sticker => App.stickerCall (StickerOverlay.minusButton sticker)) st
  | EvStickerDelete i =>
      onSticker i (fun sticker => App.stickerCall (StickerOverlay.deleteButton sticker)) st
  | EvGenerateVideo canvasRef => if callsVideo canvasRef st then videoStart st else st
  | EvVideoStatus msg => set_statusMessage msg st
  | EvVideoDone service => videoDone service st
  | EvReset => reset st
  | EvRetry =>
      if retryCallsLayout st then layoutStart (set_appState UPLOADING st)
      else reset (set_appState UPLOADING st)
  end.

(** The page together with the calls it is waiting for: of each pending
    call of [generateLayoutConfig] the [activeFilter] its handler closed
    over, oldest first, and the number of pending calls of
    [generateVideo]. *)
Record Live := mkLive {
  page : App.State;
  layoutCalls : list string;
  videoCalls : nat
}.

Definition initial : Live := mkLive App.initial [] 0.

Fixpoint remove_one (f : string) (l : list string) : list string :=
  match l with
  | [] => []
  | g :: rest => if g =? f then rest else g :: remove_one f rest
  end.

(** What can happen next: the title scale control is a range input from
    0.5 to 2.5; an awaited call can only end while it is pending, and
    the video service only reports its progress during a call. *)
Definition enabled (l : Live) (e : Event) : bool :=
  match e with
  | EvScale v => Qle_bool 0.5 v && Qle_bool v 2.5
  | EvLayoutDone activeFilter _ => existsb (String.eqb activeFilter) (layoutCalls l)
  | EvVideoStatus _ | EvVideoDone _ => negb (Nat.eqb (videoCalls l) 0)
  | _ => true
  end.

Definition after (l : Live) (e : Event) : Live :=
  {| page := step (page l) e;
     layoutCalls :=
       match e with
       | EvGenerateLayout =>
           if callsLayout (page l)
           then (layoutCalls l ++ [App.activeFilter (page l)])%list else layoutCalls l
       | EvRetry =>
           if retryCallsLayout (page l)
           then (layoutCalls l ++ [App.activeFilter (page l)])%list else layoutCalls l
       | EvLayoutDone activeFilter _ => remove_one activeFilter (layoutCalls l)
       | _ => layoutCalls l
       end;
     videoCalls :=
       match e with
       | EvGenerateVideo canvasRef =>
           if callsVideo canvasRef (page l) then S (videoCalls l) else videoCalls l
       | EvVideoDone _ => Nat.pred (videoCalls l)
       | _ => videoCalls l
       end |}.

Inductive reaches : Live -> Prop :=
| reaches_initial : reaches initial
| reaches_after l e : reaches l -> enabled l e = true -> reaches (after l e).

(** The states of the page that occur. *)
Definition reachable (st : App.State) : Prop :=
  exists l, reaches l /\ page l = st.

(** Whether the events can happen one after the other from [l]. *)
Fixpoint admits (l : Live) (es : list Event) : bool :=
  match es with
  | [] => true
  | e :: rest => enabled l e && admits (after l e) rest
  end.

Definition live (es : list Event) : Live := fold_left after es initial.

Definition run (es : list Event) : App.State := page (live es).

End Page.

(** ** Reading a painted list *)

Module Paints.

(** The drawing state a paint was issued under. *)
Definition state_of (p : Canvas2D.Paint) : Canvas2D.DrawState :=
  match p with
  | Canvas2D.DrawImage _ _ _ _ _ s => s
  | Canvas2D.FillRect _ _ _ _ s => s
  | Canvas2D.Fill _ s => s
  | Canvas2D.StrokeText _ _ _ s => s
  | Canvas2D.FillText _ _ _ s => s
  end.


(** The filter the page asks the canvas to draw the image with. *)
Definition effectiveFilter (p : CoverCanvas.Props) : string :=
  match CoverCanvas.filter p with
  | Some f => if (f =? "")%string then "none"%string else f
  | None => "none"%string
  end.

End Paints.

(** ** Notions the properties are stated with *)

Section Notions.

Local Open Scope Q_scope.

(** Pointer moves delivered one after the other. *)
Definition panMoves (moves : list (number * number)) (st : ImageCropper.State)
  : ImageCropper.State :=
  fold_left (fun s m => ImageCropper.handlePointerMove (fst m) (snd m) s) moves st.

(** The ways an event can change the sticker list. *)
Inductive StickerChange (l : list Sticker.t) : list Sticker.t -> Prop :=
| sc_same : StickerChange l l
| sc_cleared : StickerChange l []
| sc_added content now : StickerChange l (l ++ [App.newSticker content now])
| sc_moved s a b : In s l -> StickerChange l (map (App.moved (Sticker.id s) a b) l)
| sc_scaled s v :
    In s l ->
    v = Qmin 5 (Sticker.scale s + 0.1) \/ v = Qmax 0.2 (Sticker.scale s - 0.1) ->
    StickerChange l
      (map (fun t => if (Sticker.id t =? Sticker.id s)%string
                     then Sticker.spread t (StickerOverlay.scale_changes v) else t) l)
| sc_removed s :
    In s l -> StickerChange l (filter (fun t => negb (Sticker.id t =? Sticker.id s)%string) l).

(** The way to a preview: upload, crop, title, layout. *)
Definition previewing : list Page.Event :=
  [Page.EvImageSelected (Some "AAAA") "image/png" "data:image/png;base64,AAAA";
   Page.EvCropConfirm "iVBORw0KGgo=";
   Page.EvTheme "OOTD";
   Page.EvGenerateLayout;
   Page.EvLayoutDone "none" (LayoutService.Returned LayoutService.fallback)]%string.

(** A session: upload, crop, title, filter, a layout request during
    which another filter is chosen, a new title size, a drag of the
    title, two stickers, one made larger, one dragged and made
    smaller. *)
Definition session : list Page.Event :=
  [Page.EvImageSelected (Some "AAAA") "image/png" "data:image/png;base64,AAAA";
   Page.EvCropConfirm "iVBORw0KGgo=";
   Page.EvTheme "OOTD";
   Page.EvFilter "saturate(1.5) contrast(1.1)";
   Page.EvGenerateLayout;
   Page.EvFilter "grayscale(1) contrast(1.2)";
   Page.EvLayoutDone "saturate(1.5) contrast(1.1)"
                     (LayoutService.Returned LayoutService.fallback);
   Page.EvTab App.text_tab;
   Page.EvScale 1.5;
   Page.EvLayoutDrag LayoutEditorOverlay.title (mkPointerEvent 10 10)
                     [(mkPointerEvent 50 30, mkDOMRect 400 300)];
   Page.EvAddSticker "NEW" 1700000000000;
   Page.EvAddSticker "SALE" 1700000000001;
   Page.EvStickerPlus 0;
   Page.EvStickerDrag 1 (mkPointerEvent 10 20) [(mkPointerEvent 110 20, mkDOMRect 400 300)];
   Page.EvStickerMinus 1]%string.

(** The stickers whose id is not the one of [s]. *)
Definition other_than (s : Sticker.t) (t : Sticker.t) : bool :=
  negb (Sticker.id t =? Sticker.id s)%string.

(** The place in the list of the sticker an overlay event is aimed at. *)
Definition aimed_at (e : Page.Event) : option nat :=
  match e with
  | Page.EvStickerDrag i _ _ | Page.EvStickerPlus i
  | Page.EvStickerMinus i | Page.EvStickerDelete i => Some i
  | _ => None
  end.

(** A field that is set. *)
Definition defined {A} (o : option A) : Prop := o <> None.

(** A layout as the page keeps it. *)
Definition layout_ok (c : LayoutConfig.t) : Prop :=
  defined (LayoutConfig.x c) /\ defined (LayoutConfig.y c) /\
  defined (LayoutConfig.subtitleX c) /\ defined (LayoutConfig.subtitleY c) /\
  (exists v, LayoutConfig.scale c = Some v /\ 0.5 <= v /\ v <= 2.5) /\
  defined (LayoutConfig.titleBackgroundColor c) /\
  defined (LayoutConfig.subtitleTextColor c) /\
  defined (LayoutConfig.subtitleBackgroundColor c) /\
  defined (LayoutConfig.filter c).

Definition layouts_ok (st : App.State) : Prop :=
  forall c, App.layoutConfig st = Some c -> layout_ok c.

(** What holds of the page and of its pending calls whenever an event
    has been handled. *)
Definition page_inv (l : Page.Live) : Prop :=
  layouts_ok (Page.page l) /\
  (App.appState (Page.page l) = ANALYZING -> Page.layoutCalls l <> []) /\
  (App.appState (Page.page l) = GENERATING_VIDEO ->
   Page.videoCalls l <> 0%nat /\ App.layoutConfig (Page.page l) <> None).

(** A change of the panel or of a drag that sets no scale outside the
    range of the slider. *)
Definition tame (ch : LayoutConfig.partial) : Prop :=
  match LayoutConfig.p_scale ch with
  | Some v => 0.5 <= v /\ v <= 2.5
  | None => True
  end.

(** A computation that leaves filter, transform and save stack as they
    are, and only paints under the filter it was entered with. *)
Definition calm {A} (m : Canvas2D.M A) : Prop :=
  forall c,
    Canvas2D.filter (Canvas2D.state (snd (m c))) = Canvas2D.filter (Canvas2D.state c) /\
    Canvas2D.transform (Canvas2D.state (snd (m c)))
    = Canvas2D.transform (Canvas2D.state c) /\
    Canvas2D.saved (snd (m c)) = Canvas2D.saved c /\
    exists ps,
      Canvas2D.painted (snd (m c)) = (Canvas2D.painted c ++ ps)%list /\
      Forall (fun p => Canvas2D.filter (Paints.state_of p)
                       = Canvas2D.filter (Canvas2D.state c)) ps.

(** Everything [img.onload] does after the base image is drawn and the
    state restored. *)
Definition afterBaseImage (text_width : Canvas2D.Font -> string -> number)
           (p : CoverCanvas.Props) : Canvas2D.M unit :=
  let width := CoverCanvas.width p in
  let height := CoverCanvas.height p in
  Canvas2D.bind
    (Canvas2D.set_fillStyle
       (Canvas2D.LinearGradient 0 height 0 (height * 0.7)
          [(0, "rgba(0,0,0,0.1)"%string); (1, "rgba(0,0,0,0)"%string)]))
    (fun _ =>
       Canvas2D.bind (Canvas2D.fillRect 0 (height / 2) width (height / 2))
         (fun _ =>
            Canvas2D.bind (Canvas2D.set_fillStyle (Canvas2D.Color "rgba(0, 0, 0, 0.01)"))
              (fun _ =>
                 Canvas2D.bind (Canvas2D.fillRect 0 0 width height)
                   (fun _ =>
                      Canvas2D.bind
                        match CoverCanvas.layoutConfig p with
                        | Some config =>
                            CoverCanvas.drawLayoutText text_width config
                              (CoverCanvas.title p) width height
                        | None => Canvas2D.ret tt
                        end
                        (fun _ =>
                           Canvas2D.forEach
                             match CoverCanvas.stickers p with
                             | Some l => l
                             | None => []
                             end
                             (CoverCanvas.drawSticker width height)))))).

(** [handleGenerateVideo] of the page run against the video service,
    with no other event handled while the call is pending: the status
    messages of the service go to [setStatusMessage], a returned URL
    resolves the awaited call and a thrown error rejects it. *)
Definition videoOnPage (w : VeoService.World) (canvasRef : bool) (st : App.State)
  : App.State :=
  let '(es, r) := VeoService.generateVideo w in
  Page.handleGenerateVideo canvasRef (VeoService.statuses es)
    match r with
    | VeoService.Returned url => Some (inl url)
    | VeoService.Threw _ => Some (inr tt)
    | VeoService.Waiting => None
    end st.

End Notions.

(** * Properties *)

Local Open Scope Q_scope.

(** Side conditions of [field]: the named quantities are positive. *)
Ltac qnz := repeat split; try (intro; lra); try lra.

(** [lra] does not look through a division by a numeral: halves are
    turned into products first. *)
Ltac qlra := unfold Qdiv in *; change (/ 2) with (1 # 2) in *; lra.

Lemma Qgtb_true (a b : Q) : Qgtb a b = true <-> b < a.
Proof.
  unfold Qgtb. rewrite negb_true_iff. split; intros H.
  - apply Qnot_le_lt. intros Hle. apply Qle_bool_iff in Hle. congruence.
  - destruct (Qle_bool a b) eqn:E; [|reflexivity].
    apply Qle_bool_iff in E. exfalso. exact (Qlt_not_le _ _ H E).
Qed.

Lemma Qgtb_false (a b : Q) : Qgtb a b = false <-> a <= b.
Proof.
  unfold Qgtb. rewrite negb_false_iff. apply Qle_bool_iff.
Qed.

(** ** The coordinate mapper and the crop engine *)

Section CropperFacts.

Import ImageCropper.

Lemma reachable_from (es : list Event) (st : State) :
  reachable st -> forallb deliverable es = true ->
  reachable (fold_left step es st).
Proof.
  revert st. induction es as [|e es IH]; intros st Hst Hes; simpl in *.
  - exact Hst.
  - apply andb_true_iff in Hes as [He Hes].
    apply IH; [|exact Hes]. now apply reach_step.
Qed.

Lemma reachable_run (es : list Event) :
  forallb deliverable es = true -> reachable (run es).
Proof. apply reachable_from. constructor. Qed.

(** The scale only ever holds 1 or a value the slider reported. *)
Lemma reachable_scale (st : State) :
  reachable st -> slider_min <= scale st /\ scale st <= slider_max.
Proof.
  induction 1 as [|st e Hst IH He].
  - simpl. unfold slider_min, slider_max. split; lra.
  - destruct e; simpl in *; try exact IH.
    + unfold slider_min, slider_max. split; lra.
    + unfold handlePointerMove. destruct (negb (isDragging st)); exact IH.
    + unfold slider_value in He. apply andb_true_iff in He as [H1 H2].
      split; now apply Qle_bool_iff.
Qed.

(** A loaded image has positive natural dimensions. *)
Lemma reachable_loaded (st : State) :
  reachable st ->
  loaded (imageDimensions st) = true ->
  0 < iwidth (imageDimensions st) /\ 0 < iheight (imageDimensions st).
Proof.
  induction 1 as [|st e Hst IH He]; [discriminate|].
  destruct e; simpl in *; try exact IH.
  - intros _. apply andb_true_iff in He as [H1 H2].
    split; now apply Qgtb_true.
  - unfold handlePointerMove. destruct (negb (isDragging st)); exact IH.
Qed.

(** The cover-fit base size spans the container. *)
Lemma baseRenderedSize_spans (cw ch nw nh : number) :
  0 < cw -> 0 < ch -> 0 < nw -> 0 < nh ->
  cw <= fst (baseRenderedSize cw ch nw nh) /\
  ch <= snd (baseRenderedSize cw ch nw nh) /\
  fst (baseRenderedSize cw ch nw nh) * nh == snd (baseRenderedSize cw ch nw nh) * nw.
Proof.
  intros Hcw Hch Hnw Hnh. unfold baseRenderedSize.
  destruct (Qgtb (nw / nh) (cw / ch)) eqn:E; cbn [fst snd].
  - apply Qgtb_true in E. repeat split.
    + apply Qlt_le_weak.
      assert (H := Qmult_lt_compat_r _ _ ch Hch E).
      setoid_replace (cw / ch * ch) with cw in H by (field; qnz).
      setoid_replace (ch * (nw / nh)) with (nw / nh * ch) by ring. exact H.
    + apply Qle_refl.
    + field; qnz.
  - apply Qgtb_false in E. repeat split.
    + apply Qle_refl.
    + apply Qle_shift_div_l.
      * apply Qlt_shift_div_l; [exact Hnh|]. now rewrite Qmult_0_l.
      * assert (H := Qmult_le_compat_r _ _ ch E (Qlt_le_weak _ _ Hch)).
        setoid_replace (cw / ch * ch) with cw in H by (field; qnz).
        setoid_replace (ch * (nw / nh)) with (nw / nh * ch) by ring. exact H.
    + field; qnz.
Qed.

End CropperFacts.

Lemma Qdiv_cross (a b c d : Q) :
  0 < b -> 0 < d -> a * d == c * b -> a / b == c / d.
Proof.
  intros Hb Hd H.
  setoid_replace (a / b) with (a * d / (b * d)) by (field; qnz).
  rewrite H. field; qnz.
Qed.

Lemma half_scaled (c r n : Q) :
  0 < r -> 0 <= n -> c <= r -> c / 2 * (n / r) <= n / 2.
Proof.
  intros Hr Hn Hc.
  setoid_replace (c / 2 * (n / r)) with (c * (n / (2 * r))) by (field; qnz).
  setoid_replace (n / 2) with (r * (n / (2 * r))) by (field; qnz).
  apply Qmult_le_compat_r; [exact Hc|].
  apply Qle_shift_div_l; [lra|lra].
Qed.

(** At the reset transform the source rectangle of a save lies inside
    the image. *)
Lemma reset_covers (a : AspectRatio) (cw ch : number) (st : ImageCropper.State) :
  0 < cw -> 0 < ch ->
  ImageCropper.loaded (ImageCropper.imageDimensions st) = true ->
  0 < ImageCropper.iwidth (ImageCropper.imageDimensions st) ->
  0 < ImageCropper.iheight (ImageCropper.imageDimensions st) ->
  exists r,
    ImageCropper.handleSave true a cw ch (ImageCropper.reset st) = Some r /\
    ImageCropper.covers r (ImageCropper.iwidth (ImageCropper.imageDimensions st))
                          (ImageCropper.iheight (ImageCropper.imageDimensions st)).
Proof.
  intros Hcw Hch Hl Hnw Hnh.
  unfold ImageCropper.handleSave. cbn [ImageCropper.reset ImageCropper.imageDimensions
    ImageCropper.position ImageCropper.scale]. rewrite Hl. cbn [negb orb].
  eexists. split; [reflexivity|].
  set (nw := ImageCropper.iwidth (ImageCropper.imageDimensions st)) in *.
  set (nh := ImageCropper.iheight (ImageCropper.imageDimensions st)) in *.
  destruct (baseRenderedSize_spans cw ch nw nh Hcw Hch Hnw Hnh) as (Hw & Hh & Hr).
  unfold ImageCropper.covers, ImageCropper.mapDomToSource.
  cbn [ImageCropper.src_x ImageCropper.src_y ImageCropper.src_w ImageCropper.src_h
       ImageCropper.px ImageCropper.py].
  set (rw := fst (ImageCropper.baseRenderedSize cw ch nw nh)) in *.
  set (rh := snd (ImageCropper.baseRenderedSize cw ch nw nh)) in *.
  clearbody rw rh. clearbody nw nh.
  assert (Hrw : 0 < rw) by lra.
  assert (Hrh : 0 < rh) by lra.
  assert (Hx : cw / 2 * (nw / rw) <= nw / 2) by (apply half_scaled; lra).
  assert (Hy : ch / 2 * (nw / rw) <= nh / 2).
  { setoid_replace (nw / rw) with (nh / rh).
    - apply half_scaled; lra.
    - apply Qdiv_cross; try assumption.
      setoid_replace (nw * rh) with (rh * nw) by ring.
      rewrite <- Hr. ring. }
  repeat split.
  - setoid_replace (nw / 2 + (0 - (cw / 2 + 0)) / 1 * (nw / rw))
      with (nw / 2 - cw / 2 * (nw / rw)) by (field; qnz). lra.
  - setoid_replace (nh / 2 + (0 - (ch / 2 + 0)) / 1 * (nw / rw))
      with (nh / 2 - ch / 2 * (nw / rw)) by (field; qnz). lra.
  - setoid_replace (nw / 2 + (0 - (cw / 2 + 0)) / 1 * (nw / rw) +
                    (nw / 2 + (cw - (cw / 2 + 0)) / 1 * (nw / rw) -
                     (nw / 2 + (0 - (cw / 2 + 0)) / 1 * (nw / rw))))
      with (nw / 2 + cw / 2 * (nw / rw)) by (field; qnz).
    revert Hx. generalize (cw / 2 * (nw / rw)). intros t Ht. qlra.
  - setoid_replace (nh / 2 + (0 - (ch / 2 + 0)) / 1 * (nw / rw) +
                    (nh / 2 + (ch - (ch / 2 + 0)) / 1 * (nw / rw) -
                     (nh / 2 + (0 - (ch / 2 + 0)) / 1 * (nw / rw))))
      with (nh / 2 + ch / 2 * (nw / rw)) by (field; qnz).
    revert Hy. generalize (ch / 2 * (nw / rw)). intros t Ht. qlra.
Qed.

(** C3, as amended. In every reachable cropper state the scale lies in
    the range of the zoom slider, from 0.5 to 3; it is not clamped to a
    minimum cover scale. The crop window is fully covered at the reset
    transform (scale 1, pan (0,0)) for every loaded image and every
    container of positive size. *)
Theorem C3_scale_within_slider_range (st : ImageCropper.State) :
  ImageCropper.reachable st ->
  (1 / 2 <= ImageCropper.scale st /\ ImageCropper.scale st <= 3) /\
  (forall (a : AspectRatio) (cw ch : number),
      0 < cw -> 0 < ch ->
      ImageCropper.loaded (ImageCropper.imageDimensions st) = true ->
      exists r,
        ImageCropper.handleSave true a cw ch (ImageCropper.reset st) = Some r /\
        ImageCropper.covers r (ImageCropper.iwidth (ImageCropper.imageDimensions st))
                              (ImageCropper.iheight (ImageCropper.imageDimensions st))).
Proof.
  intros Hst. split.
  - destruct (reachable_scale st Hst) as [H1 H2].
    unfold ImageCropper.slider_min, ImageCropper.slider_max in *. split; qlra.
  - intros a cw ch Hcw Hch Hl.
    destruct (reachable_loaded st Hst Hl) as [Hnw Hnh].
    now apply reset_covers.
Qed.

(** The slider at its minimum, on a 2000 x 1000 image in a 400 x 400
    window: a reachable state of the amended C3. *)
Lemma C3_scale_within_slider_range_witness :
  ImageCropper.reachable Examples.zoomed_out /\
  ((1 / 2 <= ImageCropper.scale Examples.zoomed_out /\
    ImageCropper.scale Examples.zoomed_out <= 3) /\
   (forall (a : AspectRatio) (cw ch : number),
      0 < cw -> 0 < ch ->
      ImageCropper.loaded (ImageCropper.imageDimensions Examples.zoomed_out) = true ->
      exists r,
        ImageCropper.handleSave true a cw ch
          (ImageCropper.reset Examples.zoomed_out) = Some r /\
        ImageCropper.covers r
          (ImageCropper.iwidth (ImageCropper.imageDimensions Examples.zoomed_out))
          (ImageCropper.iheight (ImageCropper.imageDimensions Examples.zoomed_out)))).
Proof.
  assert (H : ImageCropper.reachable Examples.zoomed_out)
    by (apply reachable_run; reflexivity).
  split; [exact H|].
  exact (C3_scale_within_slider_range Examples.zoomed_out H).
Defined.

(** C3 as stated fails: with the slider at 0.5 the state is reachable,
    its scale is below the minimum cover scale (which is 1), and the
    source rectangle of a save leaves the image, so the crop window shows
    gaps. *)
Lemma C3_zoomed_out_gap :
  ImageCropper.reachable Examples.zoomed_out /\
  Spec.minCoverScale 400 400 2000 1000 == 1 /\
  ImageCropper.scale Examples.zoomed_out < Spec.minCoverScale 400 400 2000 1000 /\
  option_map (fun r => ImageCropper.coversb r 2000 1000)
             (ImageCropper.handleSave true SQUARE 400 400 Examples.zoomed_out)
  = Some false.
Proof.
  split; [apply reachable_run; reflexivity|].
  split; [reflexivity|]. split; reflexivity.
Qed.

(** C5. For a container [(cw, ch)] and a natural image size [(nw, nh)],
    all positive, with pan (0,0) and scale 1: the container corners
    (0,0) and (cw,ch), mapped by [mapDomToSource], span a source
    rectangle centred at (nw/2, nh/2), equal in size to the crop that
    cover-fit implies, and so of the aspect ratio of the container. *)
Theorem C5_corner_mapping_centred (cw ch nw nh : number) :
  0 < cw -> 0 < ch -> 0 < nw -> 0 < nh ->
  let topLeft :=
    ImageCropper.mapDomToSource cw ch nw nh (ImageCropper.mkPoint 0 0) 1 0 0 in
  let bottomRight :=
    ImageCropper.mapDomToSource cw ch nw nh (ImageCropper.mkPoint 0 0) 1 cw ch in
  let sw := ImageCropper.px bottomRight - ImageCropper.px topLeft in
  let sh := ImageCropper.py bottomRight - ImageCropper.py topLeft in
  (ImageCropper.px topLeft + ImageCropper.px bottomRight) / 2 == nw / 2 /\
  (ImageCropper.py topLeft + ImageCropper.py bottomRight) / 2 == nh / 2 /\
  sw == fst (Spec.coverFitCrop cw ch nw nh) /\
  sh == snd (Spec.coverFitCrop cw ch nw nh) /\
  sw / sh == fst (Spec.coverFitCrop cw ch nw nh) / snd (Spec.coverFitCrop cw ch nw nh) /\
  sw / sh == cw / ch.
Proof.
  intros Hcw Hch Hnw Hnh topLeft bottomRight sw sh.
  assert (Hsw : sw == fst (Spec.coverFitCrop cw ch nw nh)).
  { subst sw topLeft bottomRight.
    unfold ImageCropper.mapDomToSource, ImageCropper.baseRenderedSize, Spec.coverFitCrop.
    destruct (Qgtb (nw / nh) (cw / ch));
      cbn [fst snd ImageCropper.px ImageCropper.py]; field; qnz. }
  assert (Hsh : sh == snd (Spec.coverFitCrop cw ch nw nh)).
  { subst sh topLeft bottomRight.
    unfold ImageCropper.mapDomToSource, ImageCropper.baseRenderedSize, Spec.coverFitCrop.
    destruct (Qgtb (nw / nh) (cw / ch));
      cbn [fst snd ImageCropper.px ImageCropper.py]; field; qnz. }
  split; [|split; [|split; [exact Hsw|split; [exact Hsh|split]]]].
  - subst topLeft bottomRight.
    unfold ImageCropper.mapDomToSource, ImageCropper.baseRenderedSize.
    destruct (Qgtb (nw / nh) (cw / ch));
      cbn [fst snd ImageCropper.px ImageCropper.py]; field; qnz.
  - subst topLeft bottomRight.
    unfold ImageCropper.mapDomToSource, ImageCropper.baseRenderedSize.
    destruct (Qgtb (nw / nh) (cw / ch));
      cbn [fst snd ImageCropper.px ImageCropper.py]; field; qnz.
  - now rewrite Hsw, Hsh.
  - rewrite Hsw, Hsh. unfold Spec.coverFitCrop.
    destruct (Qgtb (nw / nh) (cw / ch)); cbn [fst snd]; field; qnz.
Qed.

(** A 2000 x 1000 image in a 400 x 400 window. *)
Lemma C5_corner_mapping_centred_witness :
  (0 < 400 /\ 0 < 400 /\ 0 < 2000 /\ 0 < 1000) /\
  let topLeft :=
    ImageCropper.mapDomToSource 400 400 2000 1000 (ImageCropper.mkPoint 0 0) 1 0 0 in
  let bottomRight :=
    ImageCropper.mapDomToSource 400 400 2000 1000 (ImageCropper.mkPoint 0 0) 1 400 400 in
  let sw := ImageCropper.px bottomRight - ImageCropper.px topLeft in
  let sh := ImageCropper.py bottomRight - ImageCropper.py topLeft in
  (ImageCropper.px topLeft + ImageCropper.px bottomRight) / 2 == 2000 / 2 /\
  (ImageCropper.py topLeft + ImageCropper.py bottomRight) / 2 == 1000 / 2 /\
  sw == fst (Spec.coverFitCrop 400 400 2000 1000) /\
  sh == snd (Spec.coverFitCrop 400 400 2000 1000) /\
  sw / sh == fst (Spec.coverFitCrop 400 400 2000 1000)
             / snd (Spec.coverFitCrop 400 400 2000 1000) /\
  sw / sh == 400 / 400.
Proof.
  split.
  - repeat split.
  - apply (C5_corner_mapping_centred 400 400 2000 1000); reflexivity.
Defined.

(** Scenario A of the specification: the save of that image at the
    reset transform reads the centre 1000 x 1000 region. *)
Example scenario_A_source_rectangle :
  option_map
    (fun r => (Qred (ImageCropper.src_x r), Qred (ImageCropper.src_y r),
               Qred (ImageCropper.src_w r), Qred (ImageCropper.src_h r),
               Qred (ImageCropper.outputWidth r), Qred (ImageCropper.outputHeight r)))
    (ImageCropper.handleSave true SQUARE 400 400 Examples.loaded_2000x1000)
  = Some (500, 0, 1000, 1000, 1080, 1080).
Proof. reflexivity. Qed.

(** C2, as amended. For each of the four target ratios a committed crop
    computes an output of width 1080 and height 1080 / ratio, that is
    1440, 1080, 1920 and 607.5 for 3:4, 1:1, 9:16 and 16:9; width over
    height equals the target ratio; the long edge is 1080 exactly for
    1:1 and 16:9. *)
Theorem C2_output_width_1080 (a : AspectRatio) (cw ch : number)
        (st : ImageCropper.State) :
  ImageCropper.loaded (ImageCropper.imageDimensions st) = true ->
  exists r,
    ImageCropper.handleSave true a cw ch st = Some r /\
    ImageCropper.outputWidth r == 1080 /\
    ImageCropper.outputHeight r ==
      match a with
      | VERTICAL => 1440 | SQUARE => 1080 | PORTRAIT => 1920 | LANDSCAPE => 1215 / 2
      end /\
    ImageCropper.outputWidth r / ImageCropper.outputHeight r
      == ImageCropper.RATIO_MULTIPLIERS a /\
    ImageCropper.RATIO_MULTIPLIERS a ==
      match a with
      | VERTICAL => 3 / 4 | SQUARE => 1 | PORTRAIT => 9 / 16 | LANDSCAPE => 16 / 9
      end /\
    (Qmax (ImageCropper.outputWidth r) (ImageCropper.outputHeight r) == 1080
     <-> a = SQUARE \/ a = LANDSCAPE).
Proof.
  intros Hl. unfold ImageCropper.handleSave. rewrite Hl. cbn [negb orb].
  eexists. split; [reflexivity|].
  cbn [ImageCropper.outputWidth ImageCropper.outputHeight].
  destruct a; (split; [reflexivity|split; [reflexivity|split;
    [reflexivity|split; [reflexivity|]]]]).
  - split; [intros _; now right|intros _; reflexivity].
  - split; [intros H; discriminate H|intros [H|H]; discriminate H].
  - split; [intros _; now left|intros _; reflexivity].
  - split; [intros H; discriminate H|intros [H|H]; discriminate H].
Qed.

Lemma C2_output_width_1080_witness :
  ImageCropper.loaded (ImageCropper.imageDimensions Examples.loaded_2000x1000) = true /\
  exists r,
    ImageCropper.handleSave true PORTRAIT 225 400 Examples.loaded_2000x1000 = Some r /\
    ImageCropper.outputWidth r == 1080 /\
    ImageCropper.outputHeight r == 1920 /\
    ImageCropper.outputWidth r / ImageCropper.outputHeight r
      == ImageCropper.RATIO_MULTIPLIERS PORTRAIT /\
    ImageCropper.RATIO_MULTIPLIERS PORTRAIT == 9 / 16 /\
    (Qmax (ImageCropper.outputWidth r) (ImageCropper.outputHeight r) == 1080
     <-> PORTRAIT = SQUARE \/ PORTRAIT = LANDSCAPE).
Proof.
  split; [reflexivity|].
  exact (C2_output_width_1080 PORTRAIT 225 400 Examples.loaded_2000x1000 eq_refl).
Defined.

(** C2 as stated fails for 3:4: the output is 1080 x 1440, so the long
    edge is 1440 and not 1080. *)
Lemma C2_vertical_long_edge_is_1440 :
  option_map
    (fun r => (Qred (ImageCropper.outputWidth r), Qred (ImageCropper.outputHeight r),
               Qeq_bool (Qmax (ImageCropper.outputWidth r) (ImageCropper.outputHeight r))
                        1080))
    (ImageCropper.handleSave true VERTICAL 300 400 Examples.loaded_2000x1000)
  = Some (1080, 1440, false).
Proof. reflexivity. Qed.

(** ** The overlay drags *)

Section DragFacts.

Local Open Scope string_scope.

Lemma moved_moved (id0 : string) (a b a' b' : number) (s : Sticker.t) :
  App.moved id0 a' b' (App.moved id0 a b s) = App.moved id0 a' b' s.
Proof.
  unfold App.moved. destruct (Sticker.id s =? id0) eqn:E.
  - cbn [Sticker.spread Sticker.id StickerOverlay.position_changes
         Sticker.p_id Sticker.over]. rewrite E. reflexivity.
  - rewrite E. reflexivity.
Qed.

Lemma stickerPointerMove_moved (down e : PointerEvent) (rect : DOMRect)
      (sticker : Sticker.t) (st : App.State) :
  App.stickers
    (App.stickerPointerMove (StickerOverlay.handlePointerDown down sticker)
                            (Some rect) e st)
  = map (App.moved (Sticker.id sticker)
           (Spec.dragged (Sticker.x sticker) (clientX down) (clientX e) (rect_width rect))
           (Spec.dragged (Sticker.y sticker) (clientY down) (clientY e) (rect_height rect)))
        (App.stickers st).
Proof. reflexivity. Qed.

(** During a drag the list is the initial one, or the initial one with
    the dragged sticker moved. *)
Lemma stickerDrag_shape (down : PointerEvent) (sticker : Sticker.t)
      (moves : list (PointerEvent * DOMRect)) (st : App.State) :
  App.stickers (App.stickerDrag down sticker moves st) = App.stickers st \/
  exists a b,
    App.stickers (App.stickerDrag down sticker moves st)
    = map (App.moved (Sticker.id sticker) a b) (App.stickers st).
Proof.
  unfold App.stickerDrag.
  induction moves as [|[e rect] moves IH] using rev_ind; [now left|].
  right. rewrite fold_left_app. cbn [fold_left fst snd].
  rewrite stickerPointerMove_moved. do 2 eexists.
  destruct IH as [IH|(a & b & IH)]; rewrite IH; [reflexivity|].
  rewrite map_map. apply map_ext. intros s. apply moved_moved.
Qed.

Lemma layoutPointerMove_title (c0 : LayoutConfig.t) (down e : PointerEvent)
      (rect : DOMRect) (st : App.State) :
  App.layoutConfig
    (App.layoutPointerMove
       (LayoutEditorOverlay.handlePointerDown c0 down LayoutEditorOverlay.title)
       (Some rect) e st)
  = option_map
      (fun c => LayoutConfig.spread c
         (LayoutEditorOverlay.title_changes
            (Spec.dragged (LayoutEditorOverlay.titleX c0) (clientX down) (clientX e)
                          (rect_width rect))
            (Spec.dragged (LayoutEditorOverlay.titleY c0) (clientY down) (clientY e)
                          (rect_height rect))))
      (App.layoutConfig st).
Proof.
  unfold App.layoutPointerMove, App.handleUpdateLayout.
  cbn [LayoutEditorOverlay.handlePointerDown LayoutEditorOverlay.handlePointerMove
       LayoutEditorOverlay.type LayoutEditorOverlay.startX LayoutEditorOverlay.startY
       LayoutEditorOverlay.initX LayoutEditorOverlay.initY].
  destruct (App.layoutConfig st) eqn:E; cbn [option_map App.layoutConfig];
    [reflexivity|exact E].
Qed.

Lemma layoutPointerMove_subtitle (c0 : LayoutConfig.t) (down e : PointerEvent)
      (rect : DOMRect) (st : App.State) :
  App.layoutConfig
    (App.layoutPointerMove
       (LayoutEditorOverlay.handlePointerDown c0 down LayoutEditorOverlay.subtitle)
       (Some rect) e st)
  = option_map
      (fun c => LayoutConfig.spread c
         (LayoutEditorOverlay.subtitle_changes
            (Spec.dragged (LayoutEditorOverlay.subX c0) (clientX down) (clientX e)
                          (rect_width rect))
            (Spec.dragged (LayoutEditorOverlay.subY c0) (clientY down) (clientY e)
                          (rect_height rect))))
      (App.layoutConfig st).
Proof.
  unfold App.layoutPointerMove, App.handleUpdateLayout.
  cbn [LayoutEditorOverlay.handlePointerDown LayoutEditorOverlay.handlePointerMove
       LayoutEditorOverlay.type LayoutEditorOverlay.startX LayoutEditorOverlay.startY
       LayoutEditorOverlay.initX LayoutEditorOverlay.initY].
  destruct (App.layoutConfig st) eqn:E; cbn [option_map App.layoutConfig];
    [reflexivity|exact E].
Qed.

(** During a drag of the title or of the subtitle the config is the one
    at pointer-down, or that one with the dragged pair replaced. *)
Lemma layoutDrag_title_shape (c : LayoutConfig.t) (down : PointerEvent)
      (moves : list (PointerEvent * DOMRect)) (st : App.State) :
  App.layoutConfig st = Some c ->
  App.layoutConfig (App.layoutDrag LayoutEditorOverlay.title down moves st) = Some c \/
  exists a b,
    App.layoutConfig (App.layoutDrag LayoutEditorOverlay.title down moves st)
    = Some (LayoutConfig.spread c (LayoutEditorOverlay.title_changes a b)).
Proof.
  intros Hc. unfold App.layoutDrag. rewrite Hc.
  induction moves as [|[e rect] moves IH] using rev_ind; [now left|].
  right. rewrite fold_left_app. cbn [fold_left fst snd].
  rewrite layoutPointerMove_title. do 2 eexists.
  destruct IH as [IH|(a & b & IH)]; rewrite IH; reflexivity.
Qed.

Lemma layoutDrag_subtitle_shape (c : LayoutConfig.t) (down : PointerEvent)
      (moves : list (PointerEvent * DOMRect)) (st : App.State) :
  App.layoutConfig st = Some c ->
  App.layoutConfig (App.layoutDrag LayoutEditorOverlay.subtitle down moves st) = Some c \/
  exists a b,
    App.layoutConfig (App.layoutDrag LayoutEditorOverlay.subtitle down moves st)
    = Some (LayoutConfig.spread c (LayoutEditorOverlay.subtitle_changes a b)).
Proof.
  intros Hc. unfold App.layoutDrag. rewrite Hc.
  induction moves as [|[e rect] moves IH] using rev_ind; [now left|].
  right. rewrite fold_left_app. cbn [fold_left fst snd].
  rewrite layoutPointerMove_subtitle. do 2 eexists.
  destruct IH as [IH|(a & b & IH)]; rewrite IH; reflexivity.
Qed.

End DragFacts.

(** C6. A drag of a sticker, of the title or of the subtitle that ends
    with the pointer at [e] over a container of size [rect] leaves the
    element at its position at pointer-down plus the pixel delta from
    the start point over the container width (height), times 100, on
    each axis; nothing clamps the result, and nothing else of the
    sticker or of the layout changes. The position at pointer-down is
    the stored one; for a title without stored coordinates it is the
    (50, 50) the overlay shows it at, for a subtitle without them the
    title's x and the title's y plus 15. A sticker at x = 50 dragged by
    +100px in a container 400px wide ends at x = 75. *)
Theorem C6_drag_sets_initial_plus_delta
        (down e : PointerEvent) (rect : DOMRect)
        (moves : list (PointerEvent * DOMRect)) (st : App.State) :
  0 < rect_width rect -> 0 < rect_height rect ->
  let nx init := Spec.dragged init (clientX down) (clientX e) (rect_width rect) in
  let ny init := Spec.dragged init (clientY down) (clientY e) (rect_height rect) in
  let or_default (o : option number) (d : number) :=
    match o with Some v => v | None => d end in
  (forall sticker : Sticker.t,
      App.stickers (App.stickerDrag down sticker (moves ++ [(e, rect)]) st)
      = map (fun s =>
               if (Sticker.id s =? Sticker.id sticker)%string
               then Sticker.mk (Sticker.id s) (Sticker.type s) (Sticker.content s)
                               (nx (Sticker.x sticker)) (ny (Sticker.y sticker))
                               (Sticker.scale s) (Sticker.rotation s)
               else s)
            (App.stickers st)) /\
  (forall c : LayoutConfig.t,
      App.layoutConfig st = Some c ->
      let x0 := or_default (LayoutConfig.x c) 50 in
      let y0 := or_default (LayoutConfig.y c) 50 in
      App.layoutConfig
        (App.layoutDrag LayoutEditorOverlay.title down (moves ++ [(e, rect)]) st)
      = Some (LayoutConfig.mk
                (LayoutConfig.subtitle c) (LayoutConfig.textColor c)
                (LayoutConfig.shadowColor c) (LayoutConfig.fontStyle c)
                (LayoutConfig.position c) (LayoutConfig.veoPrompt c)
                (Some (nx x0)) (Some (ny y0))
                (LayoutConfig.subtitleX c) (LayoutConfig.subtitleY c)
                (LayoutConfig.scale c) (LayoutConfig.titleBackgroundColor c)
                (LayoutConfig.subtitleTextColor c)
                (LayoutConfig.subtitleBackgroundColor c)
                (LayoutConfig.filter c) (LayoutConfig.fontFamily c))) /\
  (forall c : LayoutConfig.t,
      App.layoutConfig st = Some c ->
      let x0 := or_default (LayoutConfig.subtitleX c) (or_default (LayoutConfig.x c) 50) in
      let y0 :=
        or_default (LayoutConfig.subtitleY c) (or_default (LayoutConfig.y c) 50 + 15) in
      App.layoutConfig
        (App.layoutDrag LayoutEditorOverlay.subtitle down (moves ++ [(e, rect)]) st)
      = Some (LayoutConfig.mk
                (LayoutConfig.subtitle c) (LayoutConfig.textColor c)
                (LayoutConfig.shadowColor c) (LayoutConfig.fontStyle c)
                (LayoutConfig.position c) (LayoutConfig.veoPrompt c)
                (LayoutConfig.x c) (LayoutConfig.y c)
                (Some (nx x0)) (Some (ny y0))
                (LayoutConfig.scale c) (LayoutConfig.titleBackgroundColor c)
                (LayoutConfig.subtitleTextColor c)
                (LayoutConfig.subtitleBackgroundColor c)
                (LayoutConfig.filter c) (LayoutConfig.fontFamily c))) /\
  (forall start : number, Spec.dragged 50 start (start + 100) 400 == 75) /\
  (forall start : number, Spec.dragged 50 start (start + 400) 400 == 150).
Proof.
  intros Hw Hh nx ny or_default. split; [|split; [|split; [|split]]].
  - intros sticker. unfold App.stickerDrag.
    rewrite fold_left_app. cbn [fold_left fst snd].
    rewrite stickerPointerMove_moved.
    fold (App.stickerDrag down sticker moves st).
    destruct (stickerDrag_shape down sticker moves st) as [H|(a & b & H)];
      rewrite H; [reflexivity|].
    rewrite map_map. apply map_ext. intros s. apply moved_moved.
  - intros c Hc x0 y0.
    destruct (layoutDrag_title_shape c down moves st Hc) as [H|(a & b & H)];
      unfold App.layoutDrag in *; rewrite Hc in *;
      rewrite fold_left_app; cbn [fold_left fst snd];
      rewrite layoutPointerMove_title, H; reflexivity.
  - intros c Hc x0 y0.
    destruct (layoutDrag_subtitle_shape c down moves st Hc) as [H|(a & b & H)];
      unfold App.layoutDrag in *; rewrite Hc in *;
      rewrite fold_left_app; cbn [fold_left fst snd];
      rewrite layoutPointerMove_subtitle, H; reflexivity.
  - intros start. unfold Spec.dragged. field.
  - intros start. unfold Spec.dragged. field.
Qed.

(** Scenario C of the specification: a sticker at (50, 50), grabbed at
    (10, 20) and released at (110, 20) over a 400 x 300 overlay, ends at
    (75, 50). A title seeded at (50, 80), dragged by (+100px, +30px)
    over the same overlay, ends at (75, 90). *)
Lemma C6_drag_sets_initial_plus_delta_witness :
  (0 < 400 /\ 0 < 300) /\
  map (fun s => (Qred (Sticker.x s), Qred (Sticker.y s)))
      (App.stickers
         (App.stickerDrag (mkPointerEvent 10 20) Examples.new_badge
            ([(mkPointerEvent 60 20, mkDOMRect 400 300)]
               ++ [(mkPointerEvent 110 20, mkDOMRect 400 300)])
            Examples.with_new_badge))
  = [(75, 50)] /\
  option_map
    (fun c => (option_map Qred (LayoutConfig.x c), option_map Qred (LayoutConfig.y c),
               LayoutConfig.subtitleX c, LayoutConfig.subtitleY c))
    (App.layoutConfig
       (App.layoutDrag LayoutEditorOverlay.title (mkPointerEvent 10 20)
          ([(mkPointerEvent 60 20, mkDOMRect 400 300)]
             ++ [(mkPointerEvent 110 50, mkDOMRect 400 300)])
          (App.handleGenerateLayout (LayoutService.Returned LayoutService.fallback)
             Examples.titled)))
  = Some (Some 75, Some 90, Some 50, Some 90).
Proof.
  split; [split; reflexivity|]. split.
  - rewrite (proj1 (C6_drag_sets_initial_plus_delta
                      (mkPointerEvent 10 20) (mkPointerEvent 110 20) (mkDOMRect 400 300)
                      [(mkPointerEvent 60 20, mkDOMRect 400 300)]
                      Examples.with_new_badge eq_refl eq_refl) Examples.new_badge).
    reflexivity.
  - rewrite (proj1 (proj2 (C6_drag_sets_initial_plus_delta
                      (mkPointerEvent 10 20) (mkPointerEvent 110 50) (mkDOMRect 400 300)
                      [(mkPointerEvent 60 20, mkDOMRect 400 300)]
                      (App.handleGenerateLayout
                         (LayoutService.Returned LayoutService.fallback) Examples.titled)
                      eq_refl eq_refl))
                   (App.seededLayout LayoutService.fallback "none") eq_refl).
    reflexivity.
Defined.

(** ** The layout service and the seeded layout *)

(** C7, as amended. The service tells a key error from any other by
    the text of the message alone: it looks for three markers. When the
    request fails with a message that holds none of them (or with no
    message), or when the page runs outside the AI Studio host,
    [generateLayoutConfig] returns the fixed fallback, whose six
    required fields are set and not empty, and throws nothing. When the
    message holds a marker and the host is there, the key dialog is
    opened and no fallback is returned: once the dialog call is over the
    key-required error is thrown (if the dialog call itself fails, its
    error is). The premise is that the request was made, so that the
    key check and the client constructor before the [try] block did not
    throw. *)
Theorem C7_fallback_or_key_required (h : LayoutService.Host) (message : option string) :
  snd (LayoutService.ensureApiKey h) = None ->
  LayoutService.client h = AIStudio.Resolves tt ->
  let text := match message with Some m => m | None => EmptyString end in
  let marked :=
    (includes text "Requested entity was not found"
     || includes text "API key not valid"
     || includes text "403")%bool%string in
  let r := LayoutService.generateLayoutConfig h (LayoutService.Thrown message) in
  (marked = false \/ LayoutService.aistudio h = None ->
   snd r = LayoutService.Returned LayoutService.fallback /\
   (In LayoutService.openSelectKey (fst r) ->
    In LayoutService.openSelectKey (fst (LayoutService.ensureApiKey h)))) /\
  (forall studio,
      marked = true -> LayoutService.aistudio h = Some studio ->
      snd r
      = LayoutService.Threw
          match AIStudio.openSelectKeyAgain studio with
          | AIStudio.Resolves _ => Some "API Key required. Please select a key."%string
          | AIStudio.Rejects e => e
          end /\
      exists before, fst r = (before ++ [LayoutService.consoleError;
                                         LayoutService.openSelectKey])%list) /\
  LayoutService.requiredFields LayoutService.fallback
  = ["爆款封面"; "#FFFFFF"; "#000000"; "bottom"; "bold";
     "Cinematic slow motion, keep text static."]%string /\
  Forall (fun s => s <> EmptyString)
         (LayoutService.requiredFields LayoutService.fallback).
Proof.
  intros Hkey Hclient text marked r.
  assert (Hm : LayoutService.isApiKeyError message = marked).
  { subst marked text. destruct message as [m|]; [|reflexivity].
    cbn [LayoutService.isApiKeyError].
    destruct m as [|a m]; [reflexivity|]. reflexivity. }
  subst r. unfold LayoutService.generateLayoutConfig, LayoutService.catchBlock.
  destruct (LayoutService.ensureApiKey h) as [pre out]. cbn [snd fst] in *.
  subst out. rewrite Hclient, Hm.
  split; [|split; [|split]].
  - intros [H|H].
    + rewrite H. cbn [fst snd]. split; [reflexivity|].
      rewrite in_app_iff. cbn [In]. intuition discriminate.
    + rewrite H. destruct marked; cbn [fst snd]; (split; [reflexivity|]);
        rewrite in_app_iff; cbn [In]; intuition discriminate.
  - intros studio H1 H2. rewrite H1, H2. cbn [fst snd]. split.
    + now destruct (AIStudio.openSelectKeyAgain studio).
    + now exists pre.
  - reflexivity.
  - repeat constructor; discriminate.
Qed.

(** Inside a host that has a key: a timeout is answered with the
    fallback, an invalid-key error with the key-required error. *)
Lemma C7_fallback_or_key_required_witness :
  let studio := AIStudio.mk (AIStudio.Resolves true) (AIStudio.Resolves tt)
                            (AIStudio.Resolves tt) in
  let h := LayoutService.mkHost (Some studio) (AIStudio.Resolves tt) in
  snd (LayoutService.generateLayoutConfig h
         (LayoutService.Thrown (Some "Request timed out."%string)))
  = LayoutService.Returned LayoutService.fallback /\
  snd (LayoutService.generateLayoutConfig h
         (LayoutService.Thrown
            (Some "API key not valid. Please pass a valid API key."%string)))
  = LayoutService.Threw (Some "API Key required. Please select a key."%string).
Proof.
  intros studio h. split.
  - exact (proj1 (proj1 (C7_fallback_or_key_required h
                           (Some "Request timed out."%string) eq_refl eq_refl)
                        (or_introl eq_refl))).
  - exact (proj1 (proj1 (proj2 (C7_fallback_or_key_required h
                           (Some "API key not valid. Please pass a valid API key."%string)
                           eq_refl eq_refl))
                        studio eq_refl eq_refl)).
Defined.

(** C7 as stated fails on both sides. Outside the AI Studio host an
    invalid-key error is answered with the fallback and nothing is
    thrown. Inside the host a timeout whose message holds the digits 403
    is taken for a key error: the key-required error is thrown and no
    fallback is returned. *)
Lemma C7_error_class_does_not_decide :
  LayoutService.generateLayoutConfig
    (LayoutService.mkHost None (AIStudio.Resolves tt))
    (LayoutService.Thrown (Some "API key not valid. Please pass a valid API key."%string))
  = ([LayoutService.consoleError], LayoutService.Returned LayoutService.fallback) /\
  LayoutService.generateLayoutConfig
    (LayoutService.mkHost
       (Some (AIStudio.mk (AIStudio.Resolves true) (AIStudio.Resolves tt)
                          (AIStudio.Resolves tt)))
       (AIStudio.Resolves tt))
    (LayoutService.Thrown (Some "Request timed out after 14035 ms"%string))
  = ([LayoutService.consoleError; LayoutService.openSelectKey],
     LayoutService.Threw (Some "API Key required. Please select a key."%string)).
Proof. split; reflexivity. Qed.

(** The handler run without interruption is its first part followed at
    once by its continuation, which then finds the [activeFilter] it
    closed over still active. *)
Lemma handleGenerateLayout_parts (service : LayoutService.Result) (st : App.State) :
  App.handleGenerateLayout service st
  = if Page.callsLayout st
    then Page.step (Page.step st Page.EvGenerateLayout)
                   (Page.EvLayoutDone (App.activeFilter st) service)
    else st.
Proof.
  unfold App.handleGenerateLayout, Page.callsLayout. cbn [Page.step].
  unfold Page.callsLayout.
  destruct (App.theme st =? "")%string; [reflexivity|]. cbn [negb].
  destruct st, service; reflexivity.
Qed.

(** C8. When a generated config is received (the theme is not empty and
    the service returned), the stored layout has x = subtitleX = 50 and
    (y, subtitleY) = (20, 30) for top, (80, 90) for bottom, (15, 85) for
    split and (50, 65) for center; for the hint bottom, (x, y) = (50, 80)
    and (subtitleX, subtitleY) = (50, 90). *)
Theorem C8_seeded_positions (config : LayoutConfig.t) (st : App.State) :
  App.theme st <> EmptyString ->
  exists l,
    App.layoutConfig (App.handleGenerateLayout (LayoutService.Returned config) st)
    = Some l /\
    App.appState (App.handleGenerateLayout (LayoutService.Returned config) st)
    = PREVIEW /\
    LayoutConfig.position l = LayoutConfig.position config /\
    LayoutConfig.x l = Some 50 /\
    LayoutConfig.subtitleX l = Some 50 /\
    (LayoutConfig.y l, LayoutConfig.subtitleY l)
    = match LayoutConfig.position config with
      | pos_top => (Some 20, Some 30)
      | pos_bottom => (Some 80, Some 90)
      | pos_split => (Some 15, Some 85)
      | pos_center => (Some 50, Some 65)
      end /\
    (LayoutConfig.position config = pos_bottom ->
     (LayoutConfig.x l, LayoutConfig.y l) = (Some 50, Some 80) /\
     (LayoutConfig.subtitleX l, LayoutConfig.subtitleY l) = (Some 50, Some 90)).
Proof.
  intros Ht. unfold App.handleGenerateLayout.
  destruct (App.theme st =? "")%string eqn:E.
  - apply String.eqb_eq in E. contradiction.
  - eexists. split; [reflexivity|]. cbn [App.appState].
    split; [reflexivity|].
    unfold App.seededLayout.
    destruct (LayoutConfig.position config) eqn:P;
      cbn [LayoutConfig.position LayoutConfig.x LayoutConfig.y
           LayoutConfig.subtitleX LayoutConfig.subtitleY];
      do 4 (split; [reflexivity|]);
      intros Q; first [discriminate Q|split; reflexivity].
Qed.

(** Scenario B of the specification: the title OOTD and a config with
    the hint bottom (the fallback config has it). *)
Lemma C8_seeded_positions_witness :
  App.theme Examples.titled <> EmptyString /\
  exists l,
    App.layoutConfig
      (App.handleGenerateLayout (LayoutService.Returned LayoutService.fallback)
                                Examples.titled) = Some l /\
    App.appState
      (App.handleGenerateLayout (LayoutService.Returned LayoutService.fallback)
                                Examples.titled) = PREVIEW /\
    LayoutConfig.position l = pos_bottom /\
    LayoutConfig.x l = Some 50 /\
    LayoutConfig.subtitleX l = Some 50 /\
    (LayoutConfig.y l, LayoutConfig.subtitleY l) = (Some 80, Some 90) /\
    (pos_bottom = pos_bottom ->
     (LayoutConfig.x l, LayoutConfig.y l) = (Some 50, Some 80) /\
     (LayoutConfig.subtitleX l, LayoutConfig.subtitleY l) = (Some 50, Some 90)).
Proof.
  assert (H : App.theme Examples.titled <> EmptyString) by discriminate.
  split; [exact H|].
  exact (C8_seeded_positions LayoutService.fallback Examples.titled H).
Defined.

(** ** Runs of the page *)

Lemma reaches_from (es : list Page.Event) :
  forall l, Page.reaches l -> Page.admits l es = true ->
            Page.reaches (fold_left Page.after es l).
Proof.
  induction es as [|e es IH]; intros l Hl Hes; [exact Hl|].
  cbn [Page.admits] in Hes. apply andb_true_iff in Hes as [He Hes]. cbn [fold_left].
  apply IH; [now apply Page.reaches_after|exact Hes].
Qed.

Lemma reaches_live (es : list Page.Event) :
  Page.admits Page.initial es = true -> Page.reaches (Page.live es).
Proof. apply reaches_from. constructor. Qed.

Lemma reachable_run_page (es : list Page.Event) :
  Page.admits Page.initial es = true -> Page.reachable (Page.run es).
Proof. intros H. exists (Page.live es). split; [now apply reaches_live|reflexivity]. Qed.

(** ** Sticker ids *)

Section StickerIds.

Local Open Scope string_scope.

Lemma to_int_not_nil (n : Z) :
  Z.to_int n <> Decimal.Pos Decimal.Nil /\ Z.to_int n <> Decimal.Neg Decimal.Nil.
Proof.
  destruct n as [|p|p]; simpl; split; try discriminate;
    intros H; injection H as H; exact (Unsigned.to_uint_nonnil p H).
Qed.

(** Distinct integers have distinct decimal numerals. *)
Lemma toString_inj : Injective App.toString.
Proof.
  intros a b H. unfold App.toString in H.
  apply DecimalZ.to_int_inj.
  assert (Ha := NilZero.isi (Z.to_int a) (proj1 (to_int_not_nil a))
                            (proj2 (to_int_not_nil a))).
  assert (Hb := NilZero.isi (Z.to_int b) (proj1 (to_int_not_nil b))
                            (proj2 (to_int_not_nil b))).
  rewrite H in Ha. rewrite Ha in Hb. now injection Hb.
Qed.

Lemma handleAddSticker_stickers (content : string) (now : Z) (st : App.State) :
  App.stickers (App.handleAddSticker content now st)
  = (App.stickers st ++ [App.newSticker content now])%list.
Proof. unfold App.handleAddSticker. destruct (App.appState st); reflexivity. Qed.

Lemma addStickers_stickers (adds : list (string * Z)) (st : App.State) :
  App.stickers (App.addStickers adds st)
  = (App.stickers st
       ++ map (fun a => App.newSticker (fst a) (snd a)) adds)%list.
Proof.
  unfold App.addStickers. revert st.
  induction adds as [|a adds IH]; intros st; simpl.
  - now rewrite app_nil_r.
  - rewrite IH, handleAddSticker_stickers, <- app_assoc. reflexivity.
Qed.

(** In a list without repeated ids, an id addresses one sticker. *)
Lemma filter_by_id (l : list Sticker.t) (s : Sticker.t) :
  NoDup (map Sticker.id l) -> In s l ->
  filter (fun t => Sticker.id t =? Sticker.id s) l = [s].
Proof.
  induction l as [|t l IH]; intros Hnd Hin; [contradiction|].
  simpl in Hnd. inversion Hnd as [|? ? Hnotin Hnd']; subst.
  simpl. destruct Hin as [->|Hin].
  - rewrite String.eqb_refl. f_equal.
    clear IH Hnd Hnd'. induction l as [|u l IHl]; [reflexivity|].
    simpl in *. destruct (Sticker.id u =? Sticker.id s) eqn:E.
    + apply String.eqb_eq in E. exfalso. apply Hnotin. now left.
    + apply IHl. intros H. apply Hnotin. now right.
  - destruct (Sticker.id t =? Sticker.id s) eqn:E.
    + apply String.eqb_eq in E. exfalso. apply Hnotin. rewrite E.
      now apply in_map.
    + now apply IH.
Qed.

End StickerIds.

(** When the clock readings of a sequence of add-sticker actions are
    pairwise distinct, so are the ids, and an id addresses one sticker
    of the list. *)
Lemma distinct_clock_distinct_ids (adds : list (string * Z)) (st : App.State) :
  App.stickers st = [] ->
  NoDup (map snd adds) ->
  let st' := App.addStickers adds st in
  NoDup (map Sticker.id (App.stickers st')) /\
  (forall s, In s (App.stickers st') ->
     filter (fun t => (Sticker.id t =? Sticker.id s)%string) (App.stickers st') = [s]) /\
  (forall s, In s (App.stickers st') ->
     S (List.length (App.stickers (App.handleRemoveSticker (Sticker.id s) st')))
     = List.length (App.stickers st')).
Proof.
  intros Hempty Hnd st'.
  assert (Hids : NoDup (map Sticker.id (App.stickers st'))).
  { subst st'. rewrite addStickers_stickers, Hempty. cbn [app].
    rewrite map_map. cbn [App.newSticker Sticker.id].
    rewrite <- (map_map snd App.toString).
    apply Injective_map_NoDup; [exact toString_inj|exact Hnd]. }
  split; [exact Hids|]. split.
  - intros s Hs. now apply filter_by_id.
  - intros s Hs. cbn [App.handleRemoveSticker App.setStickers App.stickers].
    assert (Hlen := filter_length (fun t => (Sticker.id t =? Sticker.id s)%string)
                                  (App.stickers st')).
    rewrite (filter_by_id _ _ Hids Hs) in Hlen. cbn [List.length] in Hlen.
    exact Hlen.
Qed.

(** C9, the failing input. On a page that previews a cover, two clicks
    on sticker presets that read the same millisecond give two stickers
    with one id. The ids of the list are then not pairwise distinct,
    and an action addressed by id no longer affects one sticker: the
    delete button of the first sticker removes both, and the plus button
    of the second makes both larger. *)
Theorem C9_same_millisecond_same_id :
  let clicks := (previewing
                   ++ [Page.EvAddSticker "NEW" 1700000000000;
                       Page.EvAddSticker "SALE" 1700000000000])%list%string in
  App.appState (Page.run previewing) = PREVIEW /\
  Page.reachable (Page.run clicks) /\
  map (fun s => (Sticker.id s, Sticker.content s)) (App.stickers (Page.run clicks))
  = [("1700000000000", "NEW"); ("1700000000000", "SALE")]%string /\
  (NoDup (map Sticker.id (App.stickers (Page.run clicks))) -> False) /\
  App.stickers (Page.run (clicks ++ [Page.EvStickerDelete 0])) = [] /\
  map (fun s => (Sticker.content s, Qred (Sticker.scale s)))
      (App.stickers (Page.run (clicks ++ [Page.EvStickerPlus 1])))
  = [("NEW", 1.1); ("SALE", 1.1)]%string.
Proof.
  intros clicks. split; [reflexivity|]. split.
  - apply reachable_run_page. reflexivity.
  - split; [reflexivity|]. split; [|split; reflexivity].
    intros H. inversion H as [|? ? Hnotin _]. apply Hnotin. now left.
Qed.

(** ** The compositor *)

Lemma exec_bind {A B} (m : Canvas2D.M A) (k : A -> Canvas2D.M B) (c : Canvas2D.Canvas) :
  Canvas2D.exec (Canvas2D.bind m k) c = Canvas2D.exec (k (fst (m c))) (snd (m c)).
Proof. unfold Canvas2D.exec, Canvas2D.bind. now destruct (m c). Qed.

(** Unfolds the operations of the canvas monad, and nothing numeric. *)
Ltac canvas_eval :=
  cbv beta iota zeta delta
    [Canvas2D.exec Canvas2D.bind Canvas2D.ret Canvas2D.modify Canvas2D.paint
     Canvas2D.with_path Canvas2D.save Canvas2D.restore Canvas2D.when
     Canvas2D.set_fillStyle Canvas2D.set_strokeStyle Canvas2D.set_font
     Canvas2D.set_textAlign Canvas2D.set_textBaseline Canvas2D.set_lineJoin
     Canvas2D.set_miterLimit Canvas2D.set_lineWidth Canvas2D.set_filter
     Canvas2D.push_transform Canvas2D.translate Canvas2D.scale Canvas2D.rotateDeg
     Canvas2D.drawImage Canvas2D.fillRect Canvas2D.strokeText Canvas2D.fillText
     Canvas2D.beginPath Canvas2D.moveTo Canvas2D.lineTo Canvas2D.quadraticCurveTo
     Canvas2D.closePath Canvas2D.fill Canvas2D.get_font
     Canvas2D.width Canvas2D.height Canvas2D.state Canvas2D.path Canvas2D.saved
     Canvas2D.painted CoverCanvas.roundRect CoverCanvas.measureText
     fst snd].

(** Unfolds the field updates of a drawing state. *)
Ltac state_eval :=
  cbv beta iota zeta delta
    [Canvas2D.with_fillStyle Canvas2D.with_strokeStyle Canvas2D.with_font
     Canvas2D.with_textAlign Canvas2D.with_textBaseline Canvas2D.with_lineJoin
     Canvas2D.with_miterLimit Canvas2D.with_lineWidth Canvas2D.with_filter
     Canvas2D.with_transform
     Canvas2D.fillStyle Canvas2D.strokeStyle Canvas2D.font Canvas2D.textAlign
     Canvas2D.textBaseline Canvas2D.lineJoin Canvas2D.miterLimit Canvas2D.lineWidth
     Canvas2D.filter Canvas2D.imageSmoothingEnabled Canvas2D.transform].

Lemma drawSticker_exec (width height : number) (sticker : Sticker.t)
      (c : Canvas2D.Canvas) :
  Canvas2D.exec (CoverCanvas.drawSticker width height sticker) c
  = Canvas2D.add_paints
      (CoverCanvas.stickerPaints width height (Canvas2D.state c) sticker) c.
Proof.
  destruct c as [w h [fs ss fnt ta tb lj ml lw flt ise tr] pth sv pt].
  unfold CoverCanvas.drawSticker, CoverCanvas.stickerPaints, Canvas2D.add_paints.
  destruct (Sticker.type sticker); canvas_eval; state_eval.
  - rewrite <- !app_assoc. reflexivity.
  - now rewrite app_nil_r.
Qed.

Lemma add_paints_add_paints (ps qs : list Canvas2D.Paint) (c : Canvas2D.Canvas) :
  Canvas2D.add_paints qs (Canvas2D.add_paints ps c) = Canvas2D.add_paints (ps ++ qs) c.
Proof. unfold Canvas2D.add_paints. cbn. now rewrite app_assoc. Qed.

Lemma add_paints_nil (c : Canvas2D.Canvas) : Canvas2D.add_paints [] c = c.
Proof. destruct c. unfold Canvas2D.add_paints. cbn. now rewrite app_nil_r. Qed.

(** The sticker loop paints the stickers in list order, each from the
    state the loop was entered with. *)
Lemma forEach_drawSticker (width height : number) (stickers : list Sticker.t)
      (c : Canvas2D.Canvas) :
  Canvas2D.exec (Canvas2D.forEach stickers (CoverCanvas.drawSticker width height)) c
  = Canvas2D.add_paints
      (flat_map (CoverCanvas.stickerPaints width height (Canvas2D.state c)) stickers) c.
Proof.
  revert c. induction stickers as [|s l IH]; intros c.
  - cbn [flat_map Canvas2D.forEach]. now rewrite add_paints_nil.
  - cbn [flat_map Canvas2D.forEach]. rewrite exec_bind.
    change (snd (CoverCanvas.drawSticker width height s c))
      with (Canvas2D.exec (CoverCanvas.drawSticker width height s) c).
    rewrite drawSticker_exec, IH, add_paints_add_paints. reflexivity.
Qed.

(** The sticker loop draws the stickers one after the other, in list
    order. *)
Lemma forEach_in_order (width height : number) (stickers : list Sticker.t)
      (c : Canvas2D.Canvas) :
  Canvas2D.exec (Canvas2D.forEach stickers (CoverCanvas.drawSticker width height)) c
  = fold_left (fun c s => Canvas2D.exec (CoverCanvas.drawSticker width height s) c)
              stickers c.
Proof.
  revert c. induction stickers as [|s l IH]; intros c; [reflexivity|].
  cbn [Canvas2D.forEach fold_left]. rewrite exec_bind. apply IH.
Qed.

(** C4, as amended. The sticker layer draws the stickers in list order.
    A sticker of type emoji adds one paint: its content, filled at the
    local origin with centred alignment and middle baseline, in a serif
    font of size canvas width times 0.15, under the translation to its
    percentage-resolved position followed by its scale and its rotation;
    the drawing state is afterwards what it was. A sticker of type text
    is not drawn: the canvas stays as it was. *)
Theorem C4_sticker_layer_paints (width height : number) (stickers : list Sticker.t)
        (c : Canvas2D.Canvas) :
  Canvas2D.exec (Canvas2D.forEach stickers (CoverCanvas.drawSticker width height)) c
  = fold_left (fun c s => Canvas2D.exec (CoverCanvas.drawSticker width height s) c)
              stickers c /\
  (forall (s : Sticker.t) (c : Canvas2D.Canvas),
      Sticker.type s = emoji ->
      let now := Canvas2D.state c in
      Canvas2D.exec (CoverCanvas.drawSticker width height s) c
      = Canvas2D.mkCanvas
          (Canvas2D.width c) (Canvas2D.height c) now (Canvas2D.path c) (Canvas2D.saved c)
          (Canvas2D.painted c
             ++ [Canvas2D.FillText (Sticker.content s) 0 0
                   (Canvas2D.mkDrawState
                      (Canvas2D.fillStyle now) (Canvas2D.strokeStyle now)
                      (Canvas2D.mkFont None (width * 0.15) "serif")
                      "center" "middle"
                      (Canvas2D.lineJoin now) (Canvas2D.miterLimit now)
                      (Canvas2D.lineWidth now) (Canvas2D.filter now)
                      (Canvas2D.imageSmoothingEnabled now)
                      (Canvas2D.transform now
                         ++ [Canvas2D.Translate ((Sticker.x s / 100) * width)
                                                ((Sticker.y s / 100) * height);
                             Canvas2D.Scale (Sticker.scale s) (Sticker.scale s);
                             Canvas2D.RotateDeg (Sticker.rotation s)]))])%list) /\
  (forall (s : Sticker.t) (c : Canvas2D.Canvas),
      Sticker.type s = text ->
      Canvas2D.exec (CoverCanvas.drawSticker width height s) c = c).
Proof.
  split; [apply forEach_in_order|]. split.
  - intros s c0 Hs now. subst now. rewrite drawSticker_exec.
    unfold CoverCanvas.stickerPaints, Canvas2D.add_paints. rewrite Hs.
    destruct c0 as [w h [fs ss fnt ta tb lj ml lw flt ise tr] pth sv pt].
    reflexivity.
  - intros s c0 Hs. rewrite drawSticker_exec.
    unfold CoverCanvas.stickerPaints. rewrite Hs. apply add_paints_nil.
Qed.

(** C4 as stated fails: a text sticker, alone on a cleared 750 x 1000
    canvas, leaves the bitmap empty. *)
Example C4_text_sticker_not_painted :
  Canvas2D.painted
    (Canvas2D.exec (Canvas2D.forEach [Examples.text_sticker]
                      (CoverCanvas.drawSticker 750 1000))
                   (Canvas2D.resize 750 1000 Examples.blank))
  = [].
Proof. reflexivity. Qed.

(** C10. Whenever the layout text is drawn, the subtitle layer paints
    the drop-shadow pill, black at 0.3 opacity and offset by 4 pixels on
    both axes, then the background pill unless the effective background
    is transparent, then the subtitle text. The shadow pill is painted in
    the transparent case as well. *)
Theorem C10_shadow_pill_always_painted
        (text_width : Canvas2D.Font -> string -> number)
        (config : LayoutConfig.t) (title : string) (width height : number)
        (c : Canvas2D.Canvas) :
  let c1 := Canvas2D.exec (CoverCanvas.drawTitle text_width config title width height) c in
  let s := Canvas2D.with_font (CoverCanvas.subtitleFont config width height)
                              (Canvas2D.state c1) in
  let subX := CoverCanvas.subX config width height in
  let subY := CoverCanvas.subY config width height in
  let pillWidth := CoverCanvas.pillWidth text_width config width height in
  let pillHeight := CoverCanvas.pillHeight config width height in
  Canvas2D.painted
    (Canvas2D.exec (CoverCanvas.drawLayoutText text_width config title width height) c)
  = (Canvas2D.painted c1
       ++ [Canvas2D.Fill
             (CoverCanvas.roundRectPath (subX - pillWidth / 2 + 4)
                (subY - pillHeight / 2 + 4) pillWidth pillHeight (pillHeight / 2))
             (Canvas2D.with_fillStyle (Canvas2D.Color "rgba(0,0,0,0.3)") s)]
       ++ (if (CoverCanvas.subBgFinal config =? "transparent")%string
           then []
           else [Canvas2D.Fill
                   (CoverCanvas.roundRectPath (subX - pillWidth / 2)
                      (subY - pillHeight / 2) pillWidth pillHeight (pillHeight / 2))
                   (Canvas2D.with_fillStyle
                      (Canvas2D.Color (CoverCanvas.subBgFinal config)) s)])
       ++ [Canvas2D.FillText (LayoutConfig.subtitle config) subX subY
             (Canvas2D.with_fillStyle
                (Canvas2D.Color (CoverCanvas.subTextFinal config)) s)])%list.
Proof.
  intros c1 s subX subY pillWidth pillHeight.
  unfold CoverCanvas.drawLayoutText. rewrite exec_bind.
  change (snd (CoverCanvas.drawTitle text_width config title width height c)) with c1.
  subst s subX subY pillWidth pillHeight.
  unfold CoverCanvas.drawSubtitle, CoverCanvas.subX, CoverCanvas.subY,
    CoverCanvas.pillWidth, CoverCanvas.pillHeight, CoverCanvas.subtitleFont.
  destruct (CoverCanvas.fontSettings config) as [fontName fontWeight].
  destruct (CoverCanvas.subtitlePosition config width height) as [sx sy].
  generalize c1. clear c1. intros c1.
  destruct (CoverCanvas.subBgFinal config =? "transparent")%string;
    canvas_eval; cbn [negb];
    unfold Canvas2D.with_fillStyle, Canvas2D.with_font, CoverCanvas.roundRectPath;
    cbn [Canvas2D.fillStyle Canvas2D.strokeStyle Canvas2D.font Canvas2D.textAlign
         Canvas2D.textBaseline Canvas2D.lineJoin Canvas2D.miterLimit Canvas2D.lineWidth
         Canvas2D.filter Canvas2D.imageSmoothingEnabled Canvas2D.transform app];
    rewrite <- ?app_assoc; reflexivity.
Qed.

(** Drawing never changes the size of the canvas. *)

Lemma keeps_bind {A B} (m : Canvas2D.M A) (k : A -> Canvas2D.M B) :
  Canvas2D.keeps_size m -> (forall a, Canvas2D.keeps_size (k a)) -> Canvas2D.keeps_size (Canvas2D.bind m k).
Proof.
  intros Hm Hk c. unfold Canvas2D.bind.
  destruct (Hm c) as [H1 H2]. destruct (m c) as [a c']. cbn [snd] in *.
  destruct (Hk a c') as [H3 H4]. split; congruence.
Qed.

Lemma keeps_ret {A} (a : A) : Canvas2D.keeps_size (Canvas2D.ret a).
Proof. intros c. split; reflexivity. Qed.

Lemma keeps_modify f : Canvas2D.keeps_size (Canvas2D.modify f).
Proof. intros c. split; reflexivity. Qed.

Lemma keeps_paint f : Canvas2D.keeps_size (Canvas2D.paint f).
Proof. intros c. split; reflexivity. Qed.

Lemma keeps_with_path f : Canvas2D.keeps_size (Canvas2D.with_path f).
Proof. intros c. split; reflexivity. Qed.

Lemma keeps_save : Canvas2D.keeps_size Canvas2D.save.
Proof. intros c. split; reflexivity. Qed.

Lemma keeps_restore : Canvas2D.keeps_size Canvas2D.restore.
Proof. intros c. unfold Canvas2D.restore. destruct (Canvas2D.saved c); split; reflexivity. Qed.

Lemma keeps_fill : Canvas2D.keeps_size Canvas2D.fill.
Proof. intros c. split; reflexivity. Qed.

Lemma keeps_get_font : Canvas2D.keeps_size Canvas2D.get_font.
Proof. intros c. split; reflexivity. Qed.

Lemma keeps_when (b : bool) (m : Canvas2D.M unit) :
  Canvas2D.keeps_size m -> Canvas2D.keeps_size (Canvas2D.when b m).
Proof. intros Hm. destruct b; [exact Hm|apply keeps_ret]. Qed.

Lemma keeps_forEach {A} (l : list A) (f : A -> Canvas2D.M unit) :
  (forall a, Canvas2D.keeps_size (f a)) -> Canvas2D.keeps_size (Canvas2D.forEach l f).
Proof.
  intros Hf. induction l as [|a l IH]; cbn [Canvas2D.forEach].
  - apply keeps_ret.
  - apply keeps_bind; [apply Hf|intros _; exact IH].
Qed.

Ltac keeps_step :=
  lazymatch goal with
  | |- Canvas2D.keeps_size (Canvas2D.bind _ _) => apply keeps_bind; [|intros ?]
  | |- Canvas2D.keeps_size (Canvas2D.ret _) => apply keeps_ret
  | |- Canvas2D.keeps_size (Canvas2D.modify _) => apply keeps_modify
  | |- Canvas2D.keeps_size (Canvas2D.paint _) => apply keeps_paint
  | |- Canvas2D.keeps_size (Canvas2D.with_path _) => apply keeps_with_path
  | |- Canvas2D.keeps_size Canvas2D.save => apply keeps_save
  | |- Canvas2D.keeps_size Canvas2D.restore => apply keeps_restore
  | |- Canvas2D.keeps_size Canvas2D.fill => apply keeps_fill
  | |- Canvas2D.keeps_size Canvas2D.get_font => apply keeps_get_font
  | |- Canvas2D.keeps_size (Canvas2D.when _ _) => apply keeps_when
  end.

Ltac keeps :=
  unfold Canvas2D.set_fillStyle, Canvas2D.set_strokeStyle, Canvas2D.set_font,
    Canvas2D.set_textAlign, Canvas2D.set_textBaseline, Canvas2D.set_lineJoin,
    Canvas2D.set_miterLimit, Canvas2D.set_lineWidth, Canvas2D.set_filter,
    Canvas2D.translate, Canvas2D.scale, Canvas2D.rotateDeg, Canvas2D.push_transform,
    Canvas2D.drawImage, Canvas2D.fillRect, Canvas2D.strokeText, Canvas2D.fillText,
    Canvas2D.beginPath, Canvas2D.moveTo, Canvas2D.lineTo, Canvas2D.quadraticCurveTo,
    Canvas2D.closePath;
  repeat keeps_step.

Lemma keeps_roundRect (x y w h r : number) : Canvas2D.keeps_size (CoverCanvas.roundRect x y w h r).
Proof. unfold CoverCanvas.roundRect; keeps. Qed.

Lemma keeps_drawSticker (w h : number) (s : Sticker.t) :
  Canvas2D.keeps_size (CoverCanvas.drawSticker w h s).
Proof. unfold CoverCanvas.drawSticker; keeps. Qed.

Lemma keeps_drawLayoutText text_width (config : LayoutConfig.t) (title : string)
      (w h : number) :
  Canvas2D.keeps_size (CoverCanvas.drawLayoutText text_width config title w h).
Proof.
  unfold CoverCanvas.drawLayoutText, CoverCanvas.drawTitle, CoverCanvas.drawSubtitle,
    CoverCanvas.measureText.
  destruct (CoverCanvas.fontSettings config), (CoverCanvas.titlePosition config w h),
    (CoverCanvas.subtitlePosition config w h).
  keeps; apply keeps_roundRect.
Qed.

Lemma keeps_onload text_width (p : CoverCanvas.Props) :
  Canvas2D.keeps_size (CoverCanvas.onload text_width p).
Proof.
  unfold CoverCanvas.onload. keeps.
  - destruct (CoverCanvas.layoutConfig p);
      [apply keeps_drawLayoutText|apply keeps_ret].
  - apply keeps_forEach. intros s. apply keeps_drawSticker.
Qed.

(** With a transparent subtitle background the only filled path of a
    render is the shadow pill; the calls come in the order base image,
    tone overlay, title, subtitle, stickers. *)
Example transparent_subtitle_render :
  option_map
    (fun c => (map Canvas2D.call (Canvas2D.painted c), Canvas2D.fills (Canvas2D.painted c)))
    (CoverCanvas.render Examples.mono_width Examples.preview_props (Some Examples.blank))
  = Some (["drawImage"; "fillRect"; "fillRect"; "strokeText"; "fillText";
           "fill"; "fillText"; "fillText"]%string,
          [Canvas2D.Color "rgba(0,0,0,0.3)"]).
Proof. reflexivity. Qed.

(** What an undisturbed render leaves on the canvas: the drawing of the
    image handler on the canvas as the effect sized it. *)
Lemma render_on_canvas
      (text_width : Canvas2D.Font -> string -> number)
      (p : CoverCanvas.Props) (c : Canvas2D.Canvas) :
  CoverCanvas.render text_width p (Some c)
  = Some (Canvas2D.exec (CoverCanvas.onload text_width p)
            (Canvas2D.resize (CoverCanvas.width p) (CoverCanvas.height p) c)).
Proof. reflexivity. Qed.

(** An undisturbed render is a function of the input tuple alone:
    whatever the canvas held before, it leaves the same canvas, of the
    given dimensions, and the same exported image. *)
Lemma render_from_any_canvas
      (text_width : Canvas2D.Font -> string -> number)
      (encodePNG : number -> number -> list Canvas2D.Paint -> string)
      (p : CoverCanvas.Props) (c1 c2 : Canvas2D.Canvas) :
  CoverCanvas.render text_width p (Some c1) = CoverCanvas.render text_width p (Some c2) /\
  CoverCanvas.getCanvasImage encodePNG (CoverCanvas.render text_width p (Some c1))
  = CoverCanvas.getCanvasImage encodePNG (CoverCanvas.render text_width p (Some c2)) /\
  (exists c, CoverCanvas.render text_width p (Some c1) = Some c /\
             Canvas2D.width c = CoverCanvas.width p /\
             Canvas2D.height c = CoverCanvas.height p).
Proof.
  split; [reflexivity|]. split; [reflexivity|].
  rewrite render_on_canvas. eexists. split; [reflexivity|].
  apply (keeps_onload text_width p).
Qed.

(** On a component with a canvas and a context and with no image still
    loading, a run of the effect followed by the load of its image is
    an undisturbed render, and again no image is loading. *)
Lemma effect_then_load
      (text_width : Canvas2D.Font -> string -> number)
      (p : CoverCanvas.Props) (m : CoverCanvas.Mounted) (c : Canvas2D.Canvas) :
  CoverCanvas.canvas m = Some c ->
  CoverCanvas.context2d m = true ->
  CoverCanvas.loading m = [] ->
  CoverCanvas.run text_width [CoverCanvas.Effect p; CoverCanvas.Load 0] m
  = CoverCanvas.mkMounted (CoverCanvas.render text_width p (Some c)) true [].
Proof.
  intros Hc Hx Hl. destruct m as [mc mx ml]. cbn in Hc, Hx, Hl. subst.
  reflexivity.
Qed.

(** Without a context the effect does nothing, and an image that fails
    to load leaves the canvas cleared. *)
Lemma effect_without_drawing
      (text_width : Canvas2D.Font -> string -> number)
      (p : CoverCanvas.Props) (c : Canvas2D.Canvas) :
  CoverCanvas.run text_width [CoverCanvas.Effect p; CoverCanvas.Load 0]
                  (CoverCanvas.mkMounted (Some c) false [])
  = CoverCanvas.mkMounted (Some c) false [] /\
  CoverCanvas.run text_width [CoverCanvas.Effect p; CoverCanvas.LoadError 0]
                  (CoverCanvas.mkMounted (Some c) true [])
  = CoverCanvas.mkMounted
      (Some (Canvas2D.resize (CoverCanvas.width p) (CoverCanvas.height p) c)) true [].
Proof. split; reflexivity. Qed.


(** * Further properties of the sources *)

(** ** The crop engine: panning and zooming *)

Lemma panMoves_dragging (x0 y0 : number) (moves : list (number * number))
      (st : ImageCropper.State) :
  let st' := panMoves moves (ImageCropper.handlePointerDown x0 y0 st) in
  ImageCropper.isDragging st' = true /\
  ImageCropper.dragStart st'
  = ImageCropper.mkPoint (x0 - ImageCropper.px (ImageCropper.position st))
                         (y0 - ImageCropper.py (ImageCropper.position st)) /\
  ImageCropper.scale st' = ImageCropper.scale st /\
  ImageCropper.imageDimensions st' = ImageCropper.imageDimensions st /\
  ImageCropper.containerDimensions st' = ImageCropper.containerDimensions st.
Proof.
  unfold panMoves.
  induction moves as [|[x y] moves IH] using rev_ind; [repeat split|].
  rewrite fold_left_app. cbn [fold_left fst snd].
  destruct IH as (Hd & Hs & Hsc & Hi & Hc).
  unfold ImageCropper.handlePointerMove at 1 3 5 7 9. rewrite Hd. cbn [negb].
  cbn [ImageCropper.isDragging ImageCropper.dragStart ImageCropper.scale
       ImageCropper.imageDimensions ImageCropper.containerDimensions].
  repeat split; assumption.
Qed.

(** X1. A pan gesture of the cropper (pointer-down at (x0, y0), then
    moves ending at (x1, y1)) shifts the pan by the pointer delta and
    leaves the zoom and the image alone; once the pointer is up, moves
    change nothing. *)
Theorem X1_pan_accumulates_pointer_delta
        (st : ImageCropper.State) (x0 y0 x1 y1 : number)
        (moves later : list (number * number)) :
  let st' := panMoves (moves ++ [(x1, y1)]) (ImageCropper.handlePointerDown x0 y0 st) in
  ImageCropper.px (ImageCropper.position st')
    == ImageCropper.px (ImageCropper.position st) + (x1 - x0) /\
  ImageCropper.py (ImageCropper.position st')
    == ImageCropper.py (ImageCropper.position st) + (y1 - y0) /\
  ImageCropper.scale st' = ImageCropper.scale st /\
  ImageCropper.imageDimensions st' = ImageCropper.imageDimensions st /\
  panMoves later (ImageCropper.handlePointerUp st') = ImageCropper.handlePointerUp st'.
Proof.
  intros st'.
  destruct (panMoves_dragging x0 y0 (moves ++ [(x1, y1)]) st) as (_ & _ & Hsc & Hi & _).
  fold st' in Hsc, Hi.
  destruct (panMoves_dragging x0 y0 moves st) as (Hd & Hs & _).
  assert (Hpos : ImageCropper.position st'
                 = ImageCropper.mkPoint
                     (x1 - (x0 - ImageCropper.px (ImageCropper.position st)))
                     (y1 - (y0 - ImageCropper.py (ImageCropper.position st)))).
  { subst st'. unfold panMoves in *. rewrite fold_left_app. cbn [fold_left fst snd].
    unfold ImageCropper.handlePointerMove at 1. rewrite Hd. cbn [negb].
    cbn [ImageCropper.position]. now rewrite Hs. }
  rewrite Hpos. cbn [ImageCropper.px ImageCropper.py].
  split; [ring|]. split; [ring|]. split; [exact Hsc|]. split; [exact Hi|].
  unfold panMoves. induction later as [|m later IH]; [reflexivity|].
  cbn [fold_left]. exact IH.
Qed.

(** X2. For every pan and every positive zoom, the source rectangle of a
    save is the cover-fit crop shrunk by the zoom factor: its width and
    height are those of the crop divided by the scale, its aspect ratio
    is that of the container, and its centre is the centre of the image
    moved against the pan by pan / scale in source pixels. *)
Theorem X2_source_rectangle_under_pan_and_zoom
        (cw ch nw nh s : number) (pan : ImageCropper.Point) :
  0 < cw -> 0 < ch -> 0 < nw -> 0 < nh -> 0 < s ->
  let topLeft := ImageCropper.mapDomToSource cw ch nw nh pan s 0 0 in
  let bottomRight := ImageCropper.mapDomToSource cw ch nw nh pan s cw ch in
  let sw := ImageCropper.px bottomRight - ImageCropper.px topLeft in
  let sh := ImageCropper.py bottomRight - ImageCropper.py topLeft in
  let perPixel := fst (Spec.coverFitCrop cw ch nw nh) / cw in
  sw == fst (Spec.coverFitCrop cw ch nw nh) / s /\
  sh == snd (Spec.coverFitCrop cw ch nw nh) / s /\
  sw / sh == cw / ch /\
  (ImageCropper.px topLeft + ImageCropper.px bottomRight) / 2
    == nw / 2 - ImageCropper.px pan * perPixel / s /\
  (ImageCropper.py topLeft + ImageCropper.py bottomRight) / 2
    == nh / 2 - ImageCropper.py pan * perPixel / s.
Proof.
  intros Hcw Hch Hnw Hnh Hs topLeft bottomRight sw sh perPixel.
  assert (Hsw : sw == fst (Spec.coverFitCrop cw ch nw nh) / s).
  { subst sw topLeft bottomRight.
    unfold ImageCropper.mapDomToSource, ImageCropper.baseRenderedSize, Spec.coverFitCrop.
    destruct (Qgtb (nw / nh) (cw / ch));
      cbn [fst snd ImageCropper.px ImageCropper.py]; field; qnz. }
  assert (Hsh : sh == snd (Spec.coverFitCrop cw ch nw nh) / s).
  { subst sh topLeft bottomRight.
    unfold ImageCropper.mapDomToSource, ImageCropper.baseRenderedSize, Spec.coverFitCrop.
    destruct (Qgtb (nw / nh) (cw / ch));
      cbn [fst snd ImageCropper.px ImageCropper.py]; field; qnz. }
  split; [exact Hsw|]. split; [exact Hsh|]. split.
  - rewrite Hsw, Hsh. unfold Spec.coverFitCrop.
    destruct (Qgtb (nw / nh) (cw / ch)); cbn [fst snd]; field; qnz.
  - subst topLeft bottomRight perPixel.
    unfold ImageCropper.mapDomToSource, ImageCropper.baseRenderedSize, Spec.coverFitCrop.
    split; destruct (Qgtb (nw / nh) (cw / ch));
      cbn [fst snd ImageCropper.px ImageCropper.py]; field; qnz.
Qed.

(** A 2000 x 1000 image in a 400 x 400 window, zoomed to 2 and panned
    by (40, -20). *)
Lemma X2_source_rectangle_under_pan_and_zoom_witness :
  (0 < 400 /\ 0 < 400 /\ 0 < 2000 /\ 0 < 1000 /\ 0 < 2) /\
  let pan := ImageCropper.mkPoint 40 (-20) in
  let topLeft := ImageCropper.mapDomToSource 400 400 2000 1000 pan 2 0 0 in
  let bottomRight := ImageCropper.mapDomToSource 400 400 2000 1000 pan 2 400 400 in
  ImageCropper.px bottomRight - ImageCropper.px topLeft
    == fst (Spec.coverFitCrop 400 400 2000 1000) / 2 /\
  ImageCropper.px bottomRight - ImageCropper.px topLeft == 500.
Proof.
  split; [repeat split|].
  split; [|reflexivity].
  exact (proj1 (X2_source_rectangle_under_pan_and_zoom 400 400 2000 1000 2
                  (ImageCropper.mkPoint 40 (-20))
                  eq_refl eq_refl eq_refl eq_refl eq_refl)).
Defined.

Lemma div_by_at_least_1 (t s : Q) : 0 <= t -> 1 <= s -> t / s <= t.
Proof.
  intros Ht Hs. apply Qle_shift_div_r; [lra|].
  setoid_replace (t * s) with (s * t) by ring.
  setoid_replace t with (1 * t) at 1 by ring.
  apply Qmult_le_compat_r; assumption.
Qed.

Lemma half_pos (x : Q) : 0 < x -> 0 < x / 2.
Proof. intros H. apply Qlt_shift_div_l; lra. Qed.

Lemma half_minus_nonneg (n s : Q) :
  0 < n -> 0 < s -> (0 <= n / 2 - n / 2 / s <-> 1 <= s).
Proof.
  intros Hn Hs.
  setoid_replace (n / 2 - n / 2 / s) with ((n / (2 * s)) * (s - 1)) by (field; qnz).
  assert (Hk : 0 < n / (2 * s)) by (apply Qlt_shift_div_l; lra).
  split; intros H.
  - destruct (Qlt_le_dec s 1) as [Hlt|Hge]; [|exact Hge].
    exfalso.
    assert (Hneg : (n / (2 * s)) * (1 - s) <= 0).
    { setoid_replace ((n / (2 * s)) * (1 - s)) with (- ((n / (2 * s)) * (s - 1))) by ring.
      lra. }
    assert (Hpos : 0 < (n / (2 * s)) * (1 - s)).
    { apply Qmult_lt_0_compat; lra. }
    lra.
  - apply Qmult_le_0_compat; lra.
Qed.

(** X3. With the pan at (0,0), a loaded image and a container of
    positive size, the source rectangle of a save lies inside the image
    exactly when the zoom is at least 1: every zoom below 1 leaves a gap
    in the crop window and no zoom from 1 upwards does. *)
Theorem X3_centred_crop_covers_iff_scale_at_least_1
        (a : AspectRatio) (cw ch nw nh s : number) (st : ImageCropper.State) :
  0 < cw -> 0 < ch -> 0 < nw -> 0 < nh -> 0 < s ->
  exists r,
    ImageCropper.handleSave true a cw ch
      (ImageCropper.setScale s (ImageCropper.reset (ImageCropper.onImageLoad nw nh st)))
    = Some r /\
    (ImageCropper.covers r nw nh <-> 1 <= s).
Proof.
  intros Hcw Hch Hnw Hnh Hs.
  eexists. split; [reflexivity|].
  destruct (baseRenderedSize_spans cw ch nw nh Hcw Hch Hnw Hnh) as (Hw & Hh & Hr).
  unfold ImageCropper.covers, ImageCropper.mapDomToSource.
  cbn [ImageCropper.src_x ImageCropper.src_y ImageCropper.src_w ImageCropper.src_h
       ImageCropper.px ImageCropper.py ImageCropper.setScale ImageCropper.reset
       ImageCropper.onImageLoad ImageCropper.scale ImageCropper.position
       ImageCropper.imageDimensions ImageCropper.iwidth ImageCropper.iheight].
  revert Hw Hh Hr. unfold ImageCropper.baseRenderedSize.
  destruct (Qgtb (nw / nh) (cw / ch)) eqn:E; cbn [fst snd]; intros Hw Hh Hr.
  - (* the height is fitted *)
    assert (Hrw : 0 < ch * (nw / nh)) by lra.
    split.
    + intros (_ & Hy & _ & _).
      apply (half_minus_nonneg nh s Hnh Hs).
      setoid_replace (nh / 2 - nh / 2 / s)
        with (nh / 2 + (0 - (ch / 2 + 0)) / s * (nw / (ch * (nw / nh))))
        by (field; qnz).
      exact Hy.
    + intros H1.
      assert (Hy : 0 <= nh / 2 - nh / 2 / s) by (now apply half_minus_nonneg).
      assert (Hx : cw / 2 / s * (nw / (ch * (nw / nh))) <= nw / 2).
      { apply Qle_trans with (cw / 2 * (nw / (ch * (nw / nh)))).
        - setoid_replace (cw / 2 / s * (nw / (ch * (nw / nh))))
            with (cw / 2 * (nw / (ch * (nw / nh))) / s) by (field; qnz).
          apply div_by_at_least_1; [|exact H1].
          apply Qmult_le_0_compat; apply Qlt_le_weak;
            [now apply half_pos|apply Qlt_shift_div_l; lra].
        - apply half_scaled; lra. }
      repeat split.
      * setoid_replace (nw / 2 + (0 - (cw / 2 + 0)) / s * (nw / (ch * (nw / nh))))
          with (nw / 2 - cw / 2 / s * (nw / (ch * (nw / nh)))) by (field; qnz).
        lra.
      * setoid_replace (nh / 2 + (0 - (ch / 2 + 0)) / s * (nw / (ch * (nw / nh))))
          with (nh / 2 - nh / 2 / s) by (field; qnz).
        exact Hy.
      * setoid_replace (nw / 2 + (0 - (cw / 2 + 0)) / s * (nw / (ch * (nw / nh))) +
                        (nw / 2 + (cw - (cw / 2 + 0)) / s * (nw / (ch * (nw / nh))) -
                         (nw / 2 + (0 - (cw / 2 + 0)) / s * (nw / (ch * (nw / nh))))))
          with (nw / 2 + cw / 2 / s * (nw / (ch * (nw / nh)))) by (field; qnz).
        revert Hx. generalize (cw / 2 / s * (nw / (ch * (nw / nh)))). intros t Ht. qlra.
      * setoid_replace (nh / 2 + (0 - (ch / 2 + 0)) / s * (nw / (ch * (nw / nh))) +
                        (nh / 2 + (ch - (ch / 2 + 0)) / s * (nw / (ch * (nw / nh))) -
                         (nh / 2 + (0 - (ch / 2 + 0)) / s * (nw / (ch * (nw / nh))))))
          with (nh / 2 + nh / 2 / s) by (field; qnz).
        revert Hy. generalize (nh / 2 / s). intros t Ht. qlra.
  - (* the width is fitted *)
    assert (Hrh : 0 < cw / (nw / nh)) by lra.
    split.
    + intros (Hx & _ & _ & _).
      apply (half_minus_nonneg nw s Hnw Hs).
      setoid_replace (nw / 2 - nw / 2 / s)
        with (nw / 2 + (0 - (cw / 2 + 0)) / s * (nw / cw)) by (field; qnz).
      exact Hx.
    + intros H1.
      assert (Hx : 0 <= nw / 2 - nw / 2 / s) by (now apply half_minus_nonneg).
      assert (Hy : ch / 2 / s * (nw / cw) <= nh / 2).
      { apply Qle_trans with (ch / 2 * (nw / cw)).
        - setoid_replace (ch / 2 / s * (nw / cw))
            with (ch / 2 * (nw / cw) / s) by (field; qnz).
          apply div_by_at_least_1; [|exact H1].
          apply Qmult_le_0_compat; apply Qlt_le_weak;
            [now apply half_pos|apply Qlt_shift_div_l; lra].
        - setoid_replace (nw / cw) with (nh / (cw / (nw / nh))) by (field; qnz).
          apply half_scaled; lra. }
      repeat split.
      * setoid_replace (nw / 2 + (0 - (cw / 2 + 0)) / s * (nw / cw))
          with (nw / 2 - nw / 2 / s) by (field; qnz).
        exact Hx.
      * setoid_replace (nh / 2 + (0 - (ch / 2 + 0)) / s * (nw / cw))
          with (nh / 2 - ch / 2 / s * (nw / cw)) by (field; qnz).
        lra.
      * setoid_replace (nw / 2 + (0 - (cw / 2 + 0)) / s * (nw / cw) +
                        (nw / 2 + (cw - (cw / 2 + 0)) / s * (nw / cw) -
                         (nw / 2 + (0 - (cw / 2 + 0)) / s * (nw / cw))))
          with (nw / 2 + nw / 2 / s) by (field; qnz).
        revert Hx. generalize (nw / 2 / s). intros t Ht. qlra.
      * setoid_replace (nh / 2 + (0 - (ch / 2 + 0)) / s * (nw / cw) +
                        (nh / 2 + (ch - (ch / 2 + 0)) / s * (nw / cw) -
                         (nh / 2 + (0 - (ch / 2 + 0)) / s * (nw / cw))))
          with (nh / 2 + ch / 2 / s * (nw / cw)) by (field; qnz).
        revert Hy. generalize (ch / 2 / s * (nw / cw)). intros t Ht. qlra.
Qed.

Lemma X3_centred_crop_covers_iff_scale_at_least_1_witness :
  (0 < 400 /\ 0 < 400 /\ 0 < 2000 /\ 0 < 1000 /\ 0 < 1 / 2) /\
  exists r,
    ImageCropper.handleSave true SQUARE 400 400
      (ImageCropper.setScale (1 / 2)
         (ImageCropper.reset (ImageCropper.onImageLoad 2000 1000 ImageCropper.initial)))
    = Some r /\
    (ImageCropper.covers r 2000 1000 <-> 1 <= 1 / 2).
Proof.
  split; [repeat split|].
  exact (X3_centred_crop_covers_iff_scale_at_least_1 SQUARE 400 400 2000 1000 (1 / 2)
           ImageCropper.initial eq_refl eq_refl eq_refl eq_refl eq_refl).
Defined.

(** ** The page: what each event does to the stickers *)

Lemma handleUpdateLayout_stickers (ch : LayoutConfig.partial) (st : App.State) :
  App.stickers (App.handleUpdateLayout ch st) = App.stickers st.
Proof. unfold App.handleUpdateLayout. now destruct (App.layoutConfig st). Qed.

Lemma layoutDrag_stickers (type : LayoutEditorOverlay.DragType) (down : PointerEvent)
      (moves : list (PointerEvent * DOMRect)) (st : App.State) :
  App.stickers (App.layoutDrag type down moves st) = App.stickers st.
Proof.
  unfold App.layoutDrag. destruct (App.layoutConfig st) as [c|]; [|reflexivity].
  induction moves as [|m moves IH] using rev_ind; [reflexivity|].
  rewrite fold_left_app. cbn [fold_left]. unfold App.layoutPointerMove at 1.
  destruct (LayoutEditorOverlay.handlePointerMove _ _ _); [|exact IH].
  now rewrite handleUpdateLayout_stickers.
Qed.

Lemma handleFilterChange_stickers (f : string) (st : App.State) :
  App.stickers (Page.handleFilterChange f st) = App.stickers st.
Proof. unfold Page.handleFilterChange. now destruct (App.layoutConfig st). Qed.

Lemma step_StickerChange (st : App.State) (e : Page.Event) :
  StickerChange (App.stickers st) (App.stickers (Page.step st e)).
Proof.
  destruct e; cbn [Page.step];
    try (rewrite ?handleUpdateLayout_stickers, ?layoutDrag_stickers,
           ?handleFilterChange_stickers; apply sc_same).
  - (* re-crop *) unfold Page.handleReCrop.
    destruct (App.rawImage st =? "")%string; apply sc_same.
  - (* crop cancel *) unfold Page.cropCancel.
    destruct (App.rawImage st =? "")%string; apply sc_same.
  - (* layout button *) destruct (Page.callsLayout st); apply sc_same.
  - (* layout call ends *) destruct service; apply sc_same.
  - (* add *) rewrite handleAddSticker_stickers. apply sc_added.
  - (* drag *) unfold Page.onSticker.
    destruct (nth_error (App.stickers st) i) as [s|] eqn:E; [|apply sc_same].
    apply nth_error_In in E.
    destruct (stickerDrag_shape down s moves st) as [H|(a & b & H)]; rewrite H;
      [apply sc_same|now apply sc_moved].
  - (* plus *) unfold Page.onSticker.
    destruct (nth_error (App.stickers st) i) as [s|] eqn:E; [|apply sc_same].
    apply nth_error_In in E.
    apply (sc_scaled _ s (Qmin 5 (Sticker.scale s + 0.1)) E). now left.
  - (* minus *) unfold Page.onSticker.
    destruct (nth_error (App.stickers st) i) as [s|] eqn:E; [|apply sc_same].
    apply nth_error_In in E.
    apply (sc_scaled _ s (Qmax 0.2 (Sticker.scale s - 0.1)) E). now right.
  - (* delete *) unfold Page.onSticker.
    destruct (nth_error (App.stickers st) i) as [s|] eqn:E; [|apply sc_same].
    apply nth_error_In in E. now apply sc_removed.
  - (* video button *) destruct (Page.callsVideo canvasRef st); apply sc_same.
  - (* video call ends *) destruct service; apply sc_same.
  - (* reset *) apply sc_cleared.
  - (* retry *) destruct (Page.retryCallsLayout st); [apply sc_same|apply sc_cleared].
Qed.

Lemma StickerChange_Forall (P : Sticker.t -> Prop) :
  (forall content now, P (App.newSticker content now)) ->
  (forall t a b, P t -> P (Sticker.spread t (StickerOverlay.position_changes a b))) ->
  (forall t s v,
      P t -> P s ->
      v = Qmin 5 (Sticker.scale s + 0.1) \/ v = Qmax 0.2 (Sticker.scale s - 0.1) ->
      P (Sticker.spread t (StickerOverlay.scale_changes v))) ->
  forall l l', StickerChange l l' -> Forall P l -> Forall P l'.
Proof.
  intros Hnew Hmove Hscale l l' Hc Hl.
  destruct Hc as [| |content now|s a b Hs|s v Hs Hv|s Hs].
  - exact Hl.
  - constructor.
  - apply Forall_app. split; [exact Hl|]. constructor; [apply Hnew|constructor].
  - apply Forall_map. apply (Forall_impl _ (P := P)); [|exact Hl].
    intros t Ht. unfold App.moved.
    destruct (Sticker.id t =? Sticker.id s)%string; [now apply Hmove|exact Ht].
  - assert (Ps : P s) by (rewrite Forall_forall in Hl; now apply Hl).
    apply Forall_map. apply (Forall_impl _ (P := P)); [|exact Hl].
    intros t Ht.
    destruct (Sticker.id t =? Sticker.id s)%string; [now apply (Hscale t s v)|exact Ht].
  - rewrite Forall_forall in *. intros t Ht. apply filter_In in Ht. now apply Hl.
Qed.

Lemma reachable_stickers_Forall (P : Sticker.t -> Prop) :
  (forall content now, P (App.newSticker content now)) ->
  (forall t a b, P t -> P (Sticker.spread t (StickerOverlay.position_changes a b))) ->
  (forall t s v,
      P t -> P s ->
      v = Qmin 5 (Sticker.scale s + 0.1) \/ v = Qmax 0.2 (Sticker.scale s - 0.1) ->
      P (Sticker.spread t (StickerOverlay.scale_changes v))) ->
  forall st, Page.reachable st -> Forall P (App.stickers st).
Proof.
  intros Hnew Hmove Hscale st (l & Hl & <-).
  induction Hl as [|l e Hl IH He]; [constructor|].
  exact (StickerChange_Forall P Hnew Hmove Hscale _ _
           (step_StickerChange (Page.page l) e) IH).
Qed.

(** X4. In every state the page can reach, the scale of every sticker
    lies between 0.2 and 5: the plus and minus buttons step by 0.1 and
    clamp, and nothing else sets a scale. *)
Theorem X4_sticker_scale_between_02_and_5 (st : App.State) :
  Page.reachable st ->
  Forall (fun s => 0.2 <= Sticker.scale s /\ Sticker.scale s <= 5) (App.stickers st).
Proof.
  apply reachable_stickers_Forall.
  - intros content now. cbn. split; lra.
  - intros t a b Ht. exact Ht.
  - intros t s v _ [Hs1 Hs2] [-> | ->]; cbn [Sticker.spread Sticker.scale
      StickerOverlay.scale_changes Sticker.p_scale Sticker.over]; split.
    + apply Q.min_glb; lra.
    + apply Q.le_min_l.
    + apply Q.le_max_l.
    + apply Q.max_lub; lra.
Qed.

Lemma session_reachable : Page.reachable (Page.run session).
Proof. apply reachable_run_page. reflexivity. Qed.

Lemma X4_sticker_scale_between_02_and_5_witness :
  Page.reachable (Page.run session) /\
  Forall (fun s => 0.2 <= Sticker.scale s /\ Sticker.scale s <= 5)
         (App.stickers (Page.run session)).
Proof.
  split; [exact session_reachable|].
  exact (X4_sticker_scale_between_02_and_5 (Page.run session) session_reachable).
Defined.

(** X5. In every state the page can reach, every sticker is of type
    emoji and has rotation 0, whatever its content; so the compositor
    paints each sticker of the page, once and in list order. *)
Theorem X5_page_stickers_are_emoji_and_painted (st : App.State) :
  Page.reachable st ->
  Forall (fun s => Sticker.type s = emoji /\ Sticker.rotation s = 0) (App.stickers st) /\
  forall (width height : number) (base : Canvas2D.DrawState),
    map Canvas2D.call
        (flat_map (CoverCanvas.stickerPaints width height base) (App.stickers st))
    = map (fun _ => "fillText"%string) (App.stickers st).
Proof.
  intros Hst.
  assert (H : Forall (fun s => Sticker.type s = emoji /\ Sticker.rotation s = 0)
                     (App.stickers st)).
  { revert st Hst. apply reachable_stickers_Forall.
    - intros content now. split; reflexivity.
    - intros t a b Ht. exact Ht.
    - intros t s v Ht _ _. exact Ht. }
  split; [exact H|].
  intros width height base.
  induction H as [|s l [Hs _] _ IH]; [reflexivity|].
  cbn [flat_map map]. rewrite map_app, IH.
  unfold CoverCanvas.stickerPaints at 1. rewrite Hs. reflexivity.
Qed.

Lemma X5_page_stickers_are_emoji_and_painted_witness :
  Page.reachable (Page.run session) /\
  Forall (fun s => Sticker.type s = emoji /\ Sticker.rotation s = 0)
         (App.stickers (Page.run session)).
Proof.
  split; [exact session_reachable|].
  exact (proj1 (X5_page_stickers_are_emoji_and_painted (Page.run session)
                  session_reachable)).
Defined.

(** ** The page: sticker ids under the overlay actions *)

Lemma ids_moved (id0 : string) (a b : number) (l : list Sticker.t) :
  map Sticker.id (map (App.moved id0 a b) l) = map Sticker.id l.
Proof.
  rewrite map_map. apply map_ext. intros t. unfold App.moved.
  now destruct (Sticker.id t =? id0)%string.
Qed.

Lemma ids_scaled (id0 : string) (v : number) (l : list Sticker.t) :
  map Sticker.id
      (map (fun t => if (Sticker.id t =? id0)%string
                     then Sticker.spread t (StickerOverlay.scale_changes v) else t) l)
  = map Sticker.id l.
Proof.
  rewrite map_map. apply map_ext. intros t.
  now destruct (Sticker.id t =? id0)%string.
Qed.

Lemma ids_removed (id0 : string) (l : list Sticker.t) :
  map Sticker.id (filter (fun t => negb (Sticker.id t =? id0)%string) l)
  = filter (fun i => negb (i =? id0)%string) (map Sticker.id l).
Proof.
  induction l as [|t l IH]; [reflexivity|]. cbn [filter map].
  destruct (Sticker.id t =? id0)%string; cbn [negb map]; now rewrite IH.
Qed.

Lemma filter_true {A} (l : list A) : filter (fun _ => true) l = l.
Proof. induction l as [|a l IH]; [reflexivity|]. cbn. now rewrite IH. Qed.

Lemma others_map (s : Sticker.t) (f : Sticker.t -> Sticker.t) (l : list Sticker.t) :
  (forall t, other_than s t = true -> f t = t) ->
  (forall t, other_than s t = false -> other_than s (f t) = false) ->
  filter (other_than s) (map f l) = filter (other_than s) l.
Proof.
  intros Hkeep Hsame. induction l as [|t l IH]; [reflexivity|]. cbn [map filter].
  destruct (other_than s t) eqn:E.
  - rewrite (Hkeep t E), E, IH. reflexivity.
  - rewrite (Hsame t E). exact IH.
Qed.

Lemma others_moved (s : Sticker.t) (a b : number) (l : list Sticker.t) :
  filter (other_than s) (map (App.moved (Sticker.id s) a b) l) = filter (other_than s) l.
Proof.
  apply others_map; intros t; unfold other_than, App.moved;
    destruct (Sticker.id t =? Sticker.id s)%string eqn:E; cbn [negb];
    try discriminate; try reflexivity.
  intros _. cbn. now rewrite E.
Qed.

Lemma others_scaled (s : Sticker.t) (v : number) (l : list Sticker.t) :
  filter (other_than s)
         (map (fun t => if (Sticker.id t =? Sticker.id s)%string
                        then Sticker.spread t (StickerOverlay.scale_changes v) else t) l)
  = filter (other_than s) l.
Proof.
  apply others_map; intros t; unfold other_than;
    destruct (Sticker.id t =? Sticker.id s)%string eqn:E; cbn [negb];
    try discriminate; try reflexivity.
  intros _. cbn. now rewrite E.
Qed.

Lemma others_removed (s : Sticker.t) (l : list Sticker.t) :
  filter (other_than s) (filter (other_than s) l) = filter (other_than s) l.
Proof.
  induction l as [|t l IH]; [reflexivity|]. cbn [filter].
  destruct (other_than s t) eqn:E; [cbn [filter]; rewrite E, IH|]; auto.
Qed.

(** X6. Only the add-sticker action creates an id, the one of its clock
    reading, at the end of the list. Every other event keeps a
    sub-sequence of the ids in their order, so ids that were distinct
    stay distinct. A drag, a plus, a minus or a delete aimed at one
    sticker leaves every sticker with another id as it is and where it
    is; a delete removes every sticker with the id it is aimed at. *)
Theorem X6_sticker_ids_under_events (st : App.State) (e : Page.Event) :
  match e with
  | Page.EvAddSticker content now =>
      map Sticker.id (App.stickers (Page.step st e))
      = (map Sticker.id (App.stickers st) ++ [App.toString now])%list
  | _ =>
      (exists keep,
          map Sticker.id (App.stickers (Page.step st e))
          = filter keep (map Sticker.id (App.stickers st))) /\
      (NoDup (map Sticker.id (App.stickers st)) ->
       NoDup (map Sticker.id (App.stickers (Page.step st e))))
  end /\
  (forall i s,
      aimed_at e = Some i -> nth_error (App.stickers st) i = Some s ->
      filter (other_than s) (App.stickers (Page.step st e))
      = filter (other_than s) (App.stickers st)) /\
  (forall i s,
      e = Page.EvStickerDelete i -> nth_error (App.stickers st) i = Some s ->
      App.stickers (Page.step st e) = filter (other_than s) (App.stickers st)).
Proof.
  assert (Hsub : forall l l' : list Sticker.t,
             (exists keep, map Sticker.id l' = filter keep (map Sticker.id l)) ->
             (exists keep, map Sticker.id l' = filter keep (map Sticker.id l)) /\
             (NoDup (map Sticker.id l) -> NoDup (map Sticker.id l'))).
  { intros l l' [keep H]. split; [now exists keep|].
    intros Hnd. rewrite H. now apply NoDup_filter. }
  assert (Hsame : forall l : list Sticker.t,
             exists keep, map Sticker.id l = filter keep (map Sticker.id l)).
  { intros l. exists (fun _ => true). now rewrite filter_true. }
  split; [|split].
  - assert (Hnone : forall l : list string, [] = filter (fun _ => false) l)
      by (intros l; induction l; auto).
    destruct e; cbn [Page.step];
      try (apply Hsub;
           rewrite ?handleUpdateLayout_stickers, ?layoutDrag_stickers,
             ?handleFilterChange_stickers; apply Hsame).
    + apply Hsub. unfold Page.handleReCrop.
      destruct (App.rawImage st =? "")%string; apply Hsame.
    + apply Hsub. unfold Page.cropCancel.
      destruct (App.rawImage st =? "")%string; apply Hsame.
    + apply Hsub. destruct (Page.callsLayout st); apply Hsame.
    + apply Hsub. destruct service; apply Hsame.
    + rewrite handleAddSticker_stickers, map_app. reflexivity.
    + apply Hsub. unfold Page.onSticker.
      destruct (nth_error (App.stickers st) i) as [s|]; [|apply Hsame].
      destruct (stickerDrag_shape down s moves st) as [H|(a & b & H)]; rewrite H;
        [apply Hsame|]. rewrite ids_moved. apply Hsame.
    + apply Hsub. unfold Page.onSticker.
      destruct (nth_error (App.stickers st) i) as [s|]; [|apply Hsame].
      cbn [App.stickerCall StickerOverlay.plusButton App.handleUpdateSticker
           App.setStickers App.stickers]. rewrite ids_scaled. apply Hsame.
    + apply Hsub. unfold Page.onSticker.
      destruct (nth_error (App.stickers st) i) as [s|]; [|apply Hsame].
      cbn [App.stickerCall StickerOverlay.minusButton App.handleUpdateSticker
           App.setStickers App.stickers]. rewrite ids_scaled. apply Hsame.
    + apply Hsub. unfold Page.onSticker.
      destruct (nth_error (App.stickers st) i) as [s|]; [|apply Hsame].
      cbn [App.stickerCall StickerOverlay.deleteButton App.handleRemoveSticker
           App.setStickers App.stickers]. rewrite ids_removed. eexists. reflexivity.
    + apply Hsub. destruct (Page.callsVideo canvasRef st); apply Hsame.
    + apply Hsub. destruct service; apply Hsame.
    + apply Hsub. exists (fun _ => false). apply Hnone.
    + apply Hsub. destruct (Page.retryCallsLayout st); [apply Hsame|].
      exists (fun _ => false). apply Hnone.
  - intros i s Ha Hn.
    destruct e; try discriminate Ha; injection Ha as ->;
      cbn [Page.step]; unfold Page.onSticker; rewrite Hn.
    + destruct (stickerDrag_shape down s moves st) as [H|(a & b & H)]; rewrite H;
        [reflexivity|apply others_moved].
    + apply others_scaled.
    + apply others_scaled.
    + apply others_removed.
  - intros i s -> Hn. cbn [Page.step]. unfold Page.onSticker. rewrite Hn. reflexivity.
Qed.

(** ** The page: the layout it holds and the calls it waits for *)

Lemma layout_ok_spread (c : LayoutConfig.t) (ch : LayoutConfig.partial) :
  tame ch -> layout_ok c -> layout_ok (LayoutConfig.spread c ch).
Proof.
  intros Hs (Hx & Hy & Hsx & Hsy & (v & Hv & Hlo & Hhi) & Htb & Hst & Hsb & Hfl).
  assert (Hd : forall A (n o : option A), defined o -> defined (LayoutConfig.over_opt n o)).
  { intros A [a|] o Ho; [discriminate|exact Ho]. }
  unfold layout_ok, tame in *.
  cbn [LayoutConfig.spread LayoutConfig.x LayoutConfig.y
    LayoutConfig.subtitleX LayoutConfig.subtitleY LayoutConfig.scale
    LayoutConfig.titleBackgroundColor LayoutConfig.subtitleTextColor
    LayoutConfig.subtitleBackgroundColor LayoutConfig.filter].
  repeat (split; [now apply Hd|]).
  split; [|repeat split; now apply Hd].
  destruct (LayoutConfig.p_scale ch) as [v'|]; cbn [LayoutConfig.over_opt].
  - exists v'. split; [reflexivity|exact Hs].
  - exists v. now split.
Qed.

Lemma layout_ok_seeded (config : LayoutConfig.t) (activeFilter : string) :
  layout_ok (App.seededLayout config activeFilter).
Proof.
  unfold layout_ok, defined, App.seededLayout.
  destruct (LayoutConfig.position config);
    cbn [LayoutConfig.x LayoutConfig.y LayoutConfig.subtitleX LayoutConfig.subtitleY
         LayoutConfig.scale LayoutConfig.titleBackgroundColor
         LayoutConfig.subtitleTextColor LayoutConfig.subtitleBackgroundColor
         LayoutConfig.filter];
    repeat (split; [discriminate|]);
    (split; [exists 1; repeat split; lra|]); repeat split; discriminate.
Qed.

Lemma layouts_ok_handleUpdateLayout (ch : LayoutConfig.partial) (st : App.State) :
  tame ch -> layouts_ok st -> layouts_ok (App.handleUpdateLayout ch st).
Proof.
  intros Ht HL. unfold App.handleUpdateLayout.
  destruct (App.layoutConfig st) as [c|] eqn:E; [|exact HL].
  intros c' Hc'. cbn [App.layoutConfig] in Hc'. injection Hc' as <-.
  apply layout_ok_spread; [exact Ht|now apply HL].
Qed.

Lemma handleUpdateLayout_phase (ch : LayoutConfig.partial) (st : App.State) :
  App.appState (App.handleUpdateLayout ch st) = App.appState st /\
  (App.layoutConfig st <> None -> App.layoutConfig (App.handleUpdateLayout ch st) <> None).
Proof.
  unfold App.handleUpdateLayout.
  destruct (App.layoutConfig st); split; try reflexivity; try discriminate. tauto.
Qed.

Lemma layoutDrag_kept (type : LayoutEditorOverlay.DragType) (down : PointerEvent)
      (moves : list (PointerEvent * DOMRect)) (st : App.State) :
  layouts_ok st ->
  layouts_ok (App.layoutDrag type down moves st) /\
  App.appState (App.layoutDrag type down moves st) = App.appState st /\
  (App.layoutConfig st <> None -> App.layoutConfig (App.layoutDrag type down moves st) <> None).
Proof.
  intros HL. unfold App.layoutDrag.
  destruct (App.layoutConfig st) as [c|] eqn:Ec;
    [|split; [exact HL|split; [reflexivity|tauto]]].
  induction moves as [|m moves IH] using rev_ind;
    [cbn [fold_left]; split; [exact HL|split; [reflexivity|congruence]]|].
  rewrite fold_left_app.
  set (before := fold_left _ moves st) in *.
  cbn [fold_left]. unfold App.layoutPointerMove.
  destruct (LayoutEditorOverlay.handlePointerMove _ _ _) as [ch|] eqn:E; [|exact IH].
  destruct IH as (I1 & I2 & I3).
  destruct (handleUpdateLayout_phase ch before) as [P1 P2].
  split; [|split].
  - apply layouts_ok_handleUpdateLayout; [|exact I1].
    unfold LayoutEditorOverlay.handlePointerMove, LayoutEditorOverlay.handlePointerDown in E.
    destruct type; cbn in E; injection E as <-; exact I.
  - now rewrite P1.
  - intros H. apply P2. now apply I3.
Qed.

Lemma stickerDrag_kept (down : PointerEvent) (s : Sticker.t)
      (moves : list (PointerEvent * DOMRect)) (st : App.State) :
  App.layoutConfig (App.stickerDrag down s moves st) = App.layoutConfig st /\
  App.appState (App.stickerDrag down s moves st) = App.appState st.
Proof.
  unfold App.stickerDrag.
  induction moves as [|m moves IH] using rev_ind; [now split|].
  rewrite fold_left_app.
  set (before := fold_left _ moves st) in *.
  cbn [fold_left]. unfold App.stickerPointerMove.
  destruct (StickerOverlay.handlePointerMove _ _ _) as [call|]; [|exact IH].
  destruct call; exact IH.
Qed.

(** What an event leaves of the invariant when it starts no call and
    ends none. *)
Lemma page_inv_kept (l : Page.Live) (st' : App.State) :
  page_inv l ->
  layouts_ok st' ->
  App.appState st' = App.appState (Page.page l) ->
  (App.layoutConfig (Page.page l) <> None -> App.layoutConfig st' <> None) ->
  page_inv (Page.mkLive st' (Page.layoutCalls l) (Page.videoCalls l)).
Proof.
  intros (HL & HA & HV) HL' Hs Hc. split; [exact HL'|].
  cbn [Page.page Page.layoutCalls Page.videoCalls]. rewrite Hs. split; [exact HA|].
  intros H. destruct (HV H) as [H1 H2]. split; [exact H1|now apply Hc].
Qed.

(** The invariant in a phase that shows no loading overlay. *)
Lemma page_inv_quiet (st' : App.State) (layoutCalls : list string) (videoCalls : nat) :
  layouts_ok st' ->
  App.appState st' <> ANALYZING -> App.appState st' <> GENERATING_VIDEO ->
  page_inv (Page.mkLive st' layoutCalls videoCalls).
Proof.
  intros HL H1 H2. split; [exact HL|]. cbn [Page.page]. split; intros H; contradiction.
Qed.

Lemma page_inv_after (l : Page.Live) (e : Page.Event) :
  page_inv l -> Page.enabled l e = true -> page_inv (Page.after l e).
Proof.
  intros Hinv He. pose proof Hinv as (HL & HA & HV).
  destruct l as [st lc vc]. cbn [Page.page Page.layoutCalls Page.videoCalls] in *.
  assert (Hsimple : forall ch, tame ch ->
            page_inv (Page.mkLive (App.handleUpdateLayout ch st) lc vc)).
  { intros ch Hch. destruct (handleUpdateLayout_phase ch st) as [P1 P2].
    apply (page_inv_kept (Page.mkLive st lc vc) _ Hinv); [|exact P1|exact P2].
    now apply layouts_ok_handleUpdateLayout. }
  destruct e; unfold Page.after; cbn [Page.page Page.layoutCalls Page.videoCalls Page.step].
  - (* image selected *) apply page_inv_quiet; [exact HL|discriminate|discriminate].
  - (* crop confirm *) apply page_inv_quiet; [exact HL|discriminate|discriminate].
  - (* re-crop *) unfold Page.handleReCrop.
    destruct (App.rawImage st =? "")%string; [exact Hinv|].
    apply page_inv_quiet; [exact HL|discriminate|discriminate].
  - (* crop cancel *) unfold Page.cropCancel.
    destruct (App.rawImage st =? "")%string;
      (apply page_inv_quiet; [exact HL|discriminate|discriminate]).
  - (* ratio *) apply page_inv_quiet; [exact HL|discriminate|discriminate].
  - (* theme *) exact Hinv.
  - (* tab *) exact Hinv.
  - (* filter *) unfold Page.handleFilterChange.
    destruct (App.layoutConfig st) as [c|] eqn:E.
    + apply (page_inv_kept (Page.mkLive st lc vc) _ Hinv).
      * intros c' Hc'. cbn [Page.set_layoutConfig App.layoutConfig] in Hc'.
        injection Hc' as <-. apply layout_ok_spread; [exact I|now apply HL].
      * reflexivity.
      * discriminate.
    + apply (page_inv_kept (Page.mkLive st lc vc) _ Hinv).
      * intros c Hc. cbn [Page.set_activeFilter App.layoutConfig] in Hc. congruence.
      * reflexivity.
      * intros H. exact H.
  - (* layout button *) destruct (Page.callsLayout st); [|exact Hinv].
    split; [exact HL|]. cbn [Page.page Page.layoutCalls Page.layoutStart
      Page.set_activeTab Page.set_appState App.appState]. split.
    + intros _ H. now apply app_eq_nil in H as [_ H].
    + discriminate.
  - (* layout call ends *) destruct service as [config|message];
      (apply page_inv_quiet; [|discriminate|discriminate]).
    + intros c Hc. cbn in Hc. injection Hc as <-. apply layout_ok_seeded.
    + exact HL.
  - (* font *) apply Hsimple. exact I.
  - (* scale *) apply Hsimple. cbn in He. apply andb_true_iff in He as [H1 H2].
    split; now apply Qle_bool_iff.
  - apply Hsimple. exact I.
  - apply Hsimple. exact I.
  - apply Hsimple. exact I.
  - apply Hsimple. exact I.
  - apply Hsimple. exact I.
  - (* layout drag *) destruct (layoutDrag_kept type down moves st HL) as (D1 & D2 & D3).
    exact (page_inv_kept (Page.mkLive st lc vc) _ Hinv D1 D2 D3).
  - (* add sticker *) unfold App.handleAddSticker.
    destruct (App.appState st) eqn:E;
      try (apply (page_inv_kept (Page.mkLive st lc vc) _ Hinv);
           [exact HL|now symmetry|tauto]).
    apply page_inv_quiet; [exact HL|discriminate|discriminate].
  - (* sticker drag *) unfold Page.onSticker.
    destruct (nth_error (App.stickers st) i) as [s|]; [|exact Hinv].
    destruct (stickerDrag_kept down s moves st) as [S1 S2].
    apply (page_inv_kept (Page.mkLive st lc vc) _ Hinv).
    + intros c Hc. rewrite S1 in Hc. now apply HL.
    + exact S2.
    + now rewrite S1.
  - unfold Page.onSticker.
    destruct (nth_error (App.stickers st) i) as [s|]; exact Hinv.
  - unfold Page.onSticker.
    destruct (nth_error (App.stickers st) i) as [s|]; exact Hinv.
  - unfold Page.onSticker.
    destruct (nth_error (App.stickers st) i) as [s|]; exact Hinv.
  - (* video button *) unfold Page.callsVideo.
    destruct canvasRef; cbn [andb]; [|exact Hinv].
    destruct (App.layoutConfig st) as [c|] eqn:E; [|exact Hinv].
    split; [exact HL|]. cbn [Page.page Page.videoCalls Page.videoStart
      Page.set_appState App.appState App.layoutConfig]. split; [discriminate|].
    intros _. split; [discriminate|now rewrite E].
  - (* video status *)
    apply (page_inv_kept (Page.mkLive st lc vc) _ Hinv); [exact HL|reflexivity|tauto].
  - (* video call ends *) destruct service as [uri|u];
      (apply page_inv_quiet; [exact HL|discriminate|discriminate]).
  - (* reset *) apply page_inv_quiet; [|discriminate|discriminate].
    intros c Hc. discriminate Hc.
  - (* retry *) destruct (Page.retryCallsLayout st).
    + split; [exact HL|]. cbn [Page.page Page.layoutCalls Page.layoutStart
        Page.set_activeTab Page.set_appState App.appState]. split.
      * intros _ H. now apply app_eq_nil in H as [_ H].
      * discriminate.
    + apply page_inv_quiet; [|discriminate|discriminate].
      intros c Hc. discriminate Hc.
Qed.

Lemma reaches_page_inv (l : Page.Live) : Page.reaches l -> page_inv l.
Proof.
  induction 1 as [|l e Hl IH He].
  - apply page_inv_quiet; [|discriminate|discriminate]. intros c Hc. discriminate Hc.
  - now apply page_inv_after.
Qed.

(** X7. In every state the page can reach, a layout it holds has all
    four percentage coordinates set, a scale between 0.5 and 2.5 and a
    filter of its own. The compositor therefore places title and
    subtitle of such a layout at the stored percentages, never at the
    positions it would derive from the position hint, and the canvas is
    rendered with the filter of the layout (with the active filter only
    if that one is empty, or when the page holds no layout). The filter
    of the layout need not be the active one: the layout a pending call
    brings is stored with the filter that was active when the call was
    made. *)
Theorem X7_page_layout_is_fully_seeded (st : App.State) :
  Page.reachable st ->
  (forall c, App.layoutConfig st = Some c ->
     exists x y sx sy v f,
       LayoutConfig.x c = Some x /\ LayoutConfig.y c = Some y /\
       LayoutConfig.subtitleX c = Some sx /\ LayoutConfig.subtitleY c = Some sy /\
       LayoutConfig.scale c = Some v /\ 0.5 <= v /\ v <= 2.5 /\
       LayoutConfig.filter c = Some f /\
       CoverCanvas.filter (Page.coverCanvasProps st)
       = Some (if (f =? "")%string then App.activeFilter st else f) /\
       forall width height : number,
         CoverCanvas.titlePosition c width height
         = ((x / 100) * width, (y / 100) * height) /\
         CoverCanvas.subtitlePosition c width height
         = ((sx / 100) * width, (sy / 100) * height)) /\
  (App.layoutConfig st = None ->
   CoverCanvas.filter (Page.coverCanvasProps st) = Some (App.activeFilter st)).
Proof.
  intros (l & Hl & <-). destruct (reaches_page_inv l Hl) as (HL & _ & _). split.
  - intros c Hc.
    destruct (HL c Hc) as (Hx & Hy & Hsx & Hsy & (v & Hv & Hlo & Hhi) & _ & _ & _ & Hf).
    unfold defined in *.
    destruct (LayoutConfig.x c) as [x|] eqn:Ex; [|contradiction].
    destruct (LayoutConfig.y c) as [y|] eqn:Ey; [|contradiction].
    destruct (LayoutConfig.subtitleX c) as [sx|] eqn:Esx; [|contradiction].
    destruct (LayoutConfig.subtitleY c) as [sy|] eqn:Esy; [|contradiction].
    destruct (LayoutConfig.filter c) as [f|] eqn:Ef; [|contradiction].
    exists x, y, sx, sy, v, f. repeat (split; [reflexivity || assumption|]).
    split.
    + unfold Page.coverCanvasProps. cbn [CoverCanvas.filter]. rewrite Hc, Ef.
      reflexivity.
    + intros width height.
      unfold CoverCanvas.subtitlePosition, CoverCanvas.titlePosition.
      rewrite Ex, Ey, Esx, Esy. split; reflexivity.
  - intros Hn. unfold Page.coverCanvasProps. cbn [CoverCanvas.filter]. now rewrite Hn.
Qed.

(** In the session the filter was changed while the layout call was
    pending: the page shows the later filter as active, and the canvas
    is rendered with the earlier one, which the layout carries. *)
Lemma X7_page_layout_is_fully_seeded_witness :
  Page.reachable (Page.run session) /\
  App.activeFilter (Page.run session) = "grayscale(1) contrast(1.2)"%string /\
  CoverCanvas.filter (Page.coverCanvasProps (Page.run session))
  = Some "saturate(1.5) contrast(1.1)"%string.
Proof.
  split; [exact session_reachable|]. split; [reflexivity|].
  destruct (App.layoutConfig (Page.run session)) as [c|] eqn:E;
    [|vm_compute in E; discriminate].
  destruct (proj1 (X7_page_layout_is_fully_seeded (Page.run session) session_reachable)
              c E)
    as (x & y & sx & sy & v & f & _ & _ & _ & _ & _ & _ & _ & Hf & Hcanvas & _).
  rewrite Hcanvas. vm_compute in E. injection E as <-.
  cbn [LayoutConfig.filter] in Hf. injection Hf as <-. reflexivity.
Defined.

(** X8. The loading overlay is only shown while a call is pending: in
    every state of the page and of its pending calls that can be
    reached, the phase [ANALYZING] comes with a pending layout call,
    and the phase [GENERATING_VIDEO] with a pending video call and with
    a layout on the page, so that the canvas below the overlay is
    rendered with that layout and not with the placeholder config. The
    other phases carry no such guarantee, since the result of a pending
    call is applied whatever happened meanwhile: when the page is reset
    while a video call is pending and the call then returns a URL, the
    page is in the phase [COMPLETED] with that URL and with no image, no
    title and no layout. *)
Theorem X8_page_phases (l : Page.Live) :
  Page.reaches l ->
  (App.appState (Page.page l) = ANALYZING -> Page.layoutCalls l <> []) /\
  (App.appState (Page.page l) = GENERATING_VIDEO ->
   Page.videoCalls l <> 0%nat /\
   exists c, App.layoutConfig (Page.page l) = Some c /\
             CoverCanvas.layoutConfig (Page.coverCanvasProps (Page.page l)) = Some c) /\
  (Page.videoCalls l <> 0%nat ->
   forall uri : string,
     let late := Page.after (Page.after l Page.EvReset) (Page.EvVideoDone (inl uri)) in
     Page.reaches late /\
     App.appState (Page.page late) = COMPLETED /\
     App.videoUrl (Page.page late) = uri /\
     App.layoutConfig (Page.page late) = None /\
     App.croppedImage (Page.page late) = EmptyString /\
     App.theme (Page.page late) = EmptyString).
Proof.
  intros Hl. destruct (reaches_page_inv l Hl) as (_ & HA & HV).
  split; [exact HA|]. split.
  - intros H. destruct (HV H) as [H1 H2]. split; [exact H1|].
    unfold Page.coverCanvasProps. cbn [CoverCanvas.layoutConfig].
    destruct (App.layoutConfig (Page.page l)) as [c|]; [|contradiction]. now exists c.
  - intros Hv uri late. subst late. split; [|repeat split].
    apply Page.reaches_after; [now apply Page.reaches_after|].
    cbn [Page.enabled Page.after Page.videoCalls].
    destruct (Page.videoCalls l); [contradiction|reflexivity].
Qed.

Lemma X8_page_phases_witness :
  let l := Page.live (session ++ [Page.EvGenerateVideo true]) in
  Page.reaches l /\
  App.appState (Page.page l) = GENERATING_VIDEO /\
  Page.videoCalls l <> 0%nat.
Proof.
  intros l.
  assert (Hl : Page.reaches l) by (apply reaches_live; reflexivity).
  split; [exact Hl|]. split; [reflexivity|].
  exact (proj1 (proj1 (proj2 (X8_page_phases l Hl)) eq_refl)).
Defined.

(** ** The compositor: the filter stays on the base image *)

Lemma calm_bind {A B} (m : Canvas2D.M A) (k : A -> Canvas2D.M B) :
  calm m -> (forall a, calm (k a)) -> calm (Canvas2D.bind m k).
Proof.
  intros Hm Hk c. unfold Canvas2D.bind.
  destruct (Hm c) as (H1 & H2 & H3 & ps & H4 & H5).
  destruct (m c) as [a c1]. cbn [snd] in *.
  destruct (Hk a c1) as (K1 & K2 & K3 & qs & K4 & K5).
  split; [congruence|]. split; [congruence|]. split; [congruence|].
  exists (ps ++ qs)%list. split.
  - rewrite K4, H4. now rewrite app_assoc.
  - apply Forall_app. split; [exact H5|].
    apply (Forall_impl _ (P := fun p => Canvas2D.filter (Paints.state_of p)
                                      = Canvas2D.filter (Canvas2D.state c1)));
      [|exact K5].
    intros p Hp. congruence.
Qed.

Lemma calm_ret {A} (a : A) : calm (Canvas2D.ret a).
Proof.
  intros c. repeat split. exists []. split; [now rewrite app_nil_r|constructor].
Qed.

Lemma calm_modify (f : Canvas2D.DrawState -> Canvas2D.DrawState) :
  (forall s, Canvas2D.filter (f s) = Canvas2D.filter s /\
             Canvas2D.transform (f s) = Canvas2D.transform s) ->
  calm (Canvas2D.modify f).
Proof.
  intros Hf c. cbn. destruct (Hf (Canvas2D.state c)) as [H1 H2].
  repeat split; try assumption.
  exists []. split; [now rewrite app_nil_r|constructor].
Qed.

Lemma calm_paint (f : Canvas2D.DrawState -> Canvas2D.Paint) :
  (forall s, Paints.state_of (f s) = s) -> calm (Canvas2D.paint f).
Proof.
  intros Hf c. cbn. repeat split.
  exists [f (Canvas2D.state c)]. split; [reflexivity|].
  constructor; [now rewrite Hf|constructor].
Qed.

Lemma calm_with_path f : calm (Canvas2D.with_path f).
Proof.
  intros c. cbn. repeat split. exists []. split; [now rewrite app_nil_r|constructor].
Qed.

Lemma calm_fill : calm Canvas2D.fill.
Proof.
  intros c. cbn. repeat split.
  exists [Canvas2D.Fill (Canvas2D.path c) (Canvas2D.state c)].
  split; [reflexivity|]. constructor; [reflexivity|constructor].
Qed.

Lemma calm_get_font : calm Canvas2D.get_font.
Proof.
  intros c. cbn. repeat split. exists []. split; [now rewrite app_nil_r|constructor].
Qed.

Lemma calm_when (b : bool) (m : Canvas2D.M unit) : calm m -> calm (Canvas2D.when b m).
Proof. intros Hm. destruct b; [exact Hm|apply calm_ret]. Qed.

Lemma calm_forEach {A} (l : list A) (f : A -> Canvas2D.M unit) :
  (forall a, calm (f a)) -> calm (Canvas2D.forEach l f).
Proof.
  intros Hf. induction l as [|a l IH]; cbn [Canvas2D.forEach].
  - apply calm_ret.
  - apply calm_bind; [apply Hf|intros _; exact IH].
Qed.

Lemma calm_drawSticker (w h : number) (s : Sticker.t) :
  calm (CoverCanvas.drawSticker w h s).
Proof.
  intros c.
  change (snd (CoverCanvas.drawSticker w h s c))
    with (Canvas2D.exec (CoverCanvas.drawSticker w h s) c).
  rewrite drawSticker_exec. cbn [Canvas2D.add_paints Canvas2D.state Canvas2D.saved
                                 Canvas2D.painted].
  repeat split. eexists. split; [reflexivity|].
  unfold CoverCanvas.stickerPaints. destruct (Sticker.type s); constructor.
  - reflexivity.
  - constructor.
Qed.

Ltac calm_step :=
  lazymatch goal with
  | |- calm (Canvas2D.bind _ _) => apply calm_bind; [|intros ?]
  | |- calm (Canvas2D.ret _) => apply calm_ret
  | |- calm (Canvas2D.modify _) => apply calm_modify; intros ?; split; reflexivity
  | |- calm (Canvas2D.paint _) => apply calm_paint; intros ?; reflexivity
  | |- calm (Canvas2D.with_path _) => apply calm_with_path
  | |- calm Canvas2D.fill => apply calm_fill
  | |- calm Canvas2D.get_font => apply calm_get_font
  | |- calm (Canvas2D.when _ _) => apply calm_when
  end.

Ltac calm_tac :=
  unfold Canvas2D.set_fillStyle, Canvas2D.set_strokeStyle, Canvas2D.set_font,
    Canvas2D.set_textAlign, Canvas2D.set_textBaseline, Canvas2D.set_lineJoin,
    Canvas2D.set_miterLimit, Canvas2D.set_lineWidth,
    Canvas2D.fillRect, Canvas2D.strokeText, Canvas2D.fillText,
    Canvas2D.beginPath, Canvas2D.moveTo, Canvas2D.lineTo, Canvas2D.quadraticCurveTo,
    Canvas2D.closePath;
  repeat calm_step.

Lemma calm_roundRect (x y w h r : number) : calm (CoverCanvas.roundRect x y w h r).
Proof. unfold CoverCanvas.roundRect; calm_tac. Qed.

Lemma calm_drawLayoutText text_width (config : LayoutConfig.t) (title : string)
      (w h : number) :
  calm (CoverCanvas.drawLayoutText text_width config title w h).
Proof.
  unfold CoverCanvas.drawLayoutText, CoverCanvas.drawTitle, CoverCanvas.drawSubtitle,
    CoverCanvas.measureText.
  destruct (CoverCanvas.fontSettings config), (CoverCanvas.titlePosition config w h),
    (CoverCanvas.subtitlePosition config w h).
  calm_tac; apply calm_roundRect.
Qed.

Lemma calm_afterBaseImage text_width (p : CoverCanvas.Props) :
  calm (afterBaseImage text_width p).
Proof.
  unfold afterBaseImage. calm_tac.
  - destruct (CoverCanvas.layoutConfig p); [apply calm_drawLayoutText|apply calm_ret].
  - apply calm_forEach. intros s. apply calm_drawSticker.
Qed.

(** X9. A render paints the base image first, over the whole canvas,
    under the filter of the props (none when the prop is missing or
    empty), and everything painted after it (tone overlay, title,
    subtitle, stickers) is painted with no filter. When the render is
    over the save stack is empty and filter and transform are back to
    their defaults: neither the filter nor a sticker transform leaks. *)
Theorem X9_filter_only_on_base_image
        (text_width : Canvas2D.Font -> string -> number)
        (p : CoverCanvas.Props) (c : Canvas2D.Canvas) :
  exists c' s0 rest,
    CoverCanvas.render text_width p (Some c) = Some c' /\
    Canvas2D.painted c'
    = Canvas2D.DrawImage ("data:image/png;base64," ++ CoverCanvas.imageBase64 p)
                         0 0 (CoverCanvas.width p) (CoverCanvas.height p) s0 :: rest /\
    Canvas2D.filter s0 = Paints.effectiveFilter p /\
    Canvas2D.transform s0 = [] /\
    Forall (fun q => Canvas2D.filter (Paints.state_of q) = "none"%string) rest /\
    Canvas2D.saved c' = [] /\
    Canvas2D.filter (Canvas2D.state c') = "none"%string /\
    Canvas2D.transform (Canvas2D.state c') = [].
Proof.
  rewrite render_on_canvas.
  set (c0 := Canvas2D.resize (CoverCanvas.width p) (CoverCanvas.height p) c).
  set (f := match CoverCanvas.filter p with Some f => f | None => "none"%string end).
  set (s0 := if (negb (f =? "") && negb (f =? "none"))%string
             then Canvas2D.with_filter f Canvas2D.default_state
             else Canvas2D.default_state).
  set (c1 := Canvas2D.mkCanvas (CoverCanvas.width p) (CoverCanvas.height p)
               Canvas2D.default_state [] []
               [Canvas2D.DrawImage ("data:image/png;base64," ++ CoverCanvas.imageBase64 p)
                  0 0 (CoverCanvas.width p) (CoverCanvas.height p) s0]).
  assert (Hsplit : Canvas2D.exec (CoverCanvas.onload text_width p) c0
                   = Canvas2D.exec (afterBaseImage text_width p) c1).
  { subst c1 s0 c0. unfold CoverCanvas.onload, afterBaseImage. fold f.
    destruct (negb (f =? "") && negb (f =? "none"))%string; reflexivity. }
  destruct (calm_afterBaseImage text_width p c1) as (H1 & H2 & H3 & ps & H4 & H5).
  exists (Canvas2D.exec (afterBaseImage text_width p) c1), s0, ps.
  split; [now rewrite Hsplit|].
  split; [exact H4|].
  split.
  { subst s0 f. unfold Paints.effectiveFilter.
    destruct (CoverCanvas.filter p) as [f|]; [|reflexivity].
    destruct (f =? "")%string eqn:E1; [reflexivity|].
    destruct (f =? "none")%string eqn:E2; [|reflexivity].
    apply String.eqb_eq in E2. now subst f. }
  split.
  { subst s0. now destruct (negb (f =? "") && negb (f =? "none"))%string. }
  split; [exact H5|]. split; [exact H3|]. split; [exact H1|exact H2].
Qed.

(** ** The compositor: geometry, fonts and colours of the text layers *)

Lemma Qmin_scale (k a b : Q) : 0 <= k -> Qmin (k * a) (k * b) == k * Qmin a b.
Proof.
  intros Hk. destruct (Qlt_le_dec a b) as [H|H].
  - rewrite (Q.min_l a b) by now apply Qlt_le_weak.
    apply Q.min_l. rewrite !(Qmult_comm k).
    apply Qmult_le_compat_r; [now apply Qlt_le_weak|exact Hk].
  - rewrite (Q.min_r a b) by exact H.
    apply Q.min_r. rewrite !(Qmult_comm k).
    now apply Qmult_le_compat_r.
Qed.

Lemma baseSize_scale (config : LayoutConfig.t) (k w h : number) :
  0 <= k ->
  CoverCanvas.baseSize config (k * w) (k * h) == k * CoverCanvas.baseSize config w h.
Proof.
  intros Hk. unfold CoverCanvas.baseSize. rewrite (Qmin_scale k w h Hk). ring.
Qed.

(** X10. The text layers are resolution independent: on a canvas k
    times as wide and as high (k > 0), with the same layout config, the
    title and subtitle font sizes and both coordinates of the title and
    subtitle anchors are k times what they are on the original canvas,
    for stored percentages as well as for hint-derived positions. *)
Theorem X10_text_geometry_scales_with_canvas
        (config : LayoutConfig.t) (k w h : number) :
  0 < k ->
  CoverCanvas.baseSize config (k * w) (k * h) == k * CoverCanvas.baseSize config w h /\
  CoverCanvas.subtitleSize config (k * w) (k * h)
    == k * CoverCanvas.subtitleSize config w h /\
  fst (CoverCanvas.titlePosition config (k * w) (k * h))
    == k * fst (CoverCanvas.titlePosition config w h) /\
  snd (CoverCanvas.titlePosition config (k * w) (k * h))
    == k * snd (CoverCanvas.titlePosition config w h) /\
  fst (CoverCanvas.subtitlePosition config (k * w) (k * h))
    == k * fst (CoverCanvas.subtitlePosition config w h) /\
  snd (CoverCanvas.subtitlePosition config (k * w) (k * h))
    == k * snd (CoverCanvas.subtitlePosition config w h).
Proof.
  intros Hk.
  assert (Hb := baseSize_scale config k w h (Qlt_le_weak _ _ Hk)).
  assert (Htx : fst (CoverCanvas.titlePosition config (k * w) (k * h))
                == k * fst (CoverCanvas.titlePosition config w h)).
  { unfold CoverCanvas.titlePosition.
    destruct (LayoutConfig.x config), (LayoutConfig.y config); cbn [fst]; field. }
  assert (Hty : snd (CoverCanvas.titlePosition config (k * w) (k * h))
                == k * snd (CoverCanvas.titlePosition config w h)).
  { unfold CoverCanvas.titlePosition.
    destruct (LayoutConfig.x config), (LayoutConfig.y config); cbn [snd];
      try field;
      destruct (LayoutConfig.position config); try rewrite Hb; field. }
  split; [exact Hb|]. split.
  { unfold CoverCanvas.subtitleSize. rewrite Hb. ring. }
  split; [exact Htx|]. split; [exact Hty|].
  unfold CoverCanvas.subtitlePosition.
  destruct (CoverCanvas.titlePosition config (k * w) (k * h)) as [tx' ty'].
  destruct (CoverCanvas.titlePosition config w h) as [tx ty].
  cbn [fst snd] in Htx, Hty.
  destruct (LayoutConfig.subtitleX config), (LayoutConfig.subtitleY config);
    try (cbn [fst snd]; split; field);
    destruct (CoverCanvas.Position_eqb (LayoutConfig.position config) pos_split
              && CoverCanvas.is_undefined (LayoutConfig.x config));
    cbn [fst snd]; (split; [exact Htx|]); try rewrite Hty; try rewrite Hb; ring.
Qed.

(** The seeded fallback layout on a 750 x 1000 canvas and on one twice
    as large. *)
Lemma X10_text_geometry_scales_with_canvas_witness :
  0 < 2 /\
  CoverCanvas.baseSize Examples.seeded (2 * 750) (2 * 1000)
    == 2 * CoverCanvas.baseSize Examples.seeded 750 1000.
Proof.
  split; [reflexivity|].
  exact (proj1 (X10_text_geometry_scales_with_canvas Examples.seeded 2 750 1000 eq_refl)).
Defined.



(** X12. For a layout seeded from a service answer the compositor draws
    the subtitle in the colours it would have derived itself from the
    answer: white text on a pill of the shadow colour when the title is
    white (#FFFFFF), text of the shadow colour on a white pill
    otherwise. Text and pill get the same colour exactly when the shadow
    colour is white. *)
Theorem X12_seeded_subtitle_colours (json : LayoutService.Json) (activeFilter : string) :
  let answer := LayoutService.withFontFamily json in
  let layout := App.seededLayout answer activeFilter in
  let white := (LayoutService.j_textColor json =? "#FFFFFF")%string in
  CoverCanvas.subTextFinal layout = CoverCanvas.subTextFinal answer /\
  CoverCanvas.subBgFinal layout = CoverCanvas.subBgFinal answer /\
  CoverCanvas.subTextFinal layout
  = (if white then "#FFFFFF"%string else LayoutService.j_shadowColor json) /\
  CoverCanvas.subBgFinal layout
  = (if white then LayoutService.j_shadowColor json else "#FFFFFF"%string) /\
  (CoverCanvas.subTextFinal layout = CoverCanvas.subBgFinal layout
   <-> LayoutService.j_shadowColor json = "#FFFFFF"%string).
Proof.
  intros answer layout white.
  assert (Ht : CoverCanvas.subTextFinal layout
               = (if white then "#FFFFFF"%string else LayoutService.j_shadowColor json)).
  { subst layout answer white.
    unfold CoverCanvas.subTextFinal, App.seededLayout, LayoutService.withFontFamily.
    cbn [LayoutConfig.position LayoutConfig.textColor LayoutConfig.shadowColor].
    destruct (LayoutService.j_position json);
      cbn [LayoutConfig.textColor LayoutConfig.shadowColor LayoutConfig.subtitleTextColor or_else];
      destruct (LayoutService.j_textColor json =? "#FFFFFF")%string;
      try reflexivity;
      destruct (LayoutService.j_shadowColor json =? "")%string; reflexivity. }
  assert (Hb : CoverCanvas.subBgFinal layout
               = (if white then LayoutService.j_shadowColor json else "#FFFFFF"%string)).
  { subst layout answer white.
    unfold CoverCanvas.subBgFinal, App.seededLayout, LayoutService.withFontFamily.
    cbn [LayoutConfig.position LayoutConfig.textColor LayoutConfig.shadowColor].
    destruct (LayoutService.j_position json);
      cbn [LayoutConfig.textColor LayoutConfig.shadowColor LayoutConfig.subtitleBackgroundColor or_else];
      destruct (LayoutService.j_textColor json =? "#FFFFFF")%string;
      try reflexivity;
      destruct (LayoutService.j_shadowColor json =? "")%string; reflexivity. }
  split; [rewrite Ht; reflexivity|]. split; [rewrite Hb; reflexivity|].
  split; [exact Ht|]. split; [exact Hb|].
  rewrite Ht, Hb. destruct white; split; intros H; congruence.
Qed.

(** ** Data URLs: from the file reader and the canvases to the base64
    payload and back *)

Lemma split_lacks (s : string) : lacks comma s = true -> split comma s = [s].
Proof.
  induction s as [|c s IH]; [reflexivity|]. cbn [lacks split]. intros H.
  apply andb_true_iff in H as [Hc Hs]. apply negb_true_iff in Hc.
  rewrite Hc, (IH Hs). reflexivity.
Qed.

Lemma split_app (a b : string) :
  lacks comma a = true ->
  split comma (a ++ String comma b) = a :: split comma b.
Proof.
  induction a as [|c a IH]; intros H.
  - cbn [String.append split]. now rewrite Ascii.eqb_refl.
  - cbn [lacks] in H. apply andb_true_iff in H as [Hc Ha]. apply negb_true_iff in Hc.
    cbn [String.append split]. rewrite Hc, (IH Ha). reflexivity.
Qed.

Lemma lacks_app (a b : string) :
  lacks comma (a ++ b) = lacks comma a && lacks comma b.
Proof.
  induction a as [|c a IH]; [reflexivity|]. cbn [String.append lacks].
  now rewrite IH, andb_assoc.
Qed.

(** X13. The base64 payload taken from a data URL by
    [split(',')[1]] is the payload the URL was built from, whenever
    the mime type and the payload contain no comma (base64 never does):
    the uploader hands on exactly the bytes of the file, and the
    compositor, which prefixes its image data with
    [data:image/png;base64,], loads a URL that decodes to the data it
    was given. A string without a comma has no such payload. *)
Theorem X13_data_url_payload_round_trip (file : ImageUploader.File) (payload : string) :
  lacks comma (ImageUploader.type file) = true ->
  lacks comma payload = true ->
  afterComma (ImageUploader.dataURL (ImageUploader.type file) payload) = Some payload /\
  ImageUploader.onload file (ImageUploader.dataURL (ImageUploader.type file) payload)
  = ImageUploader.mkSelected
      (Some payload) (ImageUploader.type file)
      (ImageUploader.dataURL (ImageUploader.type file) payload) /\
  afterComma ("data:image/png;base64," ++ payload) = Some payload /\
  afterComma payload = None.
Proof.
  intros Hm Hp.
  assert (H : forall mime, lacks comma mime = true ->
                afterComma (ImageUploader.dataURL mime payload) = Some payload).
  { intros mime Hmime. unfold afterComma, ImageUploader.dataURL.
    replace ("data:" ++ mime ++ ";base64," ++ payload)%string
      with (("data:" ++ mime ++ ";base64") ++ String comma payload)%string.
    - rewrite split_app.
      + rewrite (split_lacks payload Hp). reflexivity.
      + change ("data:" ++ mime ++ ";base64")%string
          with ("data:" ++ (mime ++ ";base64"))%string.
        rewrite !lacks_app, Hmime. reflexivity.
    - cbn [String.append]. do 5 f_equal.
      induction mime as [|c mime IH]; [reflexivity|].
      cbn [String.append]. f_equal. apply IH.
      cbn [lacks] in Hmime. now apply andb_true_iff in Hmime as [_ Hmime]. }
  split; [now apply H|]. split.
  - unfold ImageUploader.onload. now rewrite (H _ Hm).
  - split; [exact (H "image/png"%string eq_refl)|].
    unfold afterComma. now rewrite (split_lacks payload Hp).
Qed.

Lemma X13_data_url_payload_round_trip_witness :
  (lacks comma "image/jpeg" = true /\ lacks comma "AAAA" = true) /\
  afterComma (ImageUploader.dataURL "image/jpeg" "AAAA") = Some "AAAA"%string.
Proof.
  split; [split; reflexivity|].
  exact (proj1 (X13_data_url_payload_round_trip
                  (ImageUploader.mkFile "image/jpeg" 2048) "AAAA" eq_refl eq_refl)).
Defined.

(** ** The video service: the polling loop and its failures *)

Lemma statuses_app (a b : list VeoService.Effect) :
  VeoService.statuses (a ++ b) = (VeoService.statuses a ++ VeoService.statuses b)%list.
Proof.
  induction a as [|e a IH]; [reflexivity|].
  destruct e; cbn [app VeoService.statuses]; now rewrite IH.
Qed.

Lemma count_polls_app (a b : list VeoService.Effect) :
  VeoService.count_polls (a ++ b)
  = (VeoService.count_polls a + VeoService.count_polls b)%nat.
Proof.
  induction a as [|e a IH]; [reflexivity|].
  destruct e; cbn [app VeoService.count_polls]; now rewrite IH.
Qed.

Lemma count_polls_milestone (k : nat) :
  VeoService.count_polls (VeoService.milestone k) = 0%nat.
Proof. do 7 (destruct k as [|k]; [reflexivity|]). reflexivity. Qed.

Lemma poll_done (operation : VeoService.Operation) (attempts : nat)
      (answers : list VeoService.Reply) :
  VeoService.done operation = true ->
  VeoService.poll operation attempts answers = ([], inl (inl operation)).
Proof. intros H. destruct answers; cbn [VeoService.poll]; now rewrite H. Qed.

Lemma poll_step (operation next : VeoService.Operation) (attempts : nat)
      (answers : list VeoService.Reply) :
  VeoService.done operation = false ->
  VeoService.poll operation attempts (VeoService.Op next :: answers)
  = (([VeoService.wait5000] ++ VeoService.milestone (S attempts)
        ++ [VeoService.getVideosOperation])
       ++ fst (VeoService.poll next (S attempts) answers),
     snd (VeoService.poll next (S attempts) answers))%list.
Proof.
  intros H. cbn [VeoService.poll]. rewrite H.
  now destruct (VeoService.poll next (S attempts) answers).
Qed.

Lemma poll_pending (pending : list VeoService.Operation) :
  forall (attempts : nat) (operation final : VeoService.Operation)
         (rest : list VeoService.Reply),
    VeoService.done operation = false ->
    Forall (fun o => VeoService.done o = false) pending ->
    VeoService.done final = true ->
    let r := VeoService.poll operation attempts
               (map VeoService.Op pending ++ VeoService.Op final :: rest) in
    snd r = inl (inl final) /\
    VeoService.statuses (fst r)
    = VeoService.statuses
        (flat_map VeoService.milestone (seq (S attempts) (S (List.length pending)))) /\
    VeoService.count_polls (fst r) = S (List.length pending).
Proof.
  induction pending as [|p pending IH]; intros attempts operation final rest Ho Hp Hf r;
    subst r.
  - cbn [map app]. rewrite (poll_step _ _ _ _ Ho), (poll_done _ _ _ Hf).
    cbn [fst snd List.length seq flat_map]. rewrite !app_nil_r.
    split; [reflexivity|]. split.
    + rewrite !statuses_app. cbn [VeoService.statuses]. now rewrite app_nil_r.
    + rewrite !count_polls_app, count_polls_milestone. reflexivity.
  - inversion Hp as [|? ? Hp1 Hp2]; subst.
    cbn [map app]. rewrite (poll_step _ _ _ _ Ho). cbn [fst snd].
    destruct (IH (S attempts) p final rest Hp1 Hp2 Hf) as (H1 & H2 & H3).
    split; [exact H1|]. split.
    + rewrite !statuses_app, H2. cbn [VeoService.statuses List.length seq flat_map].
      rewrite !statuses_app. cbn [VeoService.statuses]. now rewrite app_nil_r.
    + rewrite !count_polls_app, count_polls_milestone, H3. reflexivity.
Qed.

Lemma milestones_late (j a : nat) :
  (7 <= a)%nat -> flat_map VeoService.milestone (seq a j) = [].
Proof.
  revert a. induction j as [|j IH]; intros a Ha; [reflexivity|].
  cbn [seq flat_map]. rewrite IH by (apply le_S; exact Ha).
  do 7 (destruct a as [|a]; [exfalso; inversion Ha; repeat
    match goal with H : (_ <= _)%nat |- _ => inversion H; clear H end|]).
  reflexivity.
Qed.

(** What [ensureApiKey] does is a warning or the key dialog, and
    nothing else. *)
Lemma ensureApiKey_effects (w : VeoService.World) :
  (forall e, In e (fst (VeoService.ensureApiKey w)) ->
             e = VeoService.consoleWarn \/ e = VeoService.openSelectKey) /\
  (VeoService.aistudio w = None ->
   VeoService.ensureApiKey w = ([VeoService.consoleWarn], None)) /\
  VeoService.statuses (fst (VeoService.ensureApiKey w)) = [] /\
  VeoService.count_polls (fst (VeoService.ensureApiKey w)) = 0%nat.
Proof.
  unfold VeoService.ensureApiKey.
  destruct (VeoService.aistudio w) as [studio|].
  - destruct (AIStudio.hasSelectedApiKey studio) as [[|]|e]; cbn [negb];
      [| destruct (AIStudio.openSelectKey studio) |];
      cbn [fst In VeoService.statuses VeoService.count_polls];
      (split; [intros e0 H; intuition|]); (split; [discriminate|]); split; reflexivity.
  - cbn [fst In VeoService.statuses VeoService.count_polls].
    split; [intros e0 H; intuition|]. split; [reflexivity|]. split; reflexivity.
Qed.

(** X14. When the key check and the client constructor before the
    request succeed, the service starts an operation that is not done,
    answers the next polls with operations that are not done and then
    with a done one that carries a video URI, and the download
    succeeds, [generateVideo] returns the blob URL after exactly one
    poll per pending answer plus one; the status messages are the two
    opening ones, the milestones of attempts 1, 3 and 6 that were
    reached, and the closing one. From six polls on, all six messages
    are sent; the answers after the done one are never asked for. *)
Theorem X14_polling_until_done (w : VeoService.World)
        (first final : VeoService.Operation) (pending : list VeoService.Operation)
        (rest : list VeoService.Reply) (statusText blobUrl : string) :
  snd (VeoService.ensureApiKey w) = None ->
  VeoService.client w = AIStudio.Resolves tt ->
  VeoService.started w = VeoService.Op first ->
  VeoService.done first = false ->
  Forall (fun o => VeoService.done o = false) pending ->
  VeoService.done final = true ->
  VeoService.polls w = (map VeoService.Op pending ++ VeoService.Op final :: rest)%list ->
  truthy (VeoService.uri final) = true ->
  VeoService.download w = VeoService.Response true statusText blobUrl ->
  let r := VeoService.generateVideo w in
  snd r = VeoService.Returned blobUrl /\
  VeoService.count_polls (fst r) = S (List.length pending) /\
  VeoService.statuses (fst r)
  = ("正在初始化 Veo 模型..." :: "正在生成动态封面..."
       :: VeoService.statuses
            (flat_map VeoService.milestone (seq 1 (S (List.length pending))))
       ++ ["下载完成"])%list%string /\
  ((5 <= List.length pending)%nat ->
   VeoService.statuses (fst r)
   = ["正在初始化 Veo 模型..."; "正在生成动态封面..."; "正在分析画面布局...";
      "正在合成视频帧..."; "即将完成..."; "下载完成"]%string).
Proof.
  intros Hkey Hclient Hs Hfirst Hpending Hfinal Hpolls Huri Hdl r.
  assert (Hst : VeoService.statuses (fst r)
    = ("正在初始化 Veo 模型..." :: "正在生成动态封面..."
       :: VeoService.statuses
            (flat_map VeoService.milestone (seq 1 (S (List.length pending))))
       ++ ["下载完成"])%list%string /\
    snd r = VeoService.Returned blobUrl /\
    VeoService.count_polls (fst r) = S (List.length pending)).
  { subst r. unfold VeoService.generateVideo.
    destruct (ensureApiKey_effects w) as (_ & _ & Hquiet & Hnopoll).
    destruct (VeoService.ensureApiKey w) as [before out]. cbn [fst snd] in *.
    subst out. rewrite Hclient. unfold VeoService.tryBlock. rewrite Hs, Hpolls.
    destruct (poll_pending pending 0 first final rest Hfirst Hpending Hfinal)
      as (H1 & H2 & H3).
    destruct (VeoService.poll first 0 _) as [es out]. cbn [fst snd] in H1, H2, H3.
    subst out. unfold VeoService.finish. rewrite Huri, Hdl. cbn [negb fst snd].
    split; [|split].
    - rewrite !statuses_app, H2, Hquiet. reflexivity.
    - reflexivity.
    - rewrite !count_polls_app, H3, Hnopoll.
      cbn [VeoService.count_polls Nat.add]. now rewrite Nat.add_0_r. }
  destruct Hst as (Hst & Hret & Hcount).
  split; [exact Hret|]. split; [exact Hcount|]. split; [exact Hst|].
  intros Hlen. rewrite Hst.
  do 5 (destruct pending as [|? pending];
        [exfalso; cbn [List.length] in Hlen; repeat apply le_S_n in Hlen; inversion Hlen|]).
  cbn [List.length seq flat_map].
  rewrite (milestones_late (List.length pending) 7 (le_n 7)).
  reflexivity.
Qed.

Lemma X14_polling_until_done_witness :
  let pendingOp := VeoService.mkOperation false None in
  let doneOp := VeoService.mkOperation true (Some "https://video/1?alt=media"%string) in
  let studio := AIStudio.mk (AIStudio.Resolves true) (AIStudio.Resolves tt)
                            (AIStudio.Resolves tt) in
  let w := VeoService.mkWorld (Some studio) (AIStudio.Resolves tt)
             (VeoService.Op pendingOp)
             [VeoService.Op pendingOp; VeoService.Op pendingOp; VeoService.Op doneOp;
              VeoService.Fails None]
             (VeoService.Response true "OK" "blob:1") in
  snd (VeoService.generateVideo w) = VeoService.Returned "blob:1"%string /\
  VeoService.count_polls (fst (VeoService.generateVideo w)) = 3%nat.
Proof.
  intros pendingOp doneOp studio w.
  assert (Hp : Forall (fun o => VeoService.done o = false) [pendingOp; pendingOp])
    by (repeat constructor).
  pose proof (X14_polling_until_done w pendingOp doneOp [pendingOp; pendingOp]
                [VeoService.Fails None] "OK" "blob:1"
                eq_refl eq_refl eq_refl eq_refl Hp eq_refl eq_refl eq_refl eq_refl) as H.
  exact (conj (proj1 H) (proj1 (proj2 H))).
Defined.



Lemma poll_no_error (operation : VeoService.Operation) (attempts : nat)
      (answers : list VeoService.Reply) :
  In VeoService.consoleError (fst (VeoService.poll operation attempts answers)) -> False.
Proof.
  revert operation attempts.
  induction answers as [|answer answers IH]; intros operation attempts;
    cbn [VeoService.poll]; destruct (VeoService.done operation); cbn [fst In];
    try tauto.
  assert (Hm : In VeoService.consoleError (VeoService.milestone (S attempts)) -> False).
  { do 6 (destruct attempts as [|attempts]; [cbn; intuition discriminate|]).
    cbn. tauto. }
  destruct answer as [next|message].
  - specialize (IH next (S attempts)).
    destruct (VeoService.poll next (S attempts) answers) as [later out].
    cbn [fst] in *. rewrite !in_app_iff. cbn [In]. intuition discriminate.
  - cbn [fst]. rewrite !in_app_iff. cbn [In]. intuition discriminate.
Qed.

Lemma catchBlock_throws (w : VeoService.World) (message : option string) :
  (exists m, snd (VeoService.catchBlock w message) = VeoService.Threw m) /\
  In VeoService.consoleError (fst (VeoService.catchBlock w message)) /\
  (VeoService.aistudio w = None ->
   VeoService.catchBlock w message
   = ([VeoService.consoleError], VeoService.Threw message)).
Proof.
  unfold VeoService.catchBlock.
  destruct (truthy message && includes _ _).
  - destruct (VeoService.aistudio w) as [studio|]; cbn [fst snd In].
    + split; [destruct (AIStudio.openSelectKeyAgain studio); eexists; reflexivity|].
      split; [tauto|discriminate].
    + split; [eexists; reflexivity|]. split; [tauto|reflexivity].
  - cbn [fst snd In]. split; [eexists; reflexivity|]. split; [tauto|reflexivity].
Qed.

(** What the [try] block and its [catch] block do, entered after the
    effects [before]. *)
Lemma tryBlock_returned (w : VeoService.World) (before : list VeoService.Effect) :
  forall url, snd (VeoService.tryBlock w before) = VeoService.Returned url ->
    (exists statusText, VeoService.download w = VeoService.Response true statusText url) /\
    In VeoService.fetch (fst (VeoService.tryBlock w before)) /\
    (In VeoService.consoleError (fst (VeoService.tryBlock w before)) ->
     In VeoService.consoleError before) /\
    forall d, last (VeoService.statuses (fst (VeoService.tryBlock w before))) d
              = "下载完成"%string.
Proof.
  intros url. unfold VeoService.tryBlock.
  assert (Hno : forall m es' r',
             VeoService.catchBlock w m = (es', r') -> r' = VeoService.Returned url -> False).
  { intros m es' r' E ->. destruct (catchBlock_throws w m) as ((m' & Hm) & _).
    rewrite E in Hm. discriminate Hm. }
  destruct (VeoService.started w) as [operation|message].
  - pose proof (poll_no_error operation 0 (VeoService.polls w)) as Hq.
    destruct (VeoService.poll operation 0 (VeoService.polls w)) as [es [[op|m]|[]]];
      cbn [fst] in Hq.
    + unfold VeoService.finish.
      destruct (negb (truthy (VeoService.uri op))).
      { destruct (VeoService.catchBlock w _) as [es' r'] eqn:E. cbn [snd].
        intros H. exfalso. exact (Hno _ _ _ E H). }
      destruct (VeoService.download w) as [m|ok statusText blobUrl|m].
      { destruct (VeoService.catchBlock w _) as [es' r'] eqn:E. cbn [snd].
        intros H. exfalso. exact (Hno _ _ _ E H). }
      { destruct ok.
        - cbn [fst snd]. intros H. injection H as <-. split; [eauto|]. split.
          + rewrite !in_app_iff. cbn [In]. tauto.
          + split.
            * rewrite !in_app_iff. cbn [In]. intuition discriminate.
            * intros d. rewrite !statuses_app. cbn [VeoService.statuses].
              rewrite !app_assoc. apply last_last.
        - destruct (VeoService.catchBlock w _) as [es' r'] eqn:E. cbn [snd].
          intros H. exfalso. exact (Hno _ _ _ E H). }
      { destruct (VeoService.catchBlock w _) as [es' r'] eqn:E. cbn [snd].
        intros H. exfalso. exact (Hno _ _ _ E H). }
    + destruct (VeoService.catchBlock w _) as [es' r'] eqn:E. cbn [snd].
      intros H. exfalso. exact (Hno _ _ _ E H).
    + cbn [snd]. discriminate.
  - destruct (VeoService.catchBlock w _) as [es' r'] eqn:E. cbn [snd].
    intros H. exfalso. exact (Hno _ _ _ E H).
Qed.



Lemma generateVideo_returned (w : VeoService.World) :
  forall url, snd (VeoService.generateVideo w) = VeoService.Returned url ->
    (exists statusText, VeoService.download w = VeoService.Response true statusText url) /\
    In VeoService.fetch (fst (VeoService.generateVideo w)) /\
    (In VeoService.consoleError (fst (VeoService.generateVideo w)) -> False) /\
    forall d, last (VeoService.statuses (fst (VeoService.generateVideo w))) d
              = "下载完成"%string.
Proof.
  intros url. unfold VeoService.generateVideo.
  destruct (ensureApiKey_effects w) as (Hbefore & _).
  destruct (VeoService.ensureApiKey w) as [before [e|]]; cbn [fst snd] in *;
    [discriminate|].
  destruct (VeoService.client w) as [u|e]; [|cbn [snd]; discriminate].
  intros H. destruct (tryBlock_returned w before url H) as (H1 & H2 & H3 & H4).
  split; [exact H1|]. split; [exact H2|]. split; [|exact H4].
  intros Hin. destruct (Hbefore _ (H3 Hin)); discriminate.
Qed.


(** ** The page and the video service together *)

Lemma progress_fold (progress : list string) (st : App.State) :
  fold_left (fun s m => Page.set_statusMessage m s) progress st
  = Page.set_statusMessage (last progress (App.statusMessage st)) st.
Proof.
  revert st. induction progress as [|m l IH]; intros st; [now destruct st|].
  cbn [fold_left]. rewrite IH.
  destruct l as [|m' l]; [reflexivity|].
  cbn [Page.set_statusMessage App.statusMessage].
  replace (last (m :: m' :: l) (App.statusMessage st)) with (last (m' :: l) m).
  - reflexivity.
  - clear IH. change (last (m :: m' :: l) (App.statusMessage st))
      with (last (m' :: l) (App.statusMessage st)).
    generalize (App.statusMessage st) as d. revert m m'.
    induction l as [|x l IHl]; intros m m' d; [reflexivity|].
    change (last (m' :: x :: l) m) with (last (x :: l) m).
    change (last (m' :: x :: l) d) with (last (x :: l) d).
    apply (IHl m x d).
Qed.

(** The video handler run without interruption is its first part, the
    progress reports and its continuation, one after the other. *)
Lemma handleGenerateVideo_parts (canvasRef : bool) (progress : list string)
      (service : string + unit) (st : App.State) :
  Page.handleGenerateVideo canvasRef progress (Some service) st
  = if Page.callsVideo canvasRef st
    then Page.step
           (fold_left Page.step (map Page.EvVideoStatus progress)
                      (Page.step st (Page.EvGenerateVideo canvasRef)))
           (Page.EvVideoDone service)
    else st.
Proof.
  unfold Page.handleGenerateVideo, Page.callsVideo. cbn [Page.step].
  unfold Page.callsVideo.
  destruct canvasRef; cbn [negb andb]; [|reflexivity].
  destruct (App.layoutConfig st); [|reflexivity].
  assert (H : forall s, fold_left Page.step (map Page.EvVideoStatus progress) s
                        = fold_left (fun s m => Page.set_statusMessage m s) progress s).
  { induction progress as [|m l IH]; intros s; [reflexivity|]. cbn [map fold_left].
    apply IH. }
  rewrite H. now destruct service.
Qed.

(** X16. When the page holds a layout and the canvas is mounted, the
    video action ends in [COMPLETED] exactly when the service returned a
    URL: the page then keeps that URL, which is the one of the
    downloaded body, and the status line reads the last progress
    message. Whatever the service throws, the key-validation error
    included, the page goes to [ERROR] with its own fixed message and
    keeps the video URL it had. In every case the cover, its title, its
    layout and its stickers stay as they were. *)
Theorem X16_video_action_on_page (w : VeoService.World) (st : App.State)
        (c : LayoutConfig.t) :
  App.layoutConfig st = Some c ->
  let st' := videoOnPage w true st in
  match snd (VeoService.generateVideo w) with
  | VeoService.Returned url =>
      App.appState st' = COMPLETED /\ App.videoUrl st' = url /\
      App.statusMessage st' = "下载完成"%string /\
      exists statusText, VeoService.download w = VeoService.Response true statusText url
  | VeoService.Threw _ =>
      App.appState st' = ERROR /\ App.videoUrl st' = App.videoUrl st /\
      App.statusMessage st' = Page.videoFailed
  | VeoService.Waiting =>
      App.appState st' = GENERATING_VIDEO /\ App.videoUrl st' = App.videoUrl st
  end /\
  App.croppedImage st' = App.croppedImage st /\ App.theme st' = App.theme st /\
  App.layoutConfig st' = App.layoutConfig st /\ App.stickers st' = App.stickers st /\
  App.activeFilter st' = App.activeFilter st.
Proof.
  intros Hc st'. subst st'. unfold videoOnPage.
  pose proof (generateVideo_returned w) as Hret.
  destruct (VeoService.generateVideo w) as [es r]. cbn [fst snd] in *.
  unfold Page.handleGenerateVideo. rewrite Hc. cbn [negb]. rewrite progress_fold.
  destruct r as [url|message|].
  - split; [|repeat split; now rewrite <- ?Hc].
    destruct (Hret url eq_refl) as (Hd & _ & _ & Hlast).
    split; [reflexivity|]. split; [reflexivity|]. split; [|exact Hd].
    cbn [Page.set_appState Page.set_videoUrl Page.set_statusMessage App.statusMessage].
    exact (Hlast _).
  - split; [|repeat split; now rewrite <- ?Hc]. repeat split.
  - split; [|repeat split; now rewrite <- ?Hc]. repeat split.
Qed.

Lemma X16_video_action_on_page_witness :
  let studio := AIStudio.mk (AIStudio.Resolves true) (AIStudio.Resolves tt)
                            (AIStudio.Resolves tt) in
  let w := VeoService.mkWorld (Some studio) (AIStudio.Resolves tt)
             (VeoService.Fails (Some "Requested entity was not found."%string))
             [] (VeoService.FetchFails None) in
  let st := Page.run session in
  snd (VeoService.generateVideo w) = VeoService.Threw (Some VeoService.keyFailed) /\
  App.appState (videoOnPage w true st) = ERROR /\
  App.statusMessage (videoOnPage w true st) = Page.videoFailed.
Proof.
  intros studio w st.
  destruct (App.layoutConfig st) as [c|] eqn:E; [|vm_compute in E; discriminate].
  pose proof (X16_video_action_on_page w st c E) as H. cbv zeta in H.
  change (snd (VeoService.generateVideo w))
    with (VeoService.Threw (Some VeoService.keyFailed)) in H.
  split; [reflexivity|]. split; [exact (proj1 (proj1 H))|exact (proj2 (proj2 (proj1 H)))].
Defined.
